(** * Neon-Goals-Service: vehicle query normaliser and retailer scrapers

    A shallow embedding of the Python scripts under [scripts/]:
    - [parse_vehicle_query.py]  (the pattern-based query normaliser),
    - [scrape-autotrader-cdp.py], [scrape-autotrader.py], [scrape-kbb.py],
      [scrape-truecar.py]       (the retailer scrapers),
    followed by the properties established about them.

    Conventions of the embedding.
    - Python [str] values are lists of characters ([text]); a character is
      a code point below 256 (the Latin-1 range of Unicode), and the
      character tables below ([\d], [\s], [\w], [str.lower]) are Python's
      tables restricted to that range.
    - Python [int] is [Z].
    - A Python call that can raise returns a [result]; [try]/[except] is a
      [match] on it.
    - The browser (Playwright / Camoufox) and the HTTP client are outside
      the program: what they return is an input of the model, given as
      records of observations. *)

From Stdlib Require Import Ascii String DecimalString.
From Stdlib Require Import List ZArith Lia Bool Arith.
Import ListNotations.

Set Implicit Arguments.
Set Warnings "-register-all".

(* ===================================================================== *)
(** * Part I.  Definitions                                                *)
(* ===================================================================== *)

(** ** Python values: text, exceptions *)

Definition text := list ascii.

(** A string literal of the source. *)
Definition str (s : string) : text := list_ascii_of_string s.
Arguments str s%_string.

Definition text_eqb (a b : text) : bool :=
  if list_eq_dec ascii_dec a b then true else false.

Inductive exn :=
| ValueError | TypeError | AttributeError | IndexError | KeyError
| NameError | OverflowError
| ExternalError.   (* raised by the browser or the HTTP client *)

Inductive result (A : Type) :=
| Ok (a : A)
| Raise (e : exn).
Arguments Ok {A} a.
Arguments Raise {A} e.

Definition bind {A B} (x : result A) (f : A -> result B) : result B :=
  match x with
  | Ok a => f a
  | Raise e => Raise e
  end.

Notation "x <- c1 ;; c2" := (bind c1 (fun x => c2))
  (at level 61, c1 at next level, right associativity).

(** ** Character tables (Python 3, code points 0..255) *)

Definition code (c : ascii) : nat := nat_of_ascii c.

Definition in_range (lo hi : nat) (c : ascii) : bool :=
  (lo <=? code c) && (code c <=? hi).

(** [\d]: the decimal digits (category Nd). *)
Definition is_digit (c : ascii) : bool := in_range 48 57 c.

(** [\s]: Unicode white space. *)
Definition is_space (c : ascii) : bool :=
  in_range 9 13 c || in_range 28 32 c
  || (code c =? 133) || (code c =? 160).

(** [\w]: [str.isalnum] characters and the underscore. *)
Definition is_word (c : ascii) : bool :=
  in_range 48 57 c || in_range 65 90 c || in_range 97 122 c
  || (code c =? 95)
  || (code c =? 170) || in_range 178 179 c || (code c =? 181)
  || in_range 185 186 c || in_range 188 190 c
  || in_range 192 214 c || in_range 216 246 c || in_range 248 255 c.

(** [str.lower] and [str.upper] on one character. *)
Definition lower_char (c : ascii) : ascii :=
  if in_range 65 90 c || in_range 192 214 c || in_range 216 222 c
  then ascii_of_nat (code c + 32) else c.

Definition upper_char (c : ascii) : ascii :=
  if in_range 97 122 c || in_range 224 246 c || in_range 248 254 c
  then ascii_of_nat (code c - 32) else c.

Definition lower (s : text) : text := map lower_char s.
Definition upper (s : text) : text := map upper_char s.

(** ** Substring tests and slicing *)

Fixpoint starts_with (p s : text) : bool :=
  match p, s with
  | [], _ => true
  | _ :: _, [] => false
  | a :: p', b :: s' => if ascii_dec a b then starts_with p' s' else false
  end.

(** [needle in hay] on Python strings. *)
Fixpoint contains (needle hay : text) : bool :=
  starts_with needle hay ||
  match hay with
  | [] => false
  | _ :: hay' => contains needle hay'
  end.

(** [any(p(x) for x in l)]. *)
Definition any {A} (p : A -> bool) (l : list A) : bool := existsb p l.

(** [s.strip()]: white space removed at both ends. *)
Fixpoint lstrip (s : text) : text :=
  match s with
  | c :: s' => if is_space c then lstrip s' else s
  | [] => []
  end.

Definition strip (s : text) : text := rev (lstrip (rev (lstrip s))).

(** [s.split(sep)] for a one-character separator. *)
Fixpoint split_on (sep : ascii) (cur : text) (s : text) : list text :=
  match s with
  | [] => [rev cur]
  | c :: s' =>
      if ascii_dec c sep then rev cur :: split_on sep [] s'
      else split_on sep (c :: cur) s'
  end.

Definition split (sep : ascii) (s : text) : list text := split_on sep [] s.

(** [s.replace(a, b)] for one-character [a]. *)
Definition replace_char (a : ascii) (b : text) (s : text) : text :=
  flat_map (fun c => if ascii_dec c a then b else [c]) s.

(** ** [int(...)] on a string

    [int(s)] of a non-empty string of decimal digits is its value; any
    other string raises [ValueError].  CPython bounds the number of digits
    a conversion accepts ([sys.set_int_max_str_digits], 4300 by default
    since 3.11, 0 to lift the bound): [max_str_digits] is that setting. *)

Definition digit_val (c : ascii) : Z := Z.of_nat (code c - 48).

Definition digits_val (s : text) : Z :=
  fold_left (fun acc c => 10 * acc + digit_val c)%Z s 0%Z.

Definition all_digits (s : text) : bool := forallb is_digit s.

Definition default_max_str_digits : nat := 4300.

Definition py_int (max_str_digits : nat) (s : text) : result Z :=
  match s with
  | [] => Raise ValueError
  | _ =>
      if negb (all_digits s) then Raise ValueError
      else if negb (max_str_digits =? 0) && (max_str_digits <? length s)
           then Raise ValueError
           else Ok (digits_val s)
  end.

(** ** [float(...)] followed by [int(...)]

    [float] reads a decimal numeral (digits with at most one point, at
    least one digit) and rounds it to the nearest binary64 value, ties to
    even; a value too large becomes infinity, on which [int] raises
    [OverflowError]; otherwise [int] truncates.  The numeral is given as
    [n / 10^k]. *)

Definition round_half_even (a b : Z) : Z :=
  let q := (a / b)%Z in
  let r := (a mod b)%Z in
  if (2 * r <? b)%Z then q
  else if (b <? 2 * r)%Z then (q + 1)%Z
  else if Z.even q then q else (q + 1)%Z.

(** Whether [num / den >= 2^p]. *)
Definition ge_pow2 (num den p : Z) : bool :=
  if (0 <=? p)%Z then (den * 2 ^ p <=? num)%Z
  else (den <=? num * 2 ^ (- p))%Z.

Definition int_of_float_of_ratio (num den : Z) : result Z :=
  if (num =? 0)%Z then Ok 0%Z
  else
    let p0 := (Z.log2 num - Z.log2 den)%Z in
    let p := if ge_pow2 num den p0 then p0 else (p0 - 1)%Z in
    let e := Z.max (p - 52) (-1074) in
    let m := if (0 <=? e)%Z
             then round_half_even num (den * 2 ^ e)
             else round_half_even (num * 2 ^ (- e)) den in
    if (0 <=? e)%Z
    then if (2 ^ 1024 <=? m * 2 ^ e)%Z then Raise OverflowError
         else Ok (m * 2 ^ e)%Z
    else Ok (m / 2 ^ (- e))%Z.

(** Splits a numeral at its first point. *)
Fixpoint split_point (s : text) : text * option text :=
  match s with
  | [] => ([], None)
  | c :: s' =>
      if ascii_dec c "."%char then ([], Some s')
      else let '(a, b) := split_point s' in (c :: a, b)
  end.

(** [int(float(s))] for [s] made of digits and points. *)
Definition py_int_of_float (s : text) : result Z :=
  let '(ip, fp) := split_point s in
  let fp := match fp with Some f => f | None => [] end in
  if all_digits ip && all_digits fp && negb (length (ip ++ fp) =? 0)
  then int_of_float_of_ratio (digits_val (ip ++ fp)) (10 ^ Z.of_nat (length fp))
  else Raise ValueError.

(** ** Regular expressions (the subset of [re] the scripts use) *)

Inductive cset :=
| CLit (c : ascii)
| CRange (lo hi : ascii)
| CDigit
| CSpace
| CWord
| CAny                       (* [.]: any character but a newline *)
| CUnion (a b : cset)
| CNot (a : cset)
| CNone.

Inductive regex :=
| Eps
| Set_ (s : cset)
| Cat (r1 r2 : regex)
| Alt (r1 r2 : regex)
| Rep (r : regex) (lo : nat) (hi : option nat) (greedy : bool)
| Grp (n : nat) (r : regex)
| WordB.

(** Membership of a character in a class; [ic] is [re.IGNORECASE]. *)
Fixpoint cs_mem (ic : bool) (s : cset) (c : ascii) : bool :=
  match s with
  | CLit x =>
      if ic then if ascii_dec (lower_char c) (lower_char x) then true else false
      else if ascii_dec c x then true else false
  | CRange lo hi =>
      in_range (code lo) (code hi) c
      || (ic && (in_range (code lo) (code hi) (lower_char c)
                 || in_range (code lo) (code hi) (upper_char c)))
  | CDigit => is_digit c
  | CSpace => is_space c
  | CWord => is_word c
  | CAny => negb (code c =? 10)
  | CUnion a b => cs_mem ic a c || cs_mem ic b c
  | CNot a => negb (cs_mem ic a c)
  | CNone => false
  end.

(** The number of capturing groups of a pattern ([len(match.groups())]). *)
Fixpoint count_groups (r : regex) : nat :=
  match r with
  | Cat a b | Alt a b => count_groups a + count_groups b
  | Rep a _ _ _ => count_groups a
  | Grp _ a => S (count_groups a)
  | _ => 0
  end.

(** The state of a match attempt: the position, the character before it,
    the text still to read and the groups closed so far (latest first),
    each with its number, its start and its text. *)
Record mstate := MState {
  ms_pos : nat;
  ms_prev : option ascii;
  ms_rest : text;
  ms_caps : list (nat * (nat * text))
}.

Definition is_word_opt (c : option ascii) : bool :=
  match c with Some x => is_word x | None => false end.

Definition at_word_boundary (st : mstate) : bool :=
  xorb (is_word_opt (ms_prev st)) (is_word_opt (hd_error (ms_rest st))).

Definition close_group (n : nat) (st st' : mstate) : mstate :=
  MState (ms_pos st') (ms_prev st') (ms_rest st')
         ((n, (ms_pos st, firstn (ms_pos st' - ms_pos st) (ms_rest st)))
          :: ms_caps st').

Definition hi_zero (hi : option nat) : bool :=
  match hi with Some 0 => true | _ => false end.

Definition hi_pred (hi : option nat) : option nat :=
  match hi with Some n => Some (pred n) | None => None end.

Definition orelse {A} (x : option A) (y : unit -> option A) : option A :=
  match x with Some a => Some a | None => y tt end.

Section Matcher.
Variable ic : bool.
Variable A : Type.

(** The loop of a repetition [r{lo,hi}]: [body] matches [r] once. *)
Definition rep_loop (body : mstate -> (mstate -> option A) -> option A)
    (k : mstate -> option A) (greedy : bool)
    : nat -> nat -> option nat -> mstate -> option A :=
  fix loop (fuel lo : nat) (hi : option nat) (st : mstate) : option A :=
    let stop := fun _ : unit => if lo =? 0 then k st else None in
    let more := fun _ : unit =>
      match fuel with
      | 0 => None
      | S fuel' =>
          if hi_zero hi then None
          else body st (fun st' =>
                 if (lo =? 0) && (ms_pos st' =? ms_pos st) then None
                 else loop fuel' (pred lo) (hi_pred hi) st')
      end in
    if greedy then orelse (more tt) stop else orelse (stop tt) more.

(** Backtracking matcher in continuation-passing style: [mtch r st k]
    tries the ways [r] can match at [st] in the priority order of [re]
    (first alternative first, greedy repetitions longest first) and
    returns the first one the continuation [k] accepts.  A repetition
    whose mandatory count is reached does not iterate on an empty match;
    the fuel of the loop bounds its iterations and is never exhausted. *)
Fixpoint mtch (r : regex) (st : mstate) (k : mstate -> option A) : option A :=
  match r with
  | Eps => k st
  | Set_ s =>
      match ms_rest st with
      | c :: tl =>
          if cs_mem ic s c
          then k (MState (S (ms_pos st)) (Some c) tl (ms_caps st))
          else None
      | [] => None
      end
  | Cat r1 r2 => mtch r1 st (fun st' => mtch r2 st' k)
  | Alt r1 r2 => orelse (mtch r1 st k) (fun _ => mtch r2 st k)
  | Grp n r1 => mtch r1 st (fun st' => k (close_group n st st'))
  | WordB => if at_word_boundary st then k st else None
  | Rep r1 lo hi greedy =>
      rep_loop (mtch r1) k greedy (lo + length (ms_rest st) + 1) lo hi st
  end.
End Matcher.

(** A match object: [start()], [end()], [group(0)], the groups, the number
    of groups of the pattern, and where the scan resumes. *)
Record match_obj := Match {
  mt_start : nat;
  mt_end : nat;
  mt_whole : text;
  mt_caps : list (nat * (nat * text));
  mt_ngroups : nat;
  mt_last : option ascii;
  mt_after : text
}.

(** [match.group(n)] for [1 <= n <= len(match.groups())]: [None] when the
    group took no part in the match. *)
Fixpoint lookup_cap (n : nat) (caps : list (nat * (nat * text)))
    : option (nat * text) :=
  match caps with
  | [] => None
  | (i, c) :: tl => if i =? n then Some c else lookup_cap n tl
  end.

Definition group (mt : match_obj) (n : nat) : option text :=
  match n with
  | 0 => Some (mt_whole mt)
  | _ => option_map snd (lookup_cap n (mt_caps mt))
  end.

Definition match_here (ic : bool) (r : regex) (pos : nat) (prev : option ascii)
    (rest : text) : option match_obj :=
  match mtch ic r (MState pos prev rest []) (fun st' => Some st') with
  | Some st' =>
      Some (Match pos (ms_pos st') (firstn (ms_pos st' - pos) rest)
                  (ms_caps st') (count_groups r) (ms_prev st') (ms_rest st'))
  | None => None
  end.

(** The leftmost match at or after the current position. *)
Fixpoint search_at (ic : bool) (r : regex) (pos : nat) (prev : option ascii)
    (rest : text) : option match_obj :=
  match match_here ic r pos prev rest with
  | Some mt => Some mt
  | None =>
      match rest with
      | [] => None
      | c :: tl => search_at ic r (S pos) (Some c) tl
      end
  end.

(** [re.search(r, s)]. *)
Definition search (ic : bool) (r : regex) (s : text) : option match_obj :=
  search_at ic r 0 None s.

(** [re.finditer(r, s)]: the successive non-overlapping matches; after an
    empty match the scan moves on by one character. *)
Fixpoint finditer_at (fuel : nat) (ic : bool) (r : regex) (pos : nat)
    (prev : option ascii) (rest : text) : list match_obj :=
  match fuel with
  | 0 => []
  | S fuel' =>
      match search_at ic r pos prev rest with
      | None => []
      | Some mt =>
          mt ::
          (if mt_end mt =? mt_start mt
           then match mt_after mt with
                | [] => []
                | c :: tl => finditer_at fuel' ic r (S (mt_end mt)) (Some c) tl
                end
           else finditer_at fuel' ic r (mt_end mt) (mt_last mt) (mt_after mt))
      end
  end.

Definition finditer (ic : bool) (r : regex) (s : text) : list match_obj :=
  finditer_at (S (length s)) ic r 0 None s.

(** [re.sub(c, '', s)] for a pattern [c] that is one character class. *)
Definition sub_class (c : cset) (s : text) : text :=
  filter (fun x => negb (cs_mem false c x)) s.

(** ** [re.compile]: reading a pattern string

    The patterns of the scripts are kept as the strings of the source and
    read by this parser.  It returns the pattern, the number of the last
    group opened and the unread text; syntax the scripts do not use is
    refused. *)

Definition pstate : Type := regex * nat * text.

Fixpoint seq_of (l : list regex) : regex :=
  match l with
  | [] => Eps
  | [r] => r
  | r :: tl => Cat r (seq_of tl)
  end.

Definition class_escape (c : ascii) : cset :=
  if ascii_dec c "d"%char then CDigit
  else if ascii_dec c "s"%char then CSpace
  else if ascii_dec c "w"%char then CWord
  else CLit c.

(** The items of a bracketed class, up to the closing bracket. *)
Fixpoint parse_class_items (fuel : nat) (s : text) : option (cset * text) :=
  match fuel with
  | 0 => None
  | S fuel' =>
      match s with
      | [] => None
      | "]"%char :: tl => Some (CNone, tl)
      | "\"%char :: c :: tl =>
          match parse_class_items fuel' tl with
          | Some (rest, tl') => Some (CUnion (class_escape c) rest, tl')
          | None => None
          end
      | a :: "-"%char :: b :: tl =>
          if ascii_dec b "]"%char
          then match parse_class_items fuel' ("-"%char :: b :: tl) with
               | Some (rest, tl') => Some (CUnion (CLit a) rest, tl')
               | None => None
               end
          else match parse_class_items fuel' tl with
               | Some (rest, tl') => Some (CUnion (CRange a b) rest, tl')
               | None => None
               end
      | a :: tl =>
          match parse_class_items fuel' tl with
          | Some (rest, tl') => Some (CUnion (CLit a) rest, tl')
          | None => None
          end
      end
  end.

Definition parse_class (s : text) : option (cset * text) :=
  match s with
  | "^"%char :: tl =>
      match parse_class_items (S (length tl)) tl with
      | Some (c, tl') => Some (CNot c, tl')
      | None => None
      end
  | _ => parse_class_items (S (length s)) s
  end.

(** A decimal number at the head of the pattern (inside braces). *)
Fixpoint parse_nat (acc : option nat) (s : text) : option nat * text :=
  match s with
  | c :: tl =>
      if is_digit c
      then parse_nat (Some (10 * match acc with Some a => a | None => 0 end
                            + (code c - 48))) tl
      else (acc, s)
  | [] => (acc, s)
  end.

(** The quantifier, if any, that follows an atom. *)
Definition parse_quant (r : regex) (s : text) : option (regex * text) :=
  let lazy_of (tl : text) : bool * text :=
    match tl with
    | "?"%char :: tl' => (false, tl')
    | _ => (true, tl)
    end in
  match s with
  | "*"%char :: tl => let '(g, tl') := lazy_of tl in Some (Rep r 0 None g, tl')
  | "+"%char :: tl => let '(g, tl') := lazy_of tl in Some (Rep r 1 None g, tl')
  | "?"%char :: tl => let '(g, tl') := lazy_of tl in Some (Rep r 0 (Some 1) g, tl')
  | "{"%char :: tl =>
      match parse_nat None tl with
      | (Some lo, "}"%char :: tl1) =>
          let '(g, tl') := lazy_of tl1 in Some (Rep r lo (Some lo) g, tl')
      | (Some lo, ","%char :: tl1) =>
          match parse_nat None tl1 with
          | (hi, "}"%char :: tl2) =>
              let '(g, tl') := lazy_of tl2 in Some (Rep r lo hi g, tl')
          | _ => None
          end
      | _ => None
      end
  | _ => Some (r, s)
  end.

Fixpoint parse_alt (fuel : nat) (g : nat) (s : text) : option pstate :=
  match fuel with
  | 0 => None
  | S fuel' =>
      let parse_atom (g : nat) (s : text) : option pstate :=
        match s with
        | "("%char :: "?"%char :: ":"%char :: tl =>
            match parse_alt fuel' g tl with
            | Some (r, g', ")"%char :: tl') => Some (r, g', tl')
            | _ => None
            end
        | "("%char :: tl =>
            match parse_alt fuel' (S g) tl with
            | Some (r, g', ")"%char :: tl') => Some (Grp (S g) r, g', tl')
            | _ => None
            end
        | "["%char :: tl =>
            match parse_class tl with
            | Some (c, tl') => Some (Set_ c, g, tl')
            | None => None
            end
        | "\"%char :: c :: tl =>
            if ascii_dec c "b"%char then Some (WordB, g, tl)
            else Some (Set_ (class_escape c), g, tl)
        | "."%char :: tl => Some (Set_ CAny, g, tl)
        | c :: tl =>
            if existsb (fun x => if ascii_dec c x then true else false)
                       (str ")|*+?{}^$\")
            then None
            else Some (Set_ (CLit c), g, tl)
        | [] => None
        end in
      let parse_seq :=
        (fix parse_seq (n : nat) (g : nat) (s : text) (acc : list regex)
           : option pstate :=
           match n with
           | 0 => None
           | S n' =>
               match s with
               | [] | ")"%char :: _ | "|"%char :: _ =>
                   Some (seq_of (rev acc), g, s)
               | _ =>
                   match parse_atom g s with
                   | Some (r, g', tl) =>
                       match parse_quant r tl with
                       | Some (r', tl') => parse_seq n' g' tl' (r' :: acc)
                       | None => None
                       end
                   | None => None
                   end
               end
           end) in
      match parse_seq (S (length s)) g s [] with
      | Some (r, g', "|"%char :: tl) =>
          match parse_alt fuel' g' tl with
          | Some (r2, g2, tl2) => Some (Alt r r2, g2, tl2)
          | None => None
          end
      | other => other
      end
  end.

(** [re.compile(p)]; a pattern the parser refuses matches nothing. *)
Definition re_compile (p : text) : option regex :=
  match parse_alt (S (length p)) 0 p with
  | Some (r, _, []) => Some r
  | _ => None
  end.

Definition pattern (p : string) : regex :=
  match re_compile (str p) with
  | Some r => r
  | None => Set_ CNone
  end.

(** A pattern that is a single bracketed class. *)
Definition class_pattern (p : string) : cset :=
  match pattern p with
  | Set_ c => c
  | _ => CNone
  end.

(* ===================================================================== *)
(** ** scripts/parse_vehicle_query.py                                     *)
(* ===================================================================== *)

Module ParseVehicleQuery.

(** The filter catalog as [parse_with_patterns] reads it: the
    ['global_filters'] entry and its five vocabularies, each possibly
    absent ([dict.get] with a default). *)
Record GlobalFilters := {
  exterior_colors : option (list text);
  body_types : option (list text);
  drivetrains : option (list text);
  fuel_types : option (list text);
  cat_features : option (list text)
}.

Record Catalog := { global_filters : option GlobalFilters }.

Definition get_or {A} (o : option A) (default : A) : A :=
  match o with Some a => a | None => default end.

Definition empty_filters : GlobalFilters :=
  Build_GlobalFilters None None None None None.

Record Location := {
  zip : option text;
  distance : option Z;
  city : option text;
  state : option text
}.

(** The ["structured"] dictionary of the result. *)
Record Structured := {
  makes : list text;
  models : list text;
  trims : list text;
  year : option Z;
  yearMin : option Z;
  yearMax : option Z;
  minPrice : option Z;
  maxPrice : option Z;
  drivetrain : option text;
  fuelType : option text;
  bodyType : option text;
  transmission : option text;
  doors : option Z;
  cylinders : option Z;
  exteriorColor : option text;
  interiorColor : option text;
  features : list text;
  location : Location
}.

(** The value returned: [{"query": ..., "structured": ...}]. *)
Record Parsed := { query : text; structured : Structured }.

Definition initial : Structured :=
  Build_Structured [] [] [] None None None None None None None None None
                   None None None None [] (Build_Location None None None None).

(** Assignments to one key of the dictionary. *)
Definition set_makes (v : list text) (s : Structured) : Structured :=
  Build_Structured v (models s) (trims s) (year s) (yearMin s) (yearMax s) (minPrice s) (maxPrice s) (drivetrain s) (fuelType s) (bodyType s) (transmission s) (doors s) (cylinders s) (exteriorColor s) (interiorColor s) (features s) (location s).
Definition set_models (v : list text) (s : Structured) : Structured :=
  Build_Structured (makes s) v (trims s) (year s) (yearMin s) (yearMax s) (minPrice s) (maxPrice s) (drivetrain s) (fuelType s) (bodyType s) (transmission s) (doors s) (cylinders s) (exteriorColor s) (interiorColor s) (features s) (location s).
Definition set_trims (v : list text) (s : Structured) : Structured :=
  Build_Structured (makes s) (models s) v (year s) (yearMin s) (yearMax s) (minPrice s) (maxPrice s) (drivetrain s) (fuelType s) (bodyType s) (transmission s) (doors s) (cylinders s) (exteriorColor s) (interiorColor s) (features s) (location s).
Definition set_year (v : option Z) (s : Structured) : Structured :=
  Build_Structured (makes s) (models s) (trims s) v (yearMin s) (yearMax s) (minPrice s) (maxPrice s) (drivetrain s) (fuelType s) (bodyType s) (transmission s) (doors s) (cylinders s) (exteriorColor s) (interiorColor s) (features s) (location s).
Definition set_minPrice (v : option Z) (s : Structured) : Structured :=
  Build_Structured (makes s) (models s) (trims s) (year s) (yearMin s) (yearMax s) v (maxPrice s) (drivetrain s) (fuelType s) (bodyType s) (transmission s) (doors s) (cylinders s) (exteriorColor s) (interiorColor s) (features s) (location s).
Definition set_maxPrice (v : option Z) (s : Structured) : Structured :=
  Build_Structured (makes s) (models s) (trims s) (year s) (yearMin s) (yearMax s) (minPrice s) v (drivetrain s) (fuelType s) (bodyType s) (transmission s) (doors s) (cylinders s) (exteriorColor s) (interiorColor s) (features s) (location s).
Definition set_drivetrain (v : option text) (s : Structured) : Structured :=
  Build_Structured (makes s) (models s) (trims s) (year s) (yearMin s) (yearMax s) (minPrice s) (maxPrice s) v (fuelType s) (bodyType s) (transmission s) (doors s) (cylinders s) (exteriorColor s) (interiorColor s) (features s) (location s).
Definition set_fuelType (v : option text) (s : Structured) : Structured :=
  Build_Structured (makes s) (models s) (trims s) (year s) (yearMin s) (yearMax s) (minPrice s) (maxPrice s) (drivetrain s) v (bodyType s) (transmission s) (doors s) (cylinders s) (exteriorColor s) (interiorColor s) (features s) (location s).
Definition set_bodyType (v : option text) (s : Structured) : Structured :=
  Build_Structured (makes s) (models s) (trims s) (year s) (yearMin s) (yearMax s) (minPrice s) (maxPrice s) (drivetrain s) (fuelType s) v (transmission s) (doors s) (cylinders s) (exteriorColor s) (interiorColor s) (features s) (location s).
Definition set_exteriorColor (v : option text) (s : Structured) : Structured :=
  Build_Structured (makes s) (models s) (trims s) (year s) (yearMin s) (yearMax s) (minPrice s) (maxPrice s) (drivetrain s) (fuelType s) (bodyType s) (transmission s) (doors s) (cylinders s) v (interiorColor s) (features s) (location s).
Definition set_features (v : list text) (s : Structured) : Structured :=
  Build_Structured (makes s) (models s) (trims s) (year s) (yearMin s) (yearMax s) (minPrice s) (maxPrice s) (drivetrain s) (fuelType s) (bodyType s) (transmission s) (doors s) (cylinders s) (exteriorColor s) (interiorColor s) v (location s).

(** [price_patterns], in the order of the source. *)
Definition price_patterns : list regex :=
  [ pattern "under\s*\$?(\d+)";
    pattern "below\s*\$?(\d+)";
    pattern "less than\s*\$?(\d+)";
    pattern "max\s*\$?(\d+)";
    pattern "\$?(\d+)\s*-\s*\$?(\d+)";
    pattern "between\s*\$?(\d+)\s*and\s*\$?(\d+)";
    pattern "up to\s*\$?(\d+)" ].

Definition year_pattern : regex := pattern "\b(20\d{2})\b".

(** [int(match.group(n))]: [int(None)] raises [TypeError]. *)
Definition int_group (max_str_digits : nat) (mt : match_obj) (n : nat) : result Z :=
  match group mt n with
  | Some t => py_int max_str_digits t
  | None => Raise TypeError
  end.

(** Truth value of [match.group(n)]. *)
Definition group_truthy (mt : match_obj) (n : nat) : bool :=
  match group mt n with
  | Some (_ :: _) => true
  | _ => false
  end.

(** [for pattern in price_patterns: ... break]. *)
Fixpoint price_loop (max_str_digits : nat) (patterns : list regex)
    (query_lower : text) (s : Structured) : result Structured :=
  match patterns with
  | [] => Ok s
  | p :: rest =>
      match search false p query_lower with
      | Some mt =>
          if (mt_ngroups mt =? 2) && group_truthy mt 2
          then
            lo <- int_group max_str_digits mt 1 ;;
            let s := set_minPrice (Some lo) s in
            hi <- int_group max_str_digits mt 2 ;;
            Ok (set_maxPrice (Some hi) s)
          else
            hi <- int_group max_str_digits mt 1 ;;
            Ok (set_maxPrice (Some hi) s)
      | None => price_loop max_str_digits rest query_lower s
      end
  end.

(** [for v in vocabulary: if v.lower() in query_lower: ...; break]. *)
Fixpoint first_in (vocabulary : list text) (query_lower : text)
    (assign : option text -> Structured -> Structured) (s : Structured)
    : Structured :=
  match vocabulary with
  | [] => s
  | v :: rest =>
      if contains (lower v) query_lower then assign (Some v) s
      else first_in rest query_lower assign s
  end.

(** [for feature in features: if feature.lower() in query_lower: append]. *)
Fixpoint features_loop (vocabulary : list text) (query_lower : text)
    (s : Structured) : Structured :=
  match vocabulary with
  | [] => s
  | v :: rest =>
      features_loop rest query_lower
        (if contains (lower v) query_lower
         then set_features (features s ++ [v]) s else s)
  end.

Definition common_makes : list (text * text) :=
  [ (str "gmc", str "GMC"); (str "ford", str "Ford");
    (str "chevrolet", str "Chevrolet"); (str "chevy", str "Chevrolet");
    (str "toyota", str "Toyota"); (str "honda", str "Honda");
    (str "jeep", str "Jeep"); (str "ram", str "Ram");
    (str "dodge", str "Dodge"); (str "nissan", str "Nissan");
    (str "bmw", str "BMW"); (str "mercedes", str "Mercedes");
    (str "lexus", str "Lexus"); (str "audi", str "Audi");
    (str "cadillac", str "Cadillac"); (str "buick", str "Buick");
    (str "lincoln", str "Lincoln"); (str "acura", str "Acura");
    (str "infiniti", str "Infiniti");
    (str "volkswagen", str "Volkswagen"); (str "volvo", str "Volvo");
    (str "subaru", str "Subaru");
    (str "mazda", str "Mazda"); (str "kia", str "Kia");
    (str "hyundai", str "Hyundai"); (str "mitsubishi", str "Mitsubishi") ].

(** [for make_lower, make_proper in common_makes.items(): ... append]. *)
Fixpoint makes_loop (items : list (text * text)) (query_lower : text)
    (s : Structured) : Structured :=
  match items with
  | [] => s
  | (make_lower, make_proper) :: rest =>
      makes_loop rest query_lower
        (if contains make_lower query_lower
         then set_makes (makes s ++ [make_proper]) s else s)
  end.

(** ['w' in query_lower] for a literal [w]. *)
Definition lit_in (w : string) (query_lower : text) : bool :=
  contains (str w) query_lower.
Arguments lit_in w%_string query_lower.

(** [result["structured"]["models"].append(m)] for a literal [m]. *)
Definition append_model (m : string) (s : Structured) : Structured :=
  set_models (models s ++ [str m]) s.
Arguments append_model m%_string s.

(** The [if]/[elif] chain of model names. *)
Definition models_chain (q : text) (s : Structured) : Structured :=
  if lit_in "sierra" q || lit_in "silverado" q then
    let model :=
      if lit_in "3500" q || lit_in "1500" q
      then (if lit_in "sierra" q then "Sierra 3500" else "Silverado 1500")%string
      else (if lit_in "sierra" q then "Sierra" else "Silverado")%string in
    append_model model s
  else if lit_in "f-150" q || lit_in "f150" q then append_model "F-150" s
  else if lit_in "rav4" q then append_model "RAV4" s
  else if lit_in "cr-v" q || lit_in "crv" q then append_model "CR-V" s
  else if lit_in "wrangler" q then append_model "Wrangler" s
  else if lit_in "grand cherokee" q then append_model "Grand Cherokee" s
  else if lit_in "tacoma" q then append_model "Tacoma" s
  else if lit_in "tundra" q then append_model "Tundra" s
  else if lit_in "camry" q then append_model "Camry" s
  else if lit_in "corvette" q then append_model "Corvette" s
  else if lit_in "mustang" q then append_model "Mustang" s
  else s.

Definition trim_patterns : list (text * text) :=
  [ (str "denali ultimate", str "Denali Ultimate");
    (str "denali", str "Denali");
    (str "at4", str "AT4");
    (str "lariat", str "Lariat");
    (str "king ranch", str "King Ranch");
    (str "platinum", str "Platinum");
    (str "limited", str "Limited");
    (str "rubicon", str "Rubicon");
    (str "sahara", str "Sahara");
    (str "xle", str "XLE");
    (str "xse", str "XSE") ].

(** [for trim_pattern, trim_name in trim_patterns.items(): ... append]. *)
Fixpoint trims_loop (items : list (text * text)) (query_lower : text)
    (s : Structured) : Structured :=
  match items with
  | [] => s
  | (trim_pattern, trim_name) :: rest =>
      trims_loop rest query_lower
        (if contains trim_pattern query_lower
         then set_trims (trims s ++ [trim_name]) s else s)
  end.

Definition parse_with_patterns (max_str_digits : nat) (query : text)
    (catalog : Catalog) : result Parsed :=
  let query_lower := lower query in
  let s := initial in
  let global_filters := get_or (global_filters catalog) empty_filters in
  (* Extract price *)
  s <- price_loop max_str_digits price_patterns query_lower s ;;
  (* Extract year *)
  s <- match search false year_pattern query with
       | Some year_match =>
           y <- int_group max_str_digits year_match 1 ;;
           Ok (set_year (Some y) s)
       | None => Ok s
       end ;;
  (* Extract color, body type, drivetrain, fuel type *)
  let s := first_in (get_or (exterior_colors global_filters) [])
                    query_lower set_exteriorColor s in
  let s := first_in (get_or (body_types global_filters) [])
                    query_lower set_bodyType s in
  let s := first_in (get_or (drivetrains global_filters) [])
                    query_lower set_drivetrain s in
  let s := first_in (get_or (fuel_types global_filters) [])
                    query_lower set_fuelType s in
  (* Extract features *)
  let s := features_loop (get_or (cat_features global_filters) [])
                         query_lower s in
  let s := makes_loop common_makes query_lower s in
  let s := models_chain query_lower s in
  let s := trims_loop trim_patterns query_lower s in
  Ok (Build_Parsed query s).

End ParseVehicleQuery.

(* ===================================================================== *)
(** ** Values shared by the scrapers                                      *)
(* ===================================================================== *)

(** Python values as they come out of [json.loads] (numbers are
    integers). A [VDict] lists the items of a dictionary in order. *)
Inductive value :=
| VNone
| VBool (b : bool)
| VInt (z : Z)
| VStr (s : text)
| VList (l : list value)
| VDict (items : list (text * value)).

(** Truth value of a Python object. *)
Definition truthy (v : value) : bool :=
  match v with
  | VNone => false
  | VBool b => b
  | VInt z => negb (z =? 0)%Z
  | VStr s => negb (length s =? 0)
  | VList l => negb (length l =? 0)
  | VDict d => negb (length d =? 0)
  end.

(** [a or b]. *)
Definition py_or (a b : value) : value := if truthy a then a else b.

Fixpoint assoc (key : text) (items : list (text * value)) : option value :=
  match items with
  | [] => None
  | (k, v) :: rest => if text_eqb k key then Some v else assoc key rest
  end.

(** [d.get(key, default)]; only dictionaries have [get]. *)
Definition dict_get (d : value) (key : string) (default : value) : result value :=
  match d with
  | VDict items => Ok (match assoc (str key) items with Some v => v | None => default end)
  | _ => Raise AttributeError
  end.
Arguments dict_get d key%_string default.

(** The dictionary every scraper appends to its results. *)
Record Listing := {
  name : text;
  price : value;
  mileage : value;
  image : value;
  retailer : text;
  url : text;
  location : text
}.

(** [l[:n]] for an integer [n]. *)
Definition slice_to {A} (n : Z) (l : list A) : list A :=
  if (0 <=? n)%Z then firstn (Z.to_nat n) l
  else firstn (length l - Z.to_nat (- n)) l.

(** [extract_number], defined identically in each scraper script. *)
Definition extract_number (t : text) : Z :=
  match t with
  | [] => 0%Z
  | _ =>
      let cleaned := sub_class (class_pattern "[^\d,.]") t in
      let cleaned := replace_char ","%char [] cleaned in
      match py_int_of_float cleaned with
      | Ok n => n
      | Raise _ => 0%Z
      end
  end.

(** [s[len(prefix):]]-free test [s.startswith('http')]. *)
Definition startswith (prefix : string) (s : text) : bool :=
  starts_with (str prefix) s.
Arguments startswith prefix%_string s.

(* ===================================================================== *)
(** ** scripts/scrape-autotrader-cdp.py                                   *)
(* ===================================================================== *)

Module AutoTraderCdp.

(** What the browser answers about one listing link:
    [get_attribute('href')], [inner_text()] ([link_inner_text]), and the
    three scripts run
    with [evaluate] (the text of the ancestor at a given level, the text
    of the closest card, the source of the closest image). *)
Record LinkElement := {
  get_attribute_href : result (option text);
  link_inner_text : result text;
  ancestor_inner_text : nat -> result (option text);
  closest_card_text : result text;
  closest_image_src : result text
}.

(** What the browser answers about the page: whether the CDP connection
    succeeds, whether the navigation and scrolling of lines 60-126 runs
    through, the text of the body, the listing links. *)
Record Page := {
  connect_over_cdp : bool;
  navigate_and_scroll : result unit;
  inner_text_body : result text;
  query_selector_all_links : result (list LinkElement)
}.

Definition bot_detection_indicators : list text :=
  [ str "page unavailable";
    str "site unavailable";
    str "access denied";
    str "blocked";
    str "couldn't find the page";
    str "having trouble";
    str "please try again later";
    str "Access to this page has been denied";
    str "you don't have permission";
    str "Incident Number:";
    str "We're sorry for any inconvenience" ].

Definition no_results_indicators : list text :=
  [ str "No matching vehicles";
    str "No results found";
    str "0 results";
    str "No cars found";
    str "Try changing your search";
    str "No exact matches" ].

Inductive page_class := BLOCKED | NO_RESULTS | USABLE.

(** The two checks of lines 138-167, in their order. *)
Definition classify (page_text : text) : page_class :=
  if any (fun indicator => contains (lower indicator) (lower page_text))
         bot_detection_indicators
  then BLOCKED
  else if any (fun indicator => contains indicator page_text)
              no_results_indicators
  then NO_RESULTS
  else USABLE.

Definition vehicle_id_pattern : regex := pattern "/vehicle/(\d+)".

(** The vehicle id of a link address, when the address has one. *)
Definition vehicle_id_of_url (url : text) : option text :=
  let clean_url := hd [] (split "#"%char url) in
  match search false vehicle_id_pattern clean_url with
  | Some vehicle_id_match => group vehicle_id_match 1
  | None => None
  end.

(** The state of the deduplication loop. *)
Record dedup_state := {
  seen_vehicle_ids : list text;
  unique_listings : list LinkElement;
  skipped_count : nat
}.

Definition mem (x : text) (s : list text) : bool := existsb (text_eqb x) s.

(** One iteration of [for listing in listings] (lines 182-196). *)
Definition dedup_step (st : dedup_state) (listing : LinkElement)
    : result dedup_state :=
  href <- get_attribute_href listing ;;
  let url := match href with Some u => u | None => [] end in
  match url with
  | [] => Ok st                                             (* continue *)
  | _ =>
      match vehicle_id_of_url url with
      | Some vehicle_id =>
          if mem vehicle_id (seen_vehicle_ids st)
          then Ok {| seen_vehicle_ids := seen_vehicle_ids st;
                     unique_listings := unique_listings st;
                     skipped_count := S (skipped_count st) |}
          else Ok {| seen_vehicle_ids := vehicle_id :: seen_vehicle_ids st;
                     unique_listings := unique_listings st ++ [listing];
                     skipped_count := skipped_count st |}
      | None => Ok st
      end
  end.

Fixpoint dedup_loop (listings : list LinkElement) (st : dedup_state)
    : result dedup_state :=
  match listings with
  | [] => Ok st
  | listing :: rest =>
      st' <- dedup_step st listing ;;
      dedup_loop rest st'
  end.

(** Lines 177-196: the listings kept, in order. *)
Definition dedupe (listings : list LinkElement) : result (list LinkElement) :=
  st <- dedup_loop listings {| seen_vehicle_ids := [];
                               unique_listings := [];
                               skipped_count := 0 |} ;;
  Ok (unique_listings st).

(** Lines 217-225: the text of the first ancestor, from level [level] up
    to level 12, that has more than 100 characters. *)
Fixpoint ancestor_loop (count level : nat) (listing : LinkElement) : text :=
  match count with
  | 0 => []
  | S count' =>
      match ancestor_inner_text listing level with
      | Ok (Some ancestor) =>
          if negb (length ancestor =? 0) && (100 <? length ancestor)
          then ancestor
          else ancestor_loop count' (S level) listing
      | Ok None => ancestor_loop count' (S level) listing
      | Raise _ => ancestor_loop count' (S level) listing
      end
  end.

(** Lines 216-247: the text in which price and mileage are looked up. *)
Definition resolve_all_text (listing : LinkElement) : text :=
  let all_text := ancestor_loop 12 1 listing in
  if (length all_text =? 0) || (length all_text <? 50)
  then match closest_card_text listing with
       | Ok card_text =>
           if negb (length card_text =? 0)
              && (length all_text <? length card_text)
           then card_text else all_text
       | Raise _ => all_text
       end
  else all_text.

Definition dollar_pattern : regex := pattern "\$\s*([\d,]+)".
Definition grouped_pattern : regex := pattern "(\d{1,2},\d{3})".
Definition plain_pattern : regex := pattern "(\d{5,6})".
Definition mileage_pattern : regex := pattern "(\d+)\s*mi\b".
Definition dealer_pattern : regex :=
  pattern
    "([A-Z][a-zA-Z]+\s+(?:Buick|GMC|Ford|Toyota|Honda|Chevrolet)\s+(?:[A-Z][a-z]+)?)".

(** [extract_number(match.group(1))]; the groups concerned always took
    part in the match. *)
Definition number_group (mt : match_obj) (n : nat) : Z :=
  match group mt n with
  | Some t => extract_number t
  | None => 0%Z
  end.

(** [for match in re.finditer(...)] of lines 256-261 and 263-268. *)
Fixpoint candidates_loop (matches : list match_obj)
    (price_candidates : list (Z * nat)) : list (Z * nat) :=
  match matches with
  | [] => price_candidates
  | mt :: rest =>
      let potential_price := number_group mt 1 in
      if (1900 <=? potential_price)%Z && (potential_price <=? 2100)%Z
      then candidates_loop rest price_candidates            (* continue *)
      else if (5000 <=? potential_price)%Z && (potential_price <=? 500000)%Z
      then candidates_loop rest
             (price_candidates ++ [(potential_price, mt_start mt)])
      else candidates_loop rest price_candidates
  end.

(** The [else] branch of lines 254-270. *)
Definition price_heuristic (all_text : text) : Z :=
  let price_candidates :=
    candidates_loop (finditer false grouped_pattern all_text) [] in
  let price_candidates :=
    match price_candidates with
    | [] => candidates_loop (finditer false plain_pattern all_text)
                            price_candidates
    | _ => price_candidates
    end in
  match price_candidates with
  | [] => 0%Z
  | _ => fst (last price_candidates (0%Z, 0))
  end.

(** Lines 249-270. *)
Definition extract_price (all_text : text) : Z :=
  match search false dollar_pattern all_text with
  | Some price_match => number_group price_match 1
  | None => price_heuristic all_text
  end.

(** Lines 272-274. *)
Definition extract_mileage (max_str_digits : nat) (all_text : text) : result Z :=
  match search true mileage_pattern all_text with
  | Some mileage_match =>
      match group mileage_match 1 with
      | Some t => py_int max_str_digits t
      | None => Raise TypeError
      end
  | None => Ok 0%Z
  end.

(** The body of the [try] of lines 201-320 for one listing: the
    dictionary appended, or [None] when nothing is appended. *)
Definition extract_listing (max_str_digits : nat) (listing : LinkElement)
    : result (option Listing) :=
  href <- get_attribute_href listing ;;
  let url := match href with Some u => u | None => [] end in
  let url := hd [] (split "#"%char url) in
  let url := if startswith "http" url then url
             else str "https://www.autotrader.com" ++ url in
  link_text <- link_inner_text listing ;;
  let title := strip link_text in
  if (length title =? 0) || (length title <? 10)
     || existsb (text_eqb title)
          [str "No Accidents"; str "Clean Title"; str " accident"]
  then Ok None                                              (* continue *)
  else
    let all_text := resolve_all_text listing in
    let price := extract_price all_text in
    mileage <- extract_mileage max_str_digits all_text ;;
    let image :=
      match closest_image_src listing with
      | Ok img_src => if negb (length img_src =? 0) then img_src else []
      | Raise _ => []
      end in
    let location :=
      match search false dealer_pattern all_text with
      | Some dealer_match =>
          match group dealer_match 1 with
          | Some d => str "AutoTrader (" ++ d ++ str ")"
          | None => str "AutoTrader (None)"
          end
      | None => str "AutoTrader"
      end in
    if (0 <? price)%Z
    then Ok (Some {| name := title;
                     price := VInt price;
                     mileage := VInt mileage;
                     image := VStr image;
                     retailer := str "AutoTrader";
                     url := url;
                     location := location |})
    else Ok None.

(** [for i, listing in enumerate(unique_listings[:max_results])]: an
    exception in the body is logged and the loop goes on. *)
Fixpoint extract_loop (max_str_digits : nat) (listings : list LinkElement)
    (results : list Listing) : list Listing :=
  match listings with
  | [] => results
  | listing :: rest =>
      extract_loop max_str_digits rest
        (match extract_listing max_str_digits listing with
         | Ok (Some d) => results ++ [d]
         | Ok None => results
         | Raise _ => results
         end)
  end.

(** [scrape_autotrader_cdp]: [None] when the CDP connection fails,
    otherwise the list [results]; an exception after the connection is
    caught by the outer [try], which leaves [results] as it is. *)
Definition scrape_autotrader_cdp (max_str_digits : nat) (query : text)
    (max_results : Z) (page : Page) : option (list Listing) :=
  let results : list Listing := [] in
  if negb (connect_over_cdp page) then None
  else
    let body : result (list Listing) :=
      _ <- navigate_and_scroll page ;;
      page_text <- inner_text_body page ;;
      match classify page_text with
      | BLOCKED => Ok []
      | NO_RESULTS => Ok []
      | USABLE =>
          listings <- query_selector_all_links page ;;
          match listings with
          | [] => Ok []
          | _ =>
              unique_listings <- dedupe listings ;;
              Ok (extract_loop max_str_digits
                    (slice_to max_results unique_listings) results)
          end
      end in
    match body with
    | Ok r => Some r
    | Raise _ => Some results
    end.

End AutoTraderCdp.

(* ===================================================================== *)
(** ** The Camoufox browser as the other scrapers use it                  *)
(* ===================================================================== *)

(** An element handle: [inner_text()], [get_attribute(name)] and
    [query_selector(selector)], each of which may raise. *)
Inductive Element := mkElement {
  inner_text : result text;
  get_attribute : string -> result (option text);
  query_selector : string -> result (option Element)
}.

(** A browser session: entering [AsyncCamoufox], opening the page and
    loading the address, [page.query_selector_all], [browser.close()]. *)
Record Browser := {
  launch : result unit;
  new_page_goto : result unit;
  query_selector_all : string -> result (list Element);
  close : result unit
}.

(** [x or ''] for an attribute value. *)
Definition or_empty (o : option text) : text :=
  match o with Some t => t | None => [] end.

(** [s.split()]: the maximal runs of characters that are not white space. *)
Fixpoint split_ws_aux (cur : text) (s : text) : list text :=
  match s with
  | [] => match cur with [] => [] | _ => [rev cur] end
  | c :: s' =>
      if is_space c
      then match cur with
           | [] => split_ws_aux [] s'
           | _ => rev cur :: split_ws_aux [] s'
           end
      else split_ws_aux (c :: cur) s'
  end.

Definition split_ws (s : text) : list text := split_ws_aux [] s.

Definition newline : ascii := ascii_of_nat 10.

(** [try: body finally: close], for a body that does not raise. *)
Definition with_browser (b : Browser) (body : list Listing)
    : result (list Listing) :=
  _ <- close b ;; Ok body.

(* ===================================================================== *)
(** ** scripts/scrape-kbb.py                                              *)
(* ===================================================================== *)

Module Kbb.

Definition price_line_pattern : regex := pattern "\$?([\d,]+)".
Definition condition_pattern : regex := pattern "(New|Used|Certified)\s+\d{4}".
Definition four_digits_pattern : regex := pattern "\d{4}".
Definition dollar_amount_pattern : regex := pattern "\$[\d,]+".
Definition not_a_name_pattern : regex := pattern "(Buick|GMC|Dealer|Availability)".
Definition dealer_pattern : regex :=
  pattern "(Buick|GMC|Chevrolet|Ford|Toyota|Honda|Dealer)".
Definition mileage_pattern : regex := pattern "(\d+[,\d]*)\s*(K|k)?\s*mi".

Definition found (o : option match_obj) : bool :=
  match o with Some _ => true | None => false end.

(** Lines 84-90. *)
Fixpoint price_loop (lines : list text) : Z :=
  match lines with
  | [] => 0%Z
  | line :: rest =>
      match search false price_line_pattern line with
      | Some price_match =>
          if contains (str ",") (or_empty (group price_match 1))
          then extract_number line                          (* break *)
          else price_loop rest
      | None => price_loop rest
      end
  end.

(** Lines 94-106; the state is [(condition, year, title)]. *)
Fixpoint title_loop (max_str_digits : nat) (lines : list text)
    (st : text * Z * text) : result (text * Z * text) :=
  match lines with
  | [] => Ok st
  | line :: rest =>
      let '(condition, year, title) := st in
      if found (search false condition_pattern line)
      then
        year <- match search false four_digits_pattern line with
                | Some year_match =>
                    py_int max_str_digits (mt_whole year_match)
                | None => Ok year
                end ;;
        condition <- match split_ws line with
                     | w :: _ => Ok w
                     | [] => Raise IndexError
                     end ;;
        title_loop max_str_digits rest (condition, year, title)
      else if negb (found (search false dollar_amount_pattern line))
              && negb (found (search true not_a_name_pattern line))
      then
        if (length title =? 0) && (5 <? length line)
        then Ok (condition, year, line)                     (* break *)
        else title_loop max_str_digits rest st
      else title_loop max_str_digits rest st
  end.

(** Lines 113-119. *)
Fixpoint dealer_loop (lines : list text) : text :=
  match lines with
  | [] => str "KBB Dealer"
  | line :: rest =>
      if found (search true dealer_pattern line)
         && negb (startswith "Confirm" line)
         && negb (startswith "New" line)
      then line                                             (* break *)
      else dealer_loop rest
  end.

(** Lines 127-135. *)
Definition extract_mileage (condition all_text : text) : Z :=
  if text_eqb (lower condition) (str "used")
  then match search true mileage_pattern all_text with
       | Some mileage_match =>
           let mileage := extract_number (or_empty (group mileage_match 1)) in
           if contains (str "K") (mt_whole mileage_match)
              || contains (str "k") (mt_whole mileage_match)
           then (mileage * 1000)%Z else mileage
       | None => 0%Z
       end
  else 0%Z.

(** The body of the [try] of lines 65-147 for one listing. *)
Definition extract_listing (max_str_digits : nat) (query : text)
    (listing : Element) : result (option Listing) :=
  all_text <- inner_text listing ;;
  href <- get_attribute listing "href" ;;
  let url := or_empty href in
  let url := if startswith "http" url then url
             else str "https://www.kbb.com" ++ url in
  let lines :=
    map strip (filter (fun line => negb (length (strip line) =? 0))
                      (split newline all_text)) in
  let price := price_loop lines in
  st <- title_loop max_str_digits lines ([], 0%Z, []) ;;
  let '(condition, year, title) := st in
  let title := match title with [] => query | _ => title end in
  let dealer := dealer_loop lines in
  img_elem <- query_selector listing "img" ;;
  image <- match img_elem with
           | Some img => src <- get_attribute img "src" ;; Ok (or_empty src)
           | None => Ok []
           end ;;
  let mileage := extract_mileage condition all_text in
  if (0 <? price)%Z
  then Ok (Some {| name := title;
                   price := VInt price;
                   mileage := VInt mileage;
                   image := VStr image;
                   retailer := str "KBB";
                   url := url;
                   location := dealer |})
  else Ok None.

Fixpoint extract_loop (max_str_digits : nat) (query : text)
    (listings : list Element) (results : list Listing) : list Listing :=
  match listings with
  | [] => results
  | listing :: rest =>
      extract_loop max_str_digits query rest
        (match extract_listing max_str_digits query listing with
         | Ok (Some d) => results ++ [d]
         | Ok None => results
         | Raise _ => results
         end)
  end.

(** [scrape_kbb]: entering the browser is outside the [try]; inside it an
    exception leaves [results] as it is; the browser is closed last. *)
Definition scrape_kbb (max_str_digits : nat) (query : text) (max_results : Z)
    (browser : Browser) : result (list Listing) :=
  _ <- launch browser ;;
  let results : list Listing := [] in
  let body : result (list Listing) :=
    _ <- new_page_goto browser ;;
    listings <- query_selector_all browser
                  "a[href*=/cars-for-sale/vehicledetails.xhtml/]" ;;
    Ok (extract_loop max_str_digits query
          (slice_to max_results listings) results) in
  with_browser browser
    (match body with Ok r => r | Raise _ => results end).

End Kbb.

(** [s.replace(old, new)] for a non-empty [old]; the fuel is the length
    of [s]. *)
Fixpoint replace_at (fuel : nat) (old new s : text) : text :=
  match fuel with
  | 0 => s
  | S fuel' =>
      match s with
      | [] => []
      | c :: s' =>
          if starts_with old s
          then new ++ replace_at (fuel' - (length old - 1)) old new
                        (skipn (length old) s)
          else c :: replace_at fuel' old new s'
      end
  end.

Definition replace (old new : string) (s : text) : text :=
  replace_at (length s) (str old) (str new) s.
Arguments replace (old new)%_string s.

(* ===================================================================== *)
(** ** scripts/scrape-autotrader.py                                       *)
(* ===================================================================== *)

Module AutoTrader.

(** The selectors are written without their inner double quotes. *)
Definition selectors : list string :=
  [ "[data-cmp=inventoryListingV2]";
    "[data-type=listing]";
    ".inventory-listing-card";
    "div[data-uuid]" ]%string.

Definition year_pattern : regex := pattern "\b(19|20)\d{2}\b".
Definition mileage_pattern : regex := pattern "(\d+[,\d]*)\s*mi".
Definition dealer_pattern : regex :=
  pattern "(.*?)(?:\s*|\s*\|\s*)(\d+\s*mi)?\s*away".

(** Lines 68-74: the first selector that finds something. *)
Fixpoint find_listings (browser : Browser) (selectors : list string)
    : result (list Element) :=
  match selectors with
  | [] => Ok []
  | selector :: rest =>
      found <- query_selector_all browser selector ;;
      match found with
      | [] => find_listings browser rest
      | _ => Ok found
      end
  end.

(** The body of the [try] of lines 81-140 for one listing. *)
Definition extract_listing (listing : Element) : result (option Listing) :=
  all_text <- inner_text listing ;;
  title_elem <- query_selector listing "h2, h3, a[data-cmp=subheading]" ;;
  title <- match title_elem with
           | Some e => t <- inner_text e ;; Ok (strip t)
           | None =>
               match search false year_pattern all_text with
               | Some year_match => Ok (mt_whole year_match)
               | None => Ok (str "Vehicle")
               end
           end ;;
  price_elem <- query_selector listing
                  "[data-cmp=pricing], .price, .pricing-value, [data-price]" ;;
  price <- match price_elem with
           | Some e => price_text <- inner_text e ;;
                       Ok (extract_number price_text)
           | None => Ok 0%Z
           end ;;
  let mileage :=
    match search true mileage_pattern all_text with
    | Some mileage_match => extract_number (or_empty (group mileage_match 1))
    | None => 0%Z
    end in
  img_elem <- query_selector listing "img" ;;
  image <- match img_elem with
           | Some e =>
               src <- get_attribute e "src" ;;
               Ok (replace "/h100/" "/h300/"
                     (replace "/w100/" "/w400/" (or_empty src)))
           | None => Ok []
           end ;;
  link_elem <- query_selector listing "a[href*=/cars-for-sale/]" ;;
  url <- match link_elem with
         | Some e =>
             href <- get_attribute e "href" ;;
             let url := or_empty href in
             Ok (if startswith "http" url then url
                 else str "https://www.autotrader.com" ++ url)
         | None => Ok []
         end ;;
  let location :=
    match search false dealer_pattern all_text with
    | Some dealer_match =>
        str "AutoTrader (" ++ strip (or_empty (group dealer_match 1)) ++ str ")"
    | None => str "AutoTrader"
    end in
  if (0 <? price)%Z
  then Ok (Some {| name := title;
                   price := VInt price;
                   mileage := VInt mileage;
                   image := VStr image;
                   retailer := str "AutoTrader";
                   url := url;
                   location := location |})
  else Ok None.

Fixpoint extract_loop (listings : list Element) (results : list Listing)
    : list Listing :=
  match listings with
  | [] => results
  | listing :: rest =>
      extract_loop rest
        (match extract_listing listing with
         | Ok (Some d) => results ++ [d]
         | Ok None => results
         | Raise _ => results
         end)
  end.

Definition scrape_autotrader (query : text) (max_results : Z)
    (browser : Browser) : result (list Listing) :=
  _ <- launch browser ;;
  let results : list Listing := [] in
  let body : result (list Listing) :=
    _ <- new_page_goto browser ;;
    listings <- find_listings browser selectors ;;
    match listings with
    | [] => Ok []
    | _ => Ok (extract_loop (slice_to max_results listings) results)
    end in
  with_browser browser
    (match body with Ok r => r | Raise _ => results end).

End AutoTrader.

(** ['w' in s] for a literal [w]. *)
Definition lit_contains (w : string) (s : text) : bool := contains (str w) s.
Arguments lit_contains w%_string s.

(* ===================================================================== *)
(** ** scripts/scrape-truecar.py                                          *)
(* ===================================================================== *)

Module TrueCar.

(** [str(n)] for an integer. *)
Definition decimal (z : Z) : text :=
  str (DecimalString.NilZero.string_of_int (Z.to_int z)).

(** What the outside world answers: whether [aiohttp] and [camoufox] can
    be imported, the status and the decoded body of the GraphQL answer,
    the browser session. *)
Record World := {
  aiohttp_installed : bool;
  post_graphql : result (Z * result value);
  camoufox_installed : bool;
  browser : Browser
}.

(** The acquisition channels, recorded when [scrape_truecar] calls them. *)
Inductive channel := FastChannel | RenderedChannel.

Section Formatting.
(** [str(v)] of a list or a dictionary is left to this parameter. *)
Variable container_repr : value -> text.

(** [str(v)], as the f-strings apply it. *)
Definition format (v : value) : text :=
  match v with
  | VNone => str "None"
  | VBool true => str "True"
  | VBool false => str "False"
  | VInt z => decimal z
  | VStr s => s
  | VList _ | VDict _ => container_repr v
  end.

(** [d[key]]. *)
Definition subscript (d : value) (key : string) : result value :=
  match d with
  | VDict items =>
      match assoc (str key) items with
      | Some v => Ok v
      | None => Raise KeyError
      end
  | _ => Raise TypeError
  end.

(** [sep.join(parts)]: every part must be a string. *)
Fixpoint join_values (sep : text) (parts : list value) : result text :=
  match parts with
  | [] => Ok []
  | VStr s :: [] => Ok s
  | VStr s :: rest => r <- join_values sep rest ;; Ok (s ++ sep ++ r)
  | _ => Raise TypeError
  end.

Fixpoint join (sep : text) (parts : list text) : text :=
  match parts with
  | [] => []
  | [s] => s
  | s :: rest => s ++ sep ++ join sep rest
  end.

(** [v.lower()] and [v.upper()]: string methods. *)
Definition value_lower (v : value) : result text :=
  match v with VStr s => Ok (lower s) | _ => Raise AttributeError end.

Definition value_upper (v : value) : result text :=
  match v with VStr s => Ok (upper s) | _ => Raise AttributeError end.

(** ['errors' in response]. *)
Definition errors_in (response : value) : result bool :=
  match response with
  | VDict items =>
      Ok (match assoc (str "errors") items with Some _ => true | None => false end)
  | VList l =>
      Ok (existsb (fun v => match v with
                            | VStr s => text_eqb s (str "errors")
                            | _ => false
                            end) l)
  | VStr s => Ok (contains (str "errors") s)
  | _ => Raise TypeError
  end.

(** [for edge in edges]: the values a [for] loop goes through. *)
Definition iterate (v : value) : result (list value) :=
  match v with
  | VList l => Ok l
  | VDict items => Ok (map (fun kv => VStr (fst kv)) items)
  | VStr s => Ok (map (fun c => VStr [c]) s)
  | _ => Raise TypeError
  end.

(** Lines 104-120 for one edge. *)
Definition listing_of_edge (edge : value) : result Listing :=
  node <- dict_get edge "node" (VDict []) ;;
  vehicle <- dict_get node "vehicle" (VDict []) ;;
  year <- dict_get vehicle "year" (VStr []) ;;
  make <- dict_get vehicle "make" (VDict []) ;;
  make_name <- dict_get make "name" (VStr []) ;;
  model <- dict_get vehicle "model" (VDict []) ;;
  model_name <- dict_get model "name" (VStr []) ;;
  let title := format year ++ str " " ++ format make_name
               ++ str " " ++ format model_name in
  pricing <- dict_get node "pricing" (VDict []) ;;
  listPrice <- dict_get pricing "listPrice" (VInt 0) ;;
  let price := py_or listPrice (VInt 0) in
  m <- dict_get vehicle "mileage" (VInt 0) ;;
  let mileage := py_or m (VInt 0) in
  Ok {| name := strip title;
        price := price;
        mileage := mileage;
        image := VStr [];
        retailer := str "TrueCar";
        url := str "https://www.truecar.com";
        location := str "TrueCar" |}.

Fixpoint edges_loop (edges : list value) (results : list Listing)
    : result (list Listing) :=
  match edges with
  | [] => Ok results
  | edge :: rest =>
      d <- listing_of_edge edge ;;
      edges_loop rest (results ++ [d])
  end.

(** Lines 45-59: the search words, [None] when there are none. *)
Definition build_search_query (search_filters : value) : result (option text) :=
  let part (key : string) (convert : value -> value) (acc : list value)
      : result (list value) :=
    v <- dict_get search_filters key VNone ;;
    if truthy v
    then x <- subscript search_filters key ;; Ok (acc ++ [convert x])
    else Ok acc in
  q <- part "make"%string (fun v => v) [] ;;
  q <- part "model"%string (fun v => v) q ;;
  q <- part "year"%string (fun v => VStr (format v)) q ;;
  q <- part "series"%string (fun v => v) q ;;
  match q with
  | [] => Ok None
  | _ => s <- join_values (str " ") q ;; Ok (Some s)
  end.

(** [scrape_truecar_graphql]: the listings, or [None]. Building the
    search words is outside the [try]; everything from the request on is
    inside it and any exception there gives [None]. *)
Definition scrape_truecar_graphql (search_filters : value) (max_results : Z)
    (w : World) : result (option (list Listing)) :=
  if negb (aiohttp_installed w) then Ok None
  else
    search_query <- build_search_query search_filters ;;
    match search_query with
    | None | Some [] => Ok None
    | Some _ =>
        let attempt : result (option (list Listing)) :=
          resp <- post_graphql w ;;
          let '(status, body) := resp in
          if negb (status =? 200)%Z then Ok None
          else
            response <- body ;;
            has_errors <- errors_in response ;;
            if has_errors then Ok None
            else
              data <- dict_get response "data" (VDict []) ;;
              vehicleSearch <- dict_get data "vehicleSearch" (VDict []) ;;
              edges <- dict_get vehicleSearch "edges" (VList []) ;;
              if negb (truthy edges) then Ok None
              else
                es <- iterate edges ;;
                results <- edges_loop es [] ;;
                match results with
                | [] => Ok None
                | _ => Ok (Some results)
                end in
        match attempt with
        | Ok r => Ok r
        | Raise _ => Ok None
        end
    end.

(** [filters.get(key, '').lower() if filters.get(key) else '']. *)
Definition lowered (search_filters : value) (key : string) : result text :=
  v <- dict_get search_filters key VNone ;;
  if truthy v
  then x <- dict_get search_filters key (VStr []) ;; value_lower x
  else Ok [].

(** [trims[0]]. *)
Definition first_item (v : value) : result value :=
  match v with
  | VList (x :: _) => Ok x
  | VList [] => Raise IndexError
  | VStr (c :: _) => Ok (VStr [c])
  | VStr [] => Raise IndexError
  | VDict _ => Raise KeyError
  | _ => Raise TypeError
  end.

(** [len(v)]. *)
Definition py_len (v : value) : result nat :=
  match v with
  | VList l => Ok (length l)
  | VStr s => Ok (length s)
  | VDict d => Ok (length d)
  | _ => Raise TypeError
  end.

(** Lines 143-233: the address searched and, when the branch that
    assigns it runs, [search_query]. *)
Definition build_search_url (search_filters : value)
    : result (text * option text) :=
  make <- lowered search_filters "make" ;;
  model0 <- lowered search_filters "model" ;;
  let model := replace " " "-" model0 in
  series <- lowered search_filters "series" ;;
  let nonempty (t : text) := negb (length t =? 0) in
  let mmt := if nonempty make && nonempty model
             then make ++ str "_" ++ model else [] in
  let mmt := if nonempty series then mmt ++ str "-" ++ series else mmt in
  trims <- dict_get search_filters "trims" (VList []) ;;
  mmt <- (if truthy trims
          then n <- py_len trims ;;
               if 0 <? n
               then t0 <- first_item trims ;;
                    t <- value_lower t0 ;;
                    Ok (mmt ++ str "_" ++ replace " " "-" t)
               else Ok mmt
          else Ok mmt) ;;
  let params := if nonempty mmt then [str "mmt[]=" ++ mmt] else [] in
  let params := params ++ [str "searchRadius=5000"] in
  let params := params ++ [str "state=ca"] in
  let params := params ++ [str "city=south-san-francisco"] in
  year <- dict_get search_filters "year" VNone ;;
  let params := if truthy year
                then params ++ [str "yearHigh=" ++ format year;
                                str "yearLow=" ++ format year]
                else params in
  budget <- dict_get search_filters "budget" VNone ;;
  let params := if truthy budget
                then params ++ [str "price_high=" ++ format budget;
                                str "price_low=2000"]
                else params in
  bs <- dict_get search_filters "bodyStyle" (VStr []) ;;
  body_style <- value_lower bs ;;
  let params :=
    if nonempty body_style then
      if lit_contains "truck" body_style || lit_contains "pickup" body_style
      then params ++ [str "bodyStyles[]=truck"]
      else if lit_contains "suv" body_style
      then params ++ [str "bodyStyles[]=suv"]
      else if lit_contains "sedan" body_style
      then params ++ [str "bodyStyles[]=sedan"]
      else params
    else params in
  dt <- dict_get search_filters "drivetrain" (VStr []) ;;
  drivetrain <- value_upper dt ;;
  let params :=
    if nonempty drivetrain then
      if lit_contains "4WD" drivetrain || lit_contains "AWD" drivetrain
      then params ++ [str "driveTrain[]=4WD"]
      else if lit_contains "2WD" drivetrain || lit_contains "RWD" drivetrain
      then params ++ [str "driveTrain[]=2WD"]
      else params
    else params in
  ft <- dict_get search_filters "fuelType" (VStr []) ;;
  fuel_type <- value_lower ft ;;
  let params :=
    if nonempty fuel_type then
      if lit_contains "diesel" fuel_type
      then params ++ [str "fuelType[]=Diesel"]
      else if lit_contains "electric" fuel_type
      then params ++ [str "fuelType[]=Electric"]
      else if lit_contains "hybrid" fuel_type
      then params ++ [str "fuelType[]=Hybrid"]
      else params
    else params in
  match params with
  | _ :: _ =>
      Ok (str "https://www.truecar.com/used-cars-for-sale/listings/inventory/?"
          ++ join (str "&") params, None)
  | [] =>
      if nonempty make && nonempty model
      then Ok (str "https://www.truecar.com/used-cars-for-sale/listings/"
               ++ make ++ str "/" ++ model ++ str "/", None)
      else
        y <- dict_get search_filters "year" (VStr []) ;;
        mk <- dict_get search_filters "make" (VStr []) ;;
        md <- dict_get search_filters "model" (VStr []) ;;
        sr <- dict_get search_filters "series" (VStr []) ;;
        search_query <- join_values (str "+")
                          (filter truthy [VStr (format y); mk; md; sr]) ;;
        Ok (str "https://www.truecar.com/used-cars-for-sale/listings/?searchQuery="
            ++ search_query, Some search_query)
  end.

Definition year_pattern : regex := pattern "\b(19|20)\d{2}\b".
Definition mileage_pattern : regex := pattern "(\d+[,\d]*)\s*mi".

(** The body of the [try] of lines 248-285 for one listing card. *)
Definition extract_listing (search_query : option text) (listing : Element)
    : result (option Listing) :=
  all_text <- inner_text listing ;;
  title_elem <- query_selector listing "h3, h2" ;;
  title <- match title_elem with
           | Some e => t <- inner_text e ;; Ok (strip t)
           | None =>
               match search false year_pattern all_text with
               | Some year_match => Ok (mt_whole year_match)
               | None =>
                   match search_query with
                   | Some q => Ok q
                   | None => Raise NameError
                   end
               end
           end ;;
  price_elem <- query_selector listing "[data-test=vehicleCardPricingPrice]" ;;
  price <- match price_elem with
           | Some e => t <- inner_text e ;; Ok (extract_number t)
           | None => Ok 0%Z
           end ;;
  let mileage :=
    match search true mileage_pattern all_text with
    | Some mileage_match => extract_number (or_empty (group mileage_match 1))
    | None => 0%Z
    end in
  img_elem <- query_selector listing "img" ;;
  image <- match img_elem with
           | Some e =>
               src <- get_attribute e "src" ;;
               Ok (match src with Some t => VStr t | None => VNone end)
           | None => Ok (VStr [])
           end ;;
  link_elem <- query_selector listing "a[href*=/listing/]" ;;
  url <- match link_elem with
         | Some e =>
             href <- get_attribute e "href" ;;
             let url := or_empty href in
             Ok (if startswith "http" url then url
                 else str "https://www.truecar.com" ++ url)
         | None => Ok []
         end ;;
  if (0 <? price)%Z
  then Ok (Some {| name := title;
                   price := VInt price;
                   mileage := VInt mileage;
                   image := image;
                   retailer := str "TrueCar";
                   url := url;
                   location := str "TrueCar" |})
  else Ok None.

Fixpoint extract_loop (search_query : option text) (listings : list Element)
    (results : list Listing) : list Listing :=
  match listings with
  | [] => results
  | listing :: rest =>
      extract_loop search_query rest
        (match extract_listing search_query listing with
         | Ok (Some d) => results ++ [d]
         | Ok None => results
         | Raise _ => results
         end)
  end.

(** [scrape_truecar_camoufox]. *)
Definition scrape_truecar_camoufox (search_filters : value) (max_results : Z)
    (w : World) : result (list Listing) :=
  if negb (camoufox_installed w) then Ok []
  else
    let results : list Listing := [] in
    target <- build_search_url search_filters ;;
    let '(search_url, search_query) := target in
    _ <- launch (browser w) ;;
    let body : result (list Listing) :=
      _ <- new_page_goto (browser w) ;;
      listings <- query_selector_all (browser w)
                    "[data-test=vehicleListingCard]" ;;
      Ok (extract_loop search_query (slice_to max_results listings) results) in
    with_browser (browser w)
      (match body with Ok r => r | Raise _ => results end).

(** [scrape_truecar]: the channels called, in order, and the outcome.
    [search_filters] is [None] or the value read from the command line. *)
Definition scrape_truecar (search_filters : value) (max_results : Z)
    (w : World) : list channel * result (list Listing) :=
  if negb (truthy search_filters) then ([], Ok [])
  else
    match (make <- dict_get search_filters "make" VNone ;;
           if truthy make
           then model <- dict_get search_filters "model" VNone ;;
                Ok (truthy model)
           else Ok false) with
    | Raise e => ([], Raise e)
    | Ok true =>
        match scrape_truecar_graphql search_filters max_results w with
        | Raise e => ([FastChannel], Raise e)
        | Ok (Some (d :: ds)) => ([FastChannel], Ok (d :: ds))
        | Ok _ =>
            ([FastChannel; RenderedChannel],
             scrape_truecar_camoufox search_filters max_results w)
        end
    | Ok false =>
        ([RenderedChannel],
         scrape_truecar_camoufox search_filters max_results w)
    end.
End Formatting.

End TrueCar.

(* ===================================================================== *)
(** ** Declarative reading of a pattern                                   *)
(* ===================================================================== *)

(** [rmatch ic r st st']: the pattern [r] can match from the state [st]
    and leave the state [st']. It lists all the ways of matching, without
    the priorities of the backtracking matcher. *)
Inductive rmatch (ic : bool) : regex -> mstate -> mstate -> Prop :=
| RM_Eps st : rmatch ic Eps st st
| RM_Set s st c tl :
    ms_rest st = c :: tl -> cs_mem ic s c = true ->
    rmatch ic (Set_ s) st (MState (S (ms_pos st)) (Some c) tl (ms_caps st))
| RM_Cat r1 r2 st st1 st2 :
    rmatch ic r1 st st1 -> rmatch ic r2 st1 st2 ->
    rmatch ic (Cat r1 r2) st st2
| RM_AltL r1 r2 st st' : rmatch ic r1 st st' -> rmatch ic (Alt r1 r2) st st'
| RM_AltR r1 r2 st st' : rmatch ic r2 st st' -> rmatch ic (Alt r1 r2) st st'
| RM_Grp n r st st' :
    rmatch ic r st st' -> rmatch ic (Grp n r) st (close_group n st st')
| RM_WordB st : at_word_boundary st = true -> rmatch ic WordB st st
| RM_RepStop r hi g st : rmatch ic (Rep r 0 hi g) st st
| RM_RepMore r lo hi g st st1 st2 :
    hi_zero hi = false ->
    rmatch ic r st st1 ->
    rmatch ic (Rep r (pred lo) (hi_pred hi) g) st1 st2 ->
    rmatch ic (Rep r lo hi g) st st2.

(** A state of a match over the text [s]. *)
Definition valid (s : text) (st : mstate) : Prop :=
  ms_pos st <= length s /\ ms_rest st = skipn (ms_pos st) s.

(** A group recorded over the text [s]: its text is the slice of [s] at
    its start, and it lies between the positions [lo] and [hi]. *)
Definition cap_in (s : text) (lo hi : nat) (c : nat * (nat * text)) : Prop :=
  let '(_, (b, g)) := c in
  lo <= b /\ b + length g <= hi /\ g = firstn (length g) (skipn b s).

(** The numbers of the groups of a pattern. *)
Fixpoint group_numbers (r : regex) : list nat :=
  match r with
  | Cat a b | Alt a b => group_numbers a ++ group_numbers b
  | Rep a _ _ _ => group_numbers a
  | Grp n a => n :: group_numbers a
  | _ => []
  end.

(** The least number of characters a match of the pattern reads. *)
Fixpoint min_len (r : regex) : nat :=
  match r with
  | Set_ _ => 1
  | Cat a b => min_len a + min_len b
  | Alt a b => Nat.min (min_len a) (min_len b)
  | Rep a lo _ _ => lo * min_len a
  | Grp _ a => min_len a
  | _ => 0
  end.

(** The pattern reads decimal digits only and has no group inside. *)
Fixpoint digits_only (ic : bool) (r : regex) : bool :=
  match r with
  | Eps => true
  | Set_ CDigit => true
  | Set_ (CLit x) => negb ic && is_digit x
  | Cat a b | Alt a b => digits_only ic a && digits_only ic b
  | Rep a _ _ _ => digits_only ic a
  | _ => false
  end.

(** Every group of the pattern reads one or more digits and nothing else. *)
Fixpoint numeric_groups (ic : bool) (r : regex) : bool :=
  match r with
  | Cat a b | Alt a b => numeric_groups ic a && numeric_groups ic b
  | Rep a _ _ _ => numeric_groups ic a
  | Grp _ a => digits_only ic a && (1 <=? min_len a)
  | _ => true
  end.

(** Every match of the pattern closes the group [n]. *)
Fixpoint sets_group (n : nat) (r : regex) : bool :=
  match r with
  | Cat a b => sets_group n a || sets_group n b
  | Alt a b => sets_group n a && sets_group n b
  | Rep a lo _ _ => (1 <=? lo) && sets_group n a
  | Grp m a => (m =? n) || sets_group n a
  | _ => false
  end.

(** The pattern is a sequence in which the group 1 is closed before the
    piece that holds the group 2 begins. *)
Fixpoint ordered_groups (r : regex) : bool :=
  match r with
  | Cat a b =>
      if count_groups a =? 0 then ordered_groups b
      else match a with
           | Grp 1 _ =>
               negb (existsb (Nat.eqb 1) (group_numbers b)) && sets_group 2 b
           | _ => false
           end
  | _ => false
  end.

(** What is known of a group recorded by a match of [r] over [s] between
    the positions [lo] and [hi]. *)
Definition cap_of (s : text) (ic : bool) (r : regex) (lo hi : nat)
    (c : nat * (nat * text)) : Prop :=
  cap_in s lo hi c
  /\ In (fst c) (group_numbers r)
  /\ (numeric_groups ic r = true ->
      all_digits (snd (snd c)) = true /\ 1 <= length (snd (snd c))).

(** The shape the price patterns share: every group reads one or more
    digits, the group 1 is always closed, and with two groups the group 2
    is always closed too, after the group 1. *)
Definition price_pattern_shape (p : regex) : bool :=
  numeric_groups false p && sets_group 1 p
  && (if count_groups p =? 2 then sets_group 2 p && ordered_groups p
      else count_groups p =? 1).

(** Whether an alias of a table occurs in the lowered query. *)
Definition occurs (query_lower : text) (item : text * text) : bool :=
  contains (fst item) query_lower.

(** What the price loop does to the two prices, read off the text:
    nothing; or [maxPrice] is a number of the text; or [minPrice] and
    [maxPrice] are two numbers of the text, in the order written. *)
Inductive price_outcome (query_lower : text) (lo0 hi0 : option Z)
    : option Z -> option Z -> Prop :=
| PriceNone : price_outcome query_lower lo0 hi0 lo0 hi0
| PriceMax pre g post :
    query_lower = pre ++ g ++ post ->
    all_digits g = true -> 1 <= length g ->
    price_outcome query_lower lo0 hi0 lo0 (Some (digits_val g))
| PriceRange pre g1 mid g2 post :
    query_lower = pre ++ g1 ++ mid ++ g2 ++ post ->
    all_digits g1 = true -> 1 <= length g1 ->
    all_digits g2 = true -> 1 <= length g2 ->
    price_outcome query_lower lo0 hi0
      (Some (digits_val g1)) (Some (digits_val g2)).

(** ** Ranges of two numbers, as the price patterns read them *)

(** White space, an optional [$], and a number: one or more decimal
    digits. *)
Definition blank (w : text) : Prop := forallb is_space w = true.

Definition opt_dollar (d : text) : Prop := d = [] \/ d = str "$".

Definition numeral (g : text) : Prop := all_digits g = true /\ g <> [].

(** No digit ends [pre]; no digit starts [post]. *)
Definition no_digit_at_end (pre : text) : Prop :=
  forall p c, pre = p ++ [c] -> is_digit c = false.

Definition no_digit_at_start (post : text) : Prop :=
  forall c p, post = c :: p -> is_digit c = false.

(** The text [s] holds the range of the numbers [g1] and [g2]: either
    [g1 - g2] or [between g1 and g2], each number with an optional [$]
    before it, with optional white space around the [-] or the [and] (and
    after [between]).  Both are whole numbers of [s]: no digit stands
    just before [g1] nor just after [g2]. *)
Inductive written_range (s g1 g2 : text) : Prop :=
| DashRange pre d1 w1 w2 d2 post :
    s = pre ++ d1 ++ g1 ++ w1 ++ str "-" ++ w2 ++ d2 ++ g2 ++ post ->
    no_digit_at_end (pre ++ d1) -> opt_dollar d1 -> numeral g1 ->
    blank w1 -> blank w2 ->
    opt_dollar d2 -> numeral g2 -> no_digit_at_start post ->
    written_range s g1 g2
| BetweenRange pre w0 d1 w1 w2 d2 post :
    s = pre ++ str "between" ++ w0 ++ d1 ++ g1 ++ w1 ++ str "and"
          ++ w2 ++ d2 ++ g2 ++ post ->
    blank w0 -> opt_dollar d1 -> numeral g1 ->
    blank w1 -> blank w2 ->
    opt_dollar d2 -> numeral g2 -> no_digit_at_start post ->
    written_range s g1 g2.

(** Every repetition of the pattern repeats a single character class. *)
Fixpoint simple_reps (r : regex) : bool :=
  match r with
  | Cat a b | Alt a b => simple_reps a && simple_reps b
  | Rep (Set_ _) _ _ _ => true
  | Rep _ _ _ _ => false
  | Grp _ a => simple_reps a
  | _ => true
  end.

(** The character before the position reached after reading [w]. *)
Fixpoint last_char (prev : option ascii) (w : text) : option ascii :=
  match w with
  | [] => prev
  | c :: w' => last_char (Some c) w'
  end.

(** The two price patterns with two groups, cut into their parts: a
    word read letter by letter, the second number with what may stand
    before it, and the first number followed by the word between the
    two. *)
Fixpoint lits (w : text) (r : regex) : regex :=
  match w with
  | [] => r
  | c :: w' => Cat (Set_ (CLit c)) (lits w' r)
  end.

Definition blanks : regex := Rep (Set_ CSpace) 0 None true.

Definition dollar_sign : regex := Rep (Set_ (CLit "$")) 0 (Some 1) true.

Definition digits_group (n : nat) : regex :=
  Grp n (Rep (Set_ CDigit) 1 None true).

Definition range_end : regex := Cat blanks (Cat dollar_sign (digits_group 2)).

Definition range_middle (word : text) : regex :=
  Cat (digits_group 1) (Cat blanks (lits word range_end)).

(** The vehicle id the deduplication derives from a listing link: the id
    of its address, when the address can be read, is not empty and holds
    one. *)
Definition link_vehicle_id (listing : AutoTraderCdp.LinkElement) : option text :=
  match AutoTraderCdp.get_attribute_href listing with
  | Ok (Some (c :: u)) => AutoTraderCdp.vehicle_id_of_url (c :: u)
  | _ => None
  end.

(** [l1] is [l2] with some elements left out, the order kept. *)
Inductive subseq {A : Type} : list A -> list A -> Prop :=
| subseq_nil : subseq [] []
| subseq_skip x l1 l2 : subseq l1 l2 -> subseq l1 (x :: l2)
| subseq_keep x l1 l2 : subseq l1 l2 -> subseq (x :: l1) (x :: l2).

(** The listings that carry a vehicle id not in [seen] nor carried by an
    earlier listing. *)
Fixpoint first_seen (seen : list text)
    (listings : list AutoTraderCdp.LinkElement)
    : list AutoTraderCdp.LinkElement :=
  match listings with
  | [] => []
  | listing :: rest =>
      match link_vehicle_id listing with
      | Some v =>
          if AutoTraderCdp.mem v seen then first_seen seen rest
          else listing :: first_seen (v :: seen) rest
      | None => first_seen seen rest
      end
  end.

(** The numeric-token price heuristic, said with lists.  A value
    qualifies when it is not in 1900..2100 and is in 5000..500000. *)
Definition qualifying (v : Z) : bool :=
  negb ((1900 <=? v)%Z && (v <=? 2100)%Z)
  && ((5000 <=? v)%Z && (v <=? 500000)%Z).

(** The values of the matches of a token pattern, in document order. *)
Definition token_values (r : regex) (all_text : text) : list Z :=
  map (fun mt => AutoTraderCdp.number_group mt 1) (finditer false r all_text).

(** Two tiers: the last qualifying token with a comma ([d,ddd] or
    [dd,ddd]); when there is none, the last qualifying run of five or six
    digits; 0 when there is none either. *)
Definition two_tier_price (all_text : text) : Z :=
  match filter qualifying
               (token_values AutoTraderCdp.grouped_pattern all_text) with
  | [] => last (filter qualifying
                       (token_values AutoTraderCdp.plain_pattern all_text)) 0%Z
  | l => last l 0%Z
  end.

(** The heuristic as the specification words it: among all comma-grouped
    tokens of four to six digits, the last qualifying one. *)
Definition price_heuristic_as_specified (all_text : text) : Z :=
  last (filter qualifying
               (token_values (pattern "(\d{1,3},\d{3})") all_text)) 0%Z.

(** A listing as the specification wants it: an integer price above
    zero and an integer mileage not below zero. *)
Definition well_priced (d : Listing) : Prop :=
  exists p m, price d = VInt p /\ mileage d = VInt m
              /\ (0 < p)%Z /\ (0 <= m)%Z.

(* ===================================================================== *)
(** ** scrape-autotrader-cdp.py: the address searched and the scrolling   *)
(* ===================================================================== *)

Module CdpNavigation.

(** [parts.index(x)]: the position of the first [x], when there is one
    ([x in parts] holds exactly then). *)
Fixpoint index (x : text) (parts : list text) : option nat :=
  match parts with
  | [] => None
  | p :: rest =>
      if text_eqb p x then Some 0
      else match index x rest with
           | Some i => Some (S i)
           | None => None
           end
  end.

Section SearchUrl.
(** [str.title] is left to this parameter. *)
Variable title : text -> text.

(** Lines 65-79: the words searched. *)
Definition search_terms (query : text) : text :=
  if startswith "http" query then
    let parts := split "/"%char query in
    match index (str "cars-for-sale") parts with
    | Some idx =>
        if idx + 2 <? length parts then
          let make :=
            title (replace_char "-"%char (str " ") (nth (idx + 1) parts [])) in
          let model :=
            title (replace_char "-"%char (str " ")
                     (hd [] (split "-"%char (nth (idx + 2) parts [])))) in
          strip (make ++ str " " ++ model)
        else str "GMC Sierra"
    | None => str "GMC Sierra"
    end
  else query.

(** Lines 81-83. *)
Definition search_url (query : text) : text :=
  let search_terms_slug :=
    lower (replace_char " "%char (str "-") (search_terms query)) in
  str "https://www.autotrader.com/cars-for-sale/" ++ search_terms_slug
  ++ str "/san-mateo-ca?searchRadius=500".
End SearchUrl.

(** What the page answers while it is scrolled: the number of listing
    links [query_selector_all] finds after a given number of scrolls, and
    whether the scroll of a given attempt, by a given height, runs
    through. *)
Record ScrollPage := {
  count_listing_links : nat -> result nat;
  scroll_by : nat -> Z -> result unit
}.

Definition max_scroll_attempts : nat := 15.

(** The [while] loop of lines 103-122; [remaining] is
    [max_scroll_attempts - scroll_attempts]. It returns the heights
    scrolled by, in order. *)
Fixpoint scroll_loop (remaining : nat) (max_results : Z) (page : ScrollPage)
    (scroll_attempts last_listing_count : nat) (scrolled : list Z)
    : result (list Z) :=
  match remaining with
  | 0 => Ok scrolled
  | S remaining' =>
      current_count <- count_listing_links page scroll_attempts ;;
      if (max_results <=? Z.of_nat current_count)%Z
         || (current_count =? last_listing_count)
      then Ok scrolled                                      (* break *)
      else
        let scroll_height := (Z.of_nat scroll_attempts * 800 + 1000)%Z in
        _ <- scroll_by page scroll_attempts scroll_height ;;
        scroll_loop remaining' max_results page (S scroll_attempts)
                    current_count (scrolled ++ [scroll_height])
  end.

(** Lines 98-122. *)
Definition scroll_to_load (max_results : Z) (page : ScrollPage)
    : result (list Z) :=
  scroll_loop max_scroll_attempts max_results page 0 0 [].

End CdpNavigation.

(* ===================================================================== *)
(** ** The command lines of the scrapers                                  *)
(* ===================================================================== *)

(** The digits of an integer literal, its underscores removed: an
    underscore stands between two digits. [after_digit] tells whether the
    character before was a digit. *)
Fixpoint literal_digits (after_digit : bool) (s : text) : option text :=
  match s with
  | [] => if after_digit then Some [] else None
  | c :: s' =>
      if is_digit c
      then match literal_digits true s' with
           | Some d => Some (c :: d)
           | None => None
           end
      else if ascii_dec c "_"%char
      then if after_digit then literal_digits false s' else None
      else None
  end.

(** The white space [int] skips around a literal: the ASCII white space
    of C ([\t\n\v\f\r] and the space) and, of the other code points, those
    [str.isspace] holds for (U+0085 and U+00A0). The separators
    U+001C..U+001F, which [str.strip] removes, are not skipped. *)
Definition is_int_space (c : ascii) : bool :=
  in_range 9 13 c || (code c =? 32) || (code c =? 133) || (code c =? 160).

Fixpoint int_lstrip (s : text) : text :=
  match s with
  | c :: s' => if is_int_space c then int_lstrip s' else s
  | [] => []
  end.

Definition int_strip (s : text) : text :=
  rev (int_lstrip (rev (int_lstrip s))).

(** [int(s)] for any string [s]: white space around the literal, an
    optional sign, decimal digits; the bound on the number of digits is
    that of [py_int]. *)
Definition py_int_str (max_str_digits : nat) (s : text) : result Z :=
  let s := int_strip s in
  let '(negative, body) :=
    match s with
    | "-"%char :: r => (true, r)
    | "+"%char :: r => (false, r)
    | _ => (false, s)
    end in
  match literal_digits false body with
  | Some digits =>
      if negb (max_str_digits =? 0) && (max_str_digits <? length digits)
      then Raise ValueError
      else Ok (if negative then (- digits_val digits)%Z else digits_val digits)
  | None => Raise ValueError
  end.

(** What a script writes on its standard output: through [json.dumps],
    [{"error": message}] or the list of its listings; or, at the top of a
    script whose browser library is missing, the line
    "Installing <package>..." together with what pip then writes on the
    same output. *)
Inductive printed :=
| PrintError (message : text)
| PrintListings (results : list Listing)
| PrintInstalling (package pip_output : text).

(** The import of the browser library at the top of a script that
    installs it when it is missing (lines 15-21 of scrape-autotrader.py):
    the import succeeds; or it raises [ImportError], the script prints
    "Installing ..." and runs pip, after which the second import
    succeeds; or pip ends with another status than 0 or the second import
    raises, which nothing catches; or the first import raises another
    exception, which nothing catches. *)
Inductive library_import :=
| Imported
| Installed (pip_output : text)
| InstallFailed (pip_output : text)
| ImportRaised.

(** How a run of a script ends: what it printed, in order, and its exit
    status (1 after [sys.exit(1)] or an exception nothing catches). *)
Record run := { stdout : list printed; returncode : Z }.

(** [int(sys.argv[2]) if len(sys.argv) > 2 else 10]; [rest] is
    [sys.argv[2:]]. *)
Definition max_results_arg (max_str_digits : nat) (rest : list text)
    : result Z :=
  match rest with
  | a :: _ => py_int_str max_str_digits a
  | [] => Ok 10%Z
  end.

Module AutoTraderCdpMain.

(** [main] of scrape-autotrader-cdp.py; [argv] is [sys.argv]. An
    argument [max_results] that is no integer ends the run with a
    [ValueError] nothing catches. *)
Definition main (max_str_digits : nat) (argv : list text)
    (page : AutoTraderCdp.Page) : run :=
  match argv with
  | [] | [_] =>
      {| stdout :=
           [PrintError (str "Usage: scrape-autotrader-cdp.py <URL or search query> [max_results] [cdp_url]");
            PrintError (str "Start Chrome with: chrome --remote-debugging-port=9222")];
         returncode := 1 |}
  | _ :: query :: rest =>
      match max_results_arg max_str_digits rest with
      | Raise _ => {| stdout := []; returncode := 1 |}
      | Ok max_results =>
          match AutoTraderCdp.scrape_autotrader_cdp max_str_digits query
                  max_results page with
          | None =>
              {| stdout :=
                   [PrintError (str "Could not connect to Chrome CDP. Make sure Chrome is running with: chrome --remote-debugging-port=9222")];
                 returncode := 0 |}
          | Some [] =>
              {| stdout :=
                   [PrintError (str "No AutoTrader listings found for '"
                                ++ query ++ str "'")];
                 returncode := 0 |}
          | Some result =>
              {| stdout := [PrintListings result]; returncode := 0 |}
          end
      end
  end.

End AutoTraderCdpMain.

Module KbbMain.
Section Main.
(** [str(e)] for a caught exception is left to this parameter. *)
Variable exception_text : exn -> text.

(** [main] of scrape-kbb.py. *)
Definition main (max_str_digits : nat) (argv : list text)
    (browser : Browser) : run :=
  match argv with
  | [] | [_] =>
      {| stdout := [PrintError (str "Usage: scrape-kbb.py <search query>")];
         returncode := 1 |}
  | _ :: query :: rest =>
      match max_results_arg max_str_digits rest with
      | Raise _ => {| stdout := []; returncode := 1 |}
      | Ok max_results =>
          match Kbb.scrape_kbb max_str_digits query max_results browser with
          | Ok [] =>
              {| stdout :=
                   [PrintError (str "No KBB listings found for '"
                                ++ query ++ str "'")];
                 returncode := 0 |}
          | Ok result =>
              {| stdout := [PrintListings result]; returncode := 0 |}
          | Raise e =>
              {| stdout := [PrintError (exception_text e)];
                 returncode := 1 |}
          end
      end
  end.

(** A run of scrape-kbb.py: the statements at the top of the script
    (lines 15-19: the imports of camoufox and dotenv, [load_dotenv]) print
    nothing, and an exception of theirs is caught by nothing; then
    [main]. *)
Definition script (top_level_ok : bool) (max_str_digits : nat)
    (argv : list text) (browser : Browser) : run :=
  if top_level_ok then main max_str_digits argv browser
  else {| stdout := []; returncode := 1 |}.
End Main.
End KbbMain.

Module AutoTraderMain.
Section Main.
Variable exception_text : exn -> text.

(** [main] of scrape-autotrader.py. *)
Definition main (max_str_digits : nat) (argv : list text)
    (browser : Browser) : run :=
  match argv with
  | [] | [_] =>
      {| stdout :=
           [PrintError (str "Usage: scrape-autotrader.py <URL or search query> [max_results]")];
         returncode := 1 |}
  | _ :: query :: rest =>
      match max_results_arg max_str_digits rest with
      | Raise _ => {| stdout := []; returncode := 1 |}
      | Ok max_results =>
          match AutoTrader.scrape_autotrader query max_results browser with
          | Ok [] =>
              {| stdout :=
                   [PrintError (str "No AutoTrader listings found for '"
                                ++ query ++ str "'")];
                 returncode := 0 |}
          | Ok result =>
              {| stdout := [PrintListings result]; returncode := 0 |}
          | Raise e =>
              {| stdout := [PrintError (exception_text e)];
                 returncode := 1 |}
          end
      end
  end.

(** A run of scrape-autotrader.py: the import of camoufox (lines 15-21),
    then [main]. *)
Definition script (camoufox : library_import) (max_str_digits : nat)
    (argv : list text) (browser : Browser) : run :=
  match camoufox with
  | Imported => main max_str_digits argv browser
  | Installed pip_output =>
      let r := main max_str_digits argv browser in
      {| stdout := PrintInstalling (str "camoufox") pip_output :: stdout r;
         returncode := returncode r |}
  | InstallFailed pip_output =>
      {| stdout := [PrintInstalling (str "camoufox") pip_output];
         returncode := 1 |}
  | ImportRaised => {| stdout := []; returncode := 1 |}
  end.
End Main.
End AutoTraderMain.

Module TrueCarMain.
Section Main.
(** [str(e)], [json.loads] ([None] for a text that is not JSON) and
    [str] of a list or a dictionary are left to these parameters. *)
Variable exception_text : exn -> text.
Variable json_loads : text -> option value.
Variable container_repr : value -> text.

(** [main] of scrape-truecar.py. *)
Definition main (max_str_digits : nat) (argv : list text)
    (w : TrueCar.World) : run :=
  match argv with
  | [] | [_] =>
      {| stdout :=
           [PrintError (str "Usage: scrape-truecar.py <JSON filters> [max_results]")];
         returncode := 1 |}
  | _ :: arg :: rest =>
      match max_results_arg max_str_digits rest with
      | Raise _ => {| stdout := []; returncode := 1 |}
      | Ok max_results =>
          match json_loads arg with
          | None =>
              {| stdout := [PrintError (str "Invalid JSON filters")];
                 returncode := 1 |}
          | Some search_filters =>
              match snd (TrueCar.scrape_truecar container_repr search_filters
                           max_results w) with
              | Ok [] =>
                  {| stdout := [PrintError (str "No TrueCar listings found")];
                     returncode := 0 |}
              | Ok result =>
                  {| stdout := [PrintListings result]; returncode := 0 |}
              | Raise e =>
                  {| stdout := [PrintError (exception_text e)];
                     returncode := 1 |}
              end
          end
      end
  end.
End Main.
End TrueCarMain.

(* ===================================================================== *)
(** ** scripts/test-scrapers.py                                           *)
(* ===================================================================== *)

Module TestScrapers.

(** [TEST_CASES]: name, script, query, max_results. *)
Definition TEST_CASES : list (text * text * text * Z) :=
  [ (str "AutoTrader (CDP) - GMC Sierra Denali", str "scrape-autotrader.py",
     str "GMC Sierra Denali Ultimate", 5%Z);
    (str "CarMax - GMC Sierra", str "scrape-carmax.py",
     str "https://www.carmax.com/cars/gmc/sierra", 3%Z);
    (str "KBB - GMC Sierra", str "scrape-kbb.py",
     str "https://www.kbb.com/cars-for-sale/used/gmc/sierra", 3%Z);
    (str "TrueCar - GMC Sierra", str "scrape-truecar.py",
     str "https://www.truecar.com/used-cars-for-sale/listings/inventory/?city=south-san-francisco&mmt[]=gmc_sierra&searchRadius=5000&state=ca", 3%Z) ].

(** The command [subprocess.run] is given: the interpreter, then what the
    script sees as [sys.argv]. *)
Definition argv (script_path query : text) (max_results : Z) : list text :=
  [script_path; query; TrueCar.decimal max_results].

(** What [subprocess.run] does: the script ends with an exit status and a
    standard output, of which [stdout_json] is what [json.loads] makes
    ([None]: not JSON); or the time runs out; or another exception is
    raised. *)
Inductive process :=
| Completed (returncode : Z) (stdout_json : option value)
| TimeoutExpired
| Failed (e : exn).

(** The dictionary [test_scraper] returns, by its ["status"]: [Pass] and
    [Empty] carry ["results"] and ["sample"], [Error] carries ["error"].
    The name and the texts reported with the other statuses are left
    out. *)
Inductive report :=
| PASS (results : nat) (sample : value)
| EMPTY
| SKIP
| ERROR (error : value)
| INVALID
| FAIL
| TIMEOUT
| EXCEPTION.

(** [test_scraper]; [None] when the function falls off its end and
    returns nothing. *)
Definition test_scraper (script_exists : bool) (p : process)
    : option report :=
  if negb script_exists then Some SKIP
  else
    match p with
    | Completed returncode stdout_json =>
        if (returncode =? 0)%Z then
          match stdout_json with
          | None => Some INVALID
          | Some (VList data) =>
              Some (match data with
                    | sample :: _ => PASS (length data) sample
                    | [] => EMPTY
                    end)
          | Some (VDict items) =>
              match assoc (str "error") items with
              | Some e => Some (ERROR e)
              | None => None
              end
          | Some (VStr s) =>
              (* a string that holds "error" has no [get] *)
              if contains (str "error") s then Some EXCEPTION else None
          | Some _ => Some EXCEPTION     (* ["error" in data] raises *)
          end
        else Some FAIL
    | TimeoutExpired => Some TIMEOUT
    | Failed _ => Some EXCEPTION
    end.

(** The standard output of a run as [json.loads] reads it back: the one
    object printed through [json.dumps], when the output is exactly that.
    An output that is empty, that holds two objects or that holds the line
    "Installing ..." is not JSON. *)
Definition listing_json (d : Listing) : value :=
  VDict [ (str "name", VStr (name d));
          (str "price", price d);
          (str "mileage", mileage d);
          (str "image", image d);
          (str "retailer", VStr (retailer d));
          (str "url", VStr (url d));
          (str "location", VStr (location d)) ].

Definition printed_json (p : printed) : option value :=
  match p with
  | PrintError message => Some (VDict [(str "error", VStr message)])
  | PrintListings results => Some (VList (map listing_json results))
  | PrintInstalling _ _ => None
  end.

Definition stdout_json (r : run) : option value :=
  match stdout r with
  | [p] => printed_json p
  | _ => None
  end.

(** What [subprocess.run] returns for a script that ended by itself
    within the time allowed, its run being [r]. *)
Definition process_of (r : run) : process :=
  Completed (returncode r) (stdout_json r).

(** How the call [subprocess.run(..., timeout=120)] goes: the script ends
    within the 120 seconds, its run being [r]; or it does not; or the
    call raises another exception (no interpreter to launch, an output
    that cannot be decoded). *)
Inductive execution :=
| Ends (r : run)
| TimesOut
| Raises (e : exn).

Definition subprocess_run (x : execution) : process :=
  match x with
  | Ends r => process_of r
  | TimesOut => TimeoutExpired
  | Raises e => Failed e
  end.

End TestScrapers.

(* ===================================================================== *)
(** ** What the listings of each scraper look like                        *)
(* ===================================================================== *)

(** A listing of scrape-autotrader-cdp.py. *)
Definition cdp_listing_shape (d : Listing) : Prop :=
  well_priced d
  /\ retailer d = str "AutoTrader"
  /\ startswith "http" (url d) = true
  /\ ~ In "#"%char (url d)
  /\ 10 <= length (name d)
  /\ startswith "AutoTrader" (location d) = true.

(** A listing of scrape-kbb.py. *)
Definition kbb_listing_shape (d : Listing) : Prop :=
  well_priced d
  /\ retailer d = str "KBB"
  /\ startswith "http" (url d) = true.

(** A listing of scrape-autotrader.py. *)
Definition autotrader_listing_shape (d : Listing) : Prop :=
  well_priced d
  /\ retailer d = str "AutoTrader"
  /\ (url d = [] \/ startswith "http" (url d) = true)
  /\ startswith "AutoTrader" (location d) = true.

(** A listing of the rendered channel of scrape-truecar.py. *)
Definition truecar_rendered_listing_shape (d : Listing) : Prop :=
  well_priced d
  /\ retailer d = str "TrueCar"
  /\ location d = str "TrueCar"
  /\ (url d = [] \/ startswith "http" (url d) = true).

(** A listing of the GraphQL channel of scrape-truecar.py: the price and
    the mileage are what the answer holds, or 0 when that is [None] or
    another false value. *)
Definition truecar_graphql_listing_shape (d : Listing) : Prop :=
  retailer d = str "TrueCar"
  /\ url d = str "https://www.truecar.com"
  /\ location d = str "TrueCar"
  /\ image d = VStr []
  /\ (truthy (price d) = true \/ price d = VInt 0)
  /\ (truthy (mileage d) = true \/ mileage d = VInt 0).



(* ===================================================================== *)
(** ** Sample observations used by the examples                           *)
(* ===================================================================== *)

(** A page that shows both "No results found" and "Access to this page has
    been denied". *)
Definition denied_page : AutoTraderCdp.Page :=
  {| AutoTraderCdp.connect_over_cdp := true;
     AutoTraderCdp.navigate_and_scroll := Ok tt;
     AutoTraderCdp.inner_text_body :=
       Ok (str "No results found. Access to this page has been denied.");
     AutoTraderCdp.query_selector_all_links := Ok [] |}.

(** A filter catalog with a few vocabularies. *)
Definition sample_catalog : ParseVehicleQuery.Catalog :=
  {| ParseVehicleQuery.global_filters :=
       Some {| ParseVehicleQuery.exterior_colors :=
                 Some [str "White"; str "Black"];
               ParseVehicleQuery.body_types := Some [str "Pickup Trucks"];
               ParseVehicleQuery.drivetrains := None;
               ParseVehicleQuery.fuel_types := Some [str "Diesel"];
               ParseVehicleQuery.cat_features :=
                 Some [str "Heated Seats"; str "Sunroof"] |} |}.

(** A query whose only number has one digit more than the default bound
    on integer conversions. *)
Definition long_number_query : text :=
  str "under " ++ repeat "9"%char (S default_max_str_digits).

(** Decidable absence of duplicates in a list of texts. *)
Fixpoint nodupb (l : list text) : bool :=
  match l with
  | [] => true
  | x :: rest => negb (existsb (text_eqb x) rest) && nodupb rest
  end.

(** A listing link with the given address and link text, and the given
    text for its first ancestor. *)
Definition sample_link (href title card : string) : AutoTraderCdp.LinkElement :=
  {| AutoTraderCdp.get_attribute_href := Ok (Some (str href));
     AutoTraderCdp.link_inner_text := Ok (str title);
     AutoTraderCdp.ancestor_inner_text :=
       fun level => if level =? 1 then Ok (Some (str card)) else Ok None;
     AutoTraderCdp.closest_card_text := Ok [];
     AutoTraderCdp.closest_image_src := Ok [] |}.

Definition sierra_card : string :=
  "Used 2022 GMC Sierra 3500 Denali Ultimate Crew Cab 4WD, Summit White exterior, Jet Black interior. $103,615 60,000 mi. Dublin Buick GMC".

Definition link_a : AutoTraderCdp.LinkElement :=
  sample_link "/cars-for-sale/vehicle/745102938?zip=94401"
              "Used 2022 GMC Sierra 3500 Denali Ultimate" sierra_card.

(** The same vehicle, linked a second time with a fragment. *)
Definition link_a_again : AutoTraderCdp.LinkElement :=
  sample_link "/cars-for-sale/vehicle/745102938#photos"
              "View photos of this GMC Sierra" sierra_card.

Definition link_b : AutoTraderCdp.LinkElement :=
  sample_link "https://www.autotrader.com/cars-for-sale/vehicle/733000111"
              "Used 2021 GMC Sierra 1500 AT4" sierra_card.

(** A link whose address holds no vehicle id. *)
Definition link_without_id : AutoTraderCdp.LinkElement :=
  sample_link "/cars-for-sale/vehicle/certified-gmc-sierra"
              "Certified 2023 GMC Sierra 1500 Denali" sierra_card.

(** An element without attributes or children, with the given text. *)
Definition text_element (t : string) : Element :=
  mkElement (Ok (str t)) (fun _ => Ok None) (fun _ => Ok None).

(** A TrueCar listing card: a heading, a price element, no image, no
    link. *)
Definition sample_card (heading price_text body : string) : Element :=
  mkElement (Ok (str body)) (fun _ => Ok None)
    (fun selector =>
       if String.eqb selector "h3, h2" then Ok (Some (text_element heading))
       else if String.eqb selector "[data-test=vehicleCardPricingPrice]"
       then Ok (Some (text_element price_text))
       else Ok None).

(** A browser that shows two cards, the second without a readable
    price. *)
Definition sample_browser : Browser :=
  {| launch := Ok tt;
     new_page_goto := Ok tt;
     query_selector_all := fun _ =>
       Ok [sample_card "2021 GMC Sierra 1500" "$45,000" "2021 GMC Sierra 1500 $45,000 31,204 mi";
           sample_card "2020 GMC Sierra 1500" "Call for price" "2020 GMC Sierra 1500 Call for price"];
     close := Ok tt |}.

Definition sample_filters : value :=
  VDict [(str "make", VStr (str "GMC")); (str "model", VStr (str "Sierra"))].

(** The GraphQL answer carries an ['errors'] key. *)
Definition world_with_errors : TrueCar.World :=
  {| TrueCar.aiohttp_installed := true;
     TrueCar.post_graphql :=
       Ok (200%Z,
           Ok (VDict [(str "errors",
                       VList [VDict [(str "message",
                                      VStr (str "Cannot query field"))]])]));
     TrueCar.camoufox_installed := true;
     TrueCar.browser := sample_browser |}.

(** The GraphQL answer carries one vehicle whose [listPrice] is [null]. *)
Definition world_with_null_price : TrueCar.World :=
  {| TrueCar.aiohttp_installed := true;
     TrueCar.post_graphql :=
       Ok (200%Z,
           Ok (VDict
             [(str "data",
               VDict
                 [(str "vehicleSearch",
                   VDict
                     [(str "edges",
                       VList
                         [VDict
                            [(str "node",
                              VDict
                                [(str "id", VStr (str "v1"));
                                 (str "vehicle",
                                  VDict
                                    [(str "make", VDict [(str "name", VStr (str "GMC"))]);
                                     (str "model", VDict [(str "name", VStr (str "Sierra"))]);
                                     (str "year", VInt 2021);
                                     (str "mileage", VInt 31204)]);
                                 (str "pricing",
                                  VDict [(str "listPrice", VNone)])])]])])])]));
     TrueCar.camoufox_installed := true;
     TrueCar.browser := sample_browser |}.

(** [str] of a list or a dictionary, for the examples. *)
Definition no_container_repr (v : value) : text := str "?".

(** A results page with four listing links, two of them to the same
    vehicle and one without a vehicle id. *)
Definition sample_page : AutoTraderCdp.Page :=
  {| AutoTraderCdp.connect_over_cdp := true;
     AutoTraderCdp.navigate_and_scroll := Ok tt;
     AutoTraderCdp.inner_text_body := Ok (str "Used GMC Sierra for sale");
     AutoTraderCdp.query_selector_all_links :=
       Ok [link_a; link_without_id; link_a_again; link_b] |}.

(** A page that shows 4 more listing links after every scroll. *)
Definition sample_scroll_page : CdpNavigation.ScrollPage :=
  {| CdpNavigation.count_listing_links := fun scrolls => Ok (4 * S scrolls);
     CdpNavigation.scroll_by := fun _ _ => Ok tt |}.

(** The lines of a card, one under the other. *)
Fixpoint lines_text (lines : list string) : text :=
  match lines with
  | [] => []
  | [l] => str l
  | l :: rest => str l ++ newline :: lines_text rest
  end.

(** A listing link of KBB with the given address and lines. *)
Definition kbb_link (href : string) (lines : list string) : Element :=
  mkElement (Ok (lines_text lines))
    (fun name => if String.eqb name "href" then Ok (Some (str href))
                 else Ok None)
    (fun _ => Ok None).

Definition kbb_new_sierra : Element :=
  kbb_link "/cars-for-sale/vehicledetails.xhtml/?listingId=7001"
    ["New 2026"; "GMC Sierra 3500 Denali Ultimate"; "$103,615"; "12 mi";
     "Dublin Buick GMC"]%string.

Definition kbb_certified_sierra : Element :=
  kbb_link "/cars-for-sale/vehicledetails.xhtml/?listingId=7002"
    ["Certified 2022"; "GMC Sierra 1500 AT4"; "$48,900"; "31K mi";
     "Dublin Buick GMC"]%string.

(** A card whose price is written without a comma and whose mileage is
    written with one. *)
Definition kbb_used_tacoma : Element :=
  kbb_link "/cars-for-sale/vehicledetails.xhtml/?listingId=7003"
    ["Used 2021 Toyota Tacoma TRD"; "Price 45000"; "12,500 mi";
     "Toyota of Dublin"]%string.

Definition kbb_browser : Browser :=
  {| launch := Ok tt;
     new_page_goto := Ok tt;
     query_selector_all := fun _ => Ok [kbb_new_sierra; kbb_certified_sierra];
     close := Ok tt |}.

(** A card of AutoTrader: a heading, a price element and a link. *)
Definition autotrader_card (heading price_text href body : string) : Element :=
  mkElement (Ok (str body)) (fun _ => Ok None)
    (fun selector =>
       if String.eqb selector "h2, h3, a[data-cmp=subheading]"
       then Ok (Some (text_element heading))
       else if String.eqb selector
                 "[data-cmp=pricing], .price, .pricing-value, [data-price]"
       then Ok (Some (text_element price_text))
       else if String.eqb selector "a[href*=/cars-for-sale/]"
       then Ok (Some (mkElement (Ok [])
                        (fun name => if String.eqb name "href"
                                     then Ok (Some (str href)) else Ok None)
                        (fun _ => Ok None)))
       else Ok None).

Definition autotrader_browser : Browser :=
  {| launch := Ok tt;
     new_page_goto := Ok tt;
     query_selector_all := fun selector =>
       if String.eqb selector "[data-type=listing]"
       then Ok [autotrader_card "Used 2021 GMC Sierra 1500" "$45,000"
                  "/cars-for-sale/vehicle/733000111"
                  "Used 2021 GMC Sierra 1500 $45,000 31,204 mi";
                autotrader_card "Used 2020 GMC Sierra 1500" "Call for price"
                  "/cars-for-sale/vehicle/733000112"
                  "Used 2020 GMC Sierra 1500 Call for price"]
       else Ok [];
     close := Ok tt |}.

(* ===================================================================== *)
(** * Part II.  Properties                                                *)
(* ===================================================================== *)

(** ** Text *)

Lemma starts_with_map (f : ascii -> ascii) (p s : text) :
  starts_with p s = true -> starts_with (map f p) (map f s) = true.
Proof.
  revert s; induction p as [|a p IH]; intros [|b s]; simpl; auto.
  destruct (ascii_dec a b) as [->|]; [|discriminate].
  intros H. destruct (ascii_dec (f b) (f b)); [auto | congruence].
Qed.

Lemma contains_map (f : ascii -> ascii) (p s : text) :
  contains p s = true -> contains (map f p) (map f s) = true.
Proof.
  induction s as [|b s IH]; simpl; rewrite !orb_true_iff.
  - intros [H|H]; [|discriminate]. left. apply (starts_with_map f p []), H.
  - intros [H|H].
    + left. apply (starts_with_map f p (b :: s)), H.
    + right. auto.
Qed.

Lemma contains_lower (p s : text) :
  contains p s = true -> contains (lower p) (lower s) = true.
Proof. apply contains_map. Qed.

Lemma starts_with_app (p s : text) : starts_with p (p ++ s) = true.
Proof.
  induction p as [|a p IH]; simpl; auto.
  destruct (ascii_dec a a); [auto | congruence].
Qed.

Lemma starts_with_spec (p s : text) :
  starts_with p s = true <-> exists post, s = p ++ post.
Proof.
  split.
  - revert s; induction p as [|a p IH]; intros s H.
    + exists s; reflexivity.
    + destruct s as [|b s]; [discriminate|]. simpl in H.
      destruct (ascii_dec a b) as [->|]; [|discriminate].
      destruct (IH _ H) as [post ->]. exists post; reflexivity.
  - intros [post ->]. apply starts_with_app.
Qed.

Lemma contains_unfold (p s : text) :
  contains p s =
  starts_with p s || match s with [] => false | _ :: s' => contains p s' end.
Proof. destruct s; reflexivity. Qed.

(** [needle in hay] holds exactly when [hay] is [pre ++ needle ++ post]. *)
Lemma contains_spec (p s : text) :
  contains p s = true <-> exists pre post, s = pre ++ p ++ post.
Proof.
  split.
  - induction s as [|b s IH]; simpl; rewrite orb_true_iff.
    + intros [H|H]; [|discriminate].
      apply starts_with_spec in H. destruct H as [post ->].
      exists [], post; reflexivity.
    + intros [H|H].
      * apply starts_with_spec in H. destruct H as [post ->].
        exists [], post; reflexivity.
      * destruct (IH H) as (pre & post & ->).
        exists (b :: pre), post; reflexivity.
  - intros (pre & post & ->). induction pre as [|c pre IH].
    + rewrite contains_unfold. simpl. rewrite starts_with_app. reflexivity.
    + change ((c :: pre) ++ p ++ post) with (c :: (pre ++ p ++ post)).
      rewrite contains_unfold, IH. apply orb_true_r.
Qed.

(** ** The response classification of scrape-autotrader-cdp.py *)

Import AutoTraderCdp.

(** A text holding a bot-defense phrase, in any letter case, is [BLOCKED],
    whatever else it holds. *)
Lemma classify_blocked (page_text indicator : text) :
  In indicator bot_detection_indicators ->
  contains (lower indicator) (lower page_text) = true ->
  classify page_text = BLOCKED.
Proof.
  intros Hin Hc. unfold classify, any.
  replace (existsb _ bot_detection_indicators) with true; [reflexivity|].
  symmetry. apply existsb_exists. exists indicator. split; assumption.
Qed.

(** C3. The bot-defense indicators are checked first: when the text of the
    page holds one of them - as written, or in another letter case - the
    page is classified [BLOCKED] and [scrape_autotrader_cdp] returns the
    empty list, even when a no-results phrase is present too. *)
Theorem blocked_page_returns_empty
    (max_str_digits : nat) (query : text) (max_results : Z) (page : Page)
    (page_text indicator : text) :
  connect_over_cdp page = true ->
  navigate_and_scroll page = Ok tt ->
  inner_text_body page = Ok page_text ->
  In indicator bot_detection_indicators ->
  contains indicator page_text = true
  \/ contains (lower indicator) (lower page_text) = true ->
  classify page_text = BLOCKED
  /\ scrape_autotrader_cdp max_str_digits query max_results page = Some [].
Proof.
  intros Hconn Hnav Htext Hin Hc.
  assert (Hb : classify page_text = BLOCKED).
  { apply classify_blocked with indicator; [assumption|].
    destruct Hc as [Hc|Hc]; [apply contains_lower|]; assumption. }
  split; [assumption|].
  unfold scrape_autotrader_cdp. rewrite Hconn, Hnav, Htext. simpl.
  rewrite Hb. reflexivity.
Qed.

Lemma blocked_page_returns_empty_witness :
  classify (str "No results found. Access to this page has been denied.")
    = BLOCKED
  /\ scrape_autotrader_cdp default_max_str_digits (str "GMC Sierra") 10
       denied_page = Some [].
Proof.
  apply (@blocked_page_returns_empty default_max_str_digits (str "GMC Sierra")
           10%Z denied_page
           (str "No results found. Access to this page has been denied.")
           (str "Access to this page has been denied")).
  - reflexivity.
  - reflexivity.
  - reflexivity.
  - simpl. tauto.
  - left. vm_compute. reflexivity.
Defined.

(** Whatever the browser does after the connection, a page whose text
    holds a bot-defense phrase yields the empty list. *)
Lemma blocked_page_never_lists
    (max_str_digits : nat) (query : text) (max_results : Z) (page : Page) :
  connect_over_cdp page = true ->
  (forall t, inner_text_body page = Ok t -> classify t = BLOCKED) ->
  scrape_autotrader_cdp max_str_digits query max_results page = Some [].
Proof.
  intros Hconn Hb. unfold scrape_autotrader_cdp. rewrite Hconn. simpl.
  destruct (navigate_and_scroll page); simpl; [|reflexivity].
  destruct (inner_text_body page) as [t|] eqn:E; simpl; [|reflexivity].
  rewrite (Hb t eq_refl). reflexivity.
Qed.

(** ** The matcher against the declarative reading *)

Lemma orelse_some {A} (x : option A) (y : unit -> option A) (a : A) :
  orelse x y = Some a -> x = Some a \/ (x = None /\ y tt = Some a).
Proof. destruct x; simpl; intros H; [left | right]; auto. Qed.

Lemma rep_loop_eq (A : Type)
    (body : mstate -> (mstate -> option A) -> option A)
    (k : mstate -> option A) (g : bool) fuel lo hi st :
  rep_loop body k g fuel lo hi st =
  let stop := fun _ : unit => if lo =? 0 then k st else None in
  let more := fun _ : unit =>
    match fuel with
    | 0 => None
    | S fuel' =>
        if hi_zero hi then None
        else body st (fun st' =>
               if (lo =? 0) && (ms_pos st' =? ms_pos st) then None
               else rep_loop body k g fuel' (pred lo) (hi_pred hi) st')
    end in
  if g then orelse (more tt) stop else orelse (stop tt) more.
Proof. destruct fuel; reflexivity. Qed.

Lemma rep_loop_sound (ic : bool) (A : Type) (r1 : regex)
    (body : mstate -> (mstate -> option A) -> option A)
    (k : mstate -> option A) (g : bool) :
  (forall st k' a, body st k' = Some a ->
     exists st', rmatch ic r1 st st' /\ k' st' = Some a) ->
  forall fuel lo hi st a,
    rep_loop body k g fuel lo hi st = Some a ->
    exists st', rmatch ic (Rep r1 lo hi g) st st' /\ k st' = Some a.
Proof.
  intros Hbody.
  assert (Hstop : forall lo hi st a,
            (if lo =? 0 then k st else None) = Some a ->
            exists st', rmatch ic (Rep r1 lo hi g) st st' /\ k st' = Some a).
  { intros lo hi st a H. destruct lo; simpl in H; [|discriminate].
    exists st. split; [constructor | assumption]. }
  induction fuel as [|fuel IH]; intros lo hi st a H.
  - rewrite rep_loop_eq in H. cbv zeta in H.
    destruct g; apply orelse_some in H;
      destruct H as [H|[_ H]]; try discriminate; eauto.
  - assert (Hmore : (if hi_zero hi then None
                     else body st (fun st' =>
                            if (lo =? 0) && (ms_pos st' =? ms_pos st) then None
                            else rep_loop body k g fuel (pred lo) (hi_pred hi) st'))
                    = Some a ->
                    exists st', rmatch ic (Rep r1 lo hi g) st st' /\ k st' = Some a).
    { intros Hm. destruct (hi_zero hi) eqn:Hz; [discriminate|].
      apply Hbody in Hm. destruct Hm as (st1 & Hr1 & Hm).
      destruct ((lo =? 0) && (ms_pos st1 =? ms_pos st)); [discriminate|].
      apply IH in Hm. destruct Hm as (st2 & Hr2 & Hk).
      exists st2. split; [|assumption].
      eapply RM_RepMore; eassumption. }
    rewrite rep_loop_eq in H. cbv zeta in H.
    destruct g; apply orelse_some in H;
      destruct H as [H|[_ H]]; eauto.
Qed.

Lemma mtch_sound (ic : bool) (A : Type) (r : regex) :
  forall st (k : mstate -> option A) a,
    mtch ic r st k = Some a ->
    exists st', rmatch ic r st st' /\ k st' = Some a.
Proof.
  induction r as [|s|r1 IH1 r2 IH2|r1 IH1 r2 IH2|r1 IH1 lo hi g|n r1 IH1|];
    intros st k a H; simpl in H.
  - exists st. split; [constructor | assumption].
  - destruct (ms_rest st) as [|c tl] eqn:E; [discriminate|].
    destruct (cs_mem ic s c) eqn:Hc; [|discriminate].
    eexists. split; [|eassumption]. constructor; assumption.
  - apply IH1 in H. destruct H as (st1 & H1 & H).
    apply IH2 in H. destruct H as (st2 & H2 & H).
    exists st2. split; [econstructor; eassumption | assumption].
  - apply orelse_some in H. destruct H as [H|[_ H]].
    + apply IH1 in H. destruct H as (st1 & H1 & H).
      exists st1. split; [apply RM_AltL | ]; assumption.
    + apply IH2 in H. destruct H as (st1 & H1 & H).
      exists st1. split; [apply RM_AltR | ]; assumption.
  - eapply rep_loop_sound in H; [exact H | exact IH1].
  - apply IH1 in H. destruct H as (st1 & H1 & H).
    eexists. split; [|eassumption]. constructor; assumption.
  - destruct (at_word_boundary st) eqn:E; [|discriminate].
    exists st. split; [constructor|]; assumption.
Qed.

(** ** What a match leaves behind *)

Lemma skipn_cons_inv {A} (n : nat) (s : list A) (c : A) (tl : list A) :
  skipn n s = c :: tl -> S n <= length s /\ skipn (S n) s = tl.
Proof.
  revert s; induction n as [|n IH]; intros [|x s] H; simpl in *;
    try discriminate.
  - inversion H; subst. split; [lia | reflexivity].
  - apply IH in H. destruct H as [H1 H2]. split; [lia | assumption].
Qed.

Lemma cap_in_weaken (s : text) (lo hi lo' hi' : nat) c :
  lo' <= lo -> hi <= hi' -> cap_in s lo hi c -> cap_in s lo' hi' c.
Proof.
  destruct c as [n [b g]]. unfold cap_in. intros ? ? (H1 & H2 & H3).
  repeat split; [lia | lia | assumption].
Qed.

(** A match over [s] moves forward inside [s] and only adds groups, each
    the slice of [s] it claims, inside the part matched. *)
Lemma rmatch_inv (s : text) (ic : bool) (r : regex) (st st' : mstate) :
  rmatch ic r st st' -> valid s st ->
  valid s st' /\ ms_pos st <= ms_pos st' /\
  exists new, ms_caps st' = new ++ ms_caps st
              /\ Forall (cap_in s (ms_pos st) (ms_pos st')) new.
Proof.
  induction 1 as [st|cs st c tl Hr Hc|r1 r2 st st1 st2 _ IH1 _ IH2
                 |r1 r2 st st1 _ IH|r1 r2 st st1 _ IH|n r1 st st1 _ IH
                 |st Hb|r1 hi g st|r1 lo hi g st st1 st2 Hz _ IH1 _ IH2];
    intros Hv.
  - split; [assumption|]. split; [lia|]. exists []. split; [reflexivity|constructor].
  - destruct Hv as [Hv1 Hv2]. rewrite Hv2 in Hr.
    apply skipn_cons_inv in Hr. destruct Hr as [Hl Hs].
    split; [split; simpl; [lia | symmetry; assumption]|].
    split; [simpl; lia|]. exists []. split; [reflexivity|constructor].
  - destruct (IH1 Hv) as (Hv1 & Hp1 & new1 & Hc1 & Hf1).
    destruct (IH2 Hv1) as (Hv2 & Hp2 & new2 & Hc2 & Hf2).
    split; [assumption|]. split; [lia|].
    exists (new2 ++ new1). split.
    + rewrite Hc2, Hc1. apply app_assoc.
    + apply Forall_app. split;
        (eapply Forall_impl; [|eassumption]); intros c;
        apply cap_in_weaken; lia.
  - auto.
  - auto.
  - destruct (IH Hv) as (Hv1 & Hp1 & new1 & Hc1 & Hf1).
    split; [exact Hv1|]. split; [simpl; lia|].
    exists ((n, (ms_pos st, firstn (ms_pos st1 - ms_pos st) (ms_rest st))) :: new1).
    split; [simpl; rewrite Hc1; reflexivity|].
    constructor; [|exact Hf1].
    destruct Hv as [Hva Hvb]. destruct Hv1 as [Hv1a Hv1b].
    assert (Hlen : length (firstn (ms_pos st1 - ms_pos st) (ms_rest st))
                   = ms_pos st1 - ms_pos st).
    { rewrite length_firstn, Hvb, length_skipn. simpl in *. lia. }
    unfold cap_in. simpl. rewrite Hlen.
    repeat split; [lia | lia | rewrite Hvb; reflexivity].
  - split; [assumption|]. split; [lia|]. exists []. split; [reflexivity|constructor].
  - split; [assumption|]. split; [lia|]. exists []. split; [reflexivity|constructor].
  - destruct (IH1 Hv) as (Hv1 & Hp1 & new1 & Hc1 & Hf1).
    destruct (IH2 Hv1) as (Hv2 & Hp2 & new2 & Hc2 & Hf2).
    split; [assumption|]. split; [lia|].
    exists (new2 ++ new1). split.
    + rewrite Hc2, Hc1. apply app_assoc.
    + apply Forall_app. split;
        (eapply Forall_impl; [|eassumption]); intros c;
        apply cap_in_weaken; lia.
Qed.

(** A pattern without groups records none. *)
Lemma rmatch_nogroups (ic : bool) (r : regex) (st st' : mstate) :
  rmatch ic r st st' -> count_groups r = 0 -> ms_caps st' = ms_caps st.
Proof.
  induction 1; simpl; intros Hg; try reflexivity; try discriminate; auto.
  - rewrite IHrmatch2, IHrmatch1; [reflexivity | lia | lia].
  - apply IHrmatch. lia.
  - apply IHrmatch. lia.
  - rewrite IHrmatch2, IHrmatch1; auto.
Qed.

(** A repetition of one character class consumes characters of the class,
    in a number the bounds allow, and records nothing. *)
Lemma rmatch_rep_set (ic : bool) (cs : cset) (lo : nat) (hi : option nat)
    (g : bool) (st st' : mstate) :
  rmatch ic (Rep (Set_ cs) lo hi g) st st' ->
  exists w, ms_rest st = w ++ ms_rest st'
            /\ ms_pos st' = ms_pos st + length w
            /\ Forall (fun c => cs_mem ic cs c = true) w
            /\ ms_caps st' = ms_caps st
            /\ lo <= length w
            /\ match hi with Some h => length w <= h | None => True end.
Proof.
  intros H. remember (Rep (Set_ cs) lo hi g) as r eqn:Er.
  revert lo hi Er.
  induction H as [| | | | | | |r1 hi0 g0 st
                 |r1 lo0 hi0 g0 st st1 st2 Hz H1 _ H2 IH2];
    intros lo hi Er; try discriminate.
  - inversion Er; subst. exists []. simpl.
    split; [reflexivity|]. split; [lia|]. split; [constructor|].
    split; [reflexivity|]. split; [lia|]. destruct hi; [lia | exact I].
  - inversion Er; subst. clear Er.
    destruct (IH2 _ _ eq_refl) as (w & Hr & Hp & Hf & Hc & Hlo & Hhi).
    inversion H1 as [|cs' st0 c tl Hrest Hmem| | | | | | |]; subst.
    simpl in *. exists (c :: w). simpl.
    repeat split.
    + rewrite Hrest, Hr. reflexivity.
    + lia.
    + constructor; assumption.
    + assumption.
    + lia.
    + destruct hi as [[|h]|]; simpl in *; try discriminate; lia.
Qed.

Lemma forall_digits (w : text) :
  Forall (fun c => cs_mem false CDigit c = true) w -> all_digits w = true.
Proof.
  intros H. apply forallb_forall. intros x Hx.
  rewrite Forall_forall in H. apply (H x Hx).
Qed.

Lemma firstn_app_exact {A} (w r : list A) : firstn (length w) (w ++ r) = w.
Proof.
  rewrite firstn_app, Nat.sub_diag, firstn_all. simpl. apply app_nil_r.
Qed.

(** A group made of a repetition of digits records the digits it read. *)
Lemma rmatch_digit_group (s : text) (ic : bool) (n lo : nat)
    (hi : option nat) (g : bool) (st st' : mstate) :
  rmatch ic (Grp n (Rep (Set_ CDigit) lo hi g)) st st' -> valid s st ->
  exists w, ms_caps st' = (n, (ms_pos st, w)) :: ms_caps st
            /\ all_digits w = true
            /\ lo <= length w
            /\ ms_pos st' = ms_pos st + length w
            /\ ms_pos st' <= length s
            /\ w = firstn (length w) (skipn (ms_pos st) s).
Proof.
  intros H Hv. inversion H as [| | | | |n0 r0 st0 st1 Hr| | |]; subst.
  pose proof (rmatch_inv (s := s) Hr Hv) as ((Hv1 & _) & _ & _).
  apply rmatch_rep_set in Hr.
  destruct Hr as (w & Hrest & Hp & Hf & Hc & Hlo & _).
  exists w. unfold close_group; simpl.
  assert (Hw : firstn (ms_pos st1 - ms_pos st) (ms_rest st) = w).
  { rewrite Hp, Hrest.
    replace (ms_pos st + length w - ms_pos st) with (length w) by lia.
    apply firstn_app_exact. }
  rewrite Hw, Hc. repeat split; try assumption.
  - apply forall_digits.
    eapply Forall_impl; [|exact Hf]. intros c Hcm.
    destruct ic; simpl in *; assumption.
  - destruct Hv as [_ Hv]. rewrite <- Hv, Hrest.
    symmetry. apply firstn_app_exact.
Qed.

Lemma rmatch_min_len (ic : bool) (r : regex) (st st' : mstate) :
  rmatch ic r st st' -> ms_pos st + min_len r <= ms_pos st'.
Proof.
  induction 1; simpl in *; try lia.
  destruct lo; simpl in *; lia.
Qed.

Lemma digits_only_nogroups (ic : bool) (r : regex) :
  digits_only ic r = true -> count_groups r = 0.
Proof.
  induction r as [|s|r1 IH1 r2 IH2|r1 IH1 r2 IH2|r1 IH1 lo hi g|n r1 IH1|];
    simpl; intros H; try reflexivity; try discriminate.
  - apply andb_true_iff in H. destruct H. rewrite IH1, IH2; auto.
  - apply andb_true_iff in H. destruct H. rewrite IH1, IH2; auto.
  - auto.
Qed.

Lemma digits_only_numeric (ic : bool) (r : regex) :
  digits_only ic r = true -> numeric_groups ic r = true.
Proof.
  induction r as [|s|r1 IH1 r2 IH2|r1 IH1 r2 IH2|r1 IH1 lo hi g|n r1 IH1|];
    simpl; intros H; try reflexivity; try discriminate; auto.
  - apply andb_true_iff in H. destruct H. rewrite IH1, IH2; auto.
  - apply andb_true_iff in H. destruct H. rewrite IH1, IH2; auto.
Qed.

(** A pattern made of digits reads digits. *)
Lemma rmatch_digits_only (ic : bool) (r : regex) (st st' : mstate) :
  rmatch ic r st st' -> digits_only ic r = true ->
  exists w, ms_rest st = w ++ ms_rest st' /\ all_digits w = true.
Proof.
  induction 1 as [st|cs st c tl Hr Hc|r1 r2 st st1 st2 _ IH1 _ IH2
                 |r1 r2 st st1 _ IH|r1 r2 st st1 _ IH|n r1 st st1 _ IH
                 |st Hb|r1 hi g st|r1 lo hi g st st1 st2 Hz _ IH1 _ IH2];
    simpl; intros Hd; try discriminate.
  - exists []. split; reflexivity.
  - exists [c]. split; [assumption|]. simpl. rewrite andb_true_r.
    destruct cs; try discriminate.
    + apply andb_true_iff in Hd. destruct Hd as [Hic Hx].
      destruct ic; [discriminate|]. simpl in Hc.
      destruct (ascii_dec c c0); [subst; assumption | discriminate].
    + exact Hc.
  - apply andb_true_iff in Hd. destruct Hd as [Hd1 Hd2].
    destruct (IH1 Hd1) as (w1 & E1 & D1). destruct (IH2 Hd2) as (w2 & E2 & D2).
    exists (w1 ++ w2). split.
    + rewrite E1, E2. apply app_assoc.
    + unfold all_digits in *. rewrite forallb_app, D1, D2. reflexivity.
  - apply andb_true_iff in Hd. destruct Hd as [Hd1 Hd2]. auto.
  - apply andb_true_iff in Hd. destruct Hd as [Hd1 Hd2]. auto.
  - exists []. split; reflexivity.
  - destruct (IH1 Hd) as (w1 & E1 & D1). destruct (IH2 Hd) as (w2 & E2 & D2).
    exists (w1 ++ w2). split.
    + rewrite E1, E2. apply app_assoc.
    + unfold all_digits in *. rewrite forallb_app, D1, D2. reflexivity.
Qed.

Lemma cap_of_weaken (s : text) (ic : bool) (r r' : regex)
    (lo hi lo' hi' : nat) c :
  lo' <= lo -> hi <= hi' ->
  incl (group_numbers r) (group_numbers r') ->
  (numeric_groups ic r' = true -> numeric_groups ic r = true) ->
  cap_of s ic r lo hi c -> cap_of s ic r' lo' hi' c.
Proof.
  intros Hlo Hhi Hincl Hnum (H1 & H2 & H3). split; [|split].
  - eapply cap_in_weaken; eassumption.
  - apply Hincl, H2.
  - intros Hn. apply H3, Hnum, Hn.
Qed.

Lemma rmatch_caps (s : text) (ic : bool) (r : regex) (st st' : mstate) :
  rmatch ic r st st' -> valid s st ->
  exists new, ms_caps st' = new ++ ms_caps st
              /\ Forall (cap_of s ic r (ms_pos st) (ms_pos st')) new.
Proof.
  induction 1 as [st|cs st c tl Hr Hc|r1 r2 st st1 st2 H1 IH1 H2 IH2
                 |r1 r2 st st1 H1 IH|r1 r2 st st1 H1 IH|n r1 st st1 H1 IH
                 |st Hb|r1 hi g st|r1 lo hi g st st1 st2 Hz H1 IH1 H2 IH2];
    intros Hv.
  - exists []. split; [reflexivity|constructor].
  - exists []. split; [reflexivity|constructor].
  - pose proof (rmatch_inv (s := s) H1 Hv) as (Hv1 & Hp1 & _).
    pose proof (rmatch_inv (s := s) H2 Hv1) as (Hv2 & Hp2 & _).
    destruct (IH1 Hv) as (new1 & Hc1 & Hf1).
    destruct (IH2 Hv1) as (new2 & Hc2 & Hf2).
    exists (new2 ++ new1). split.
    + rewrite Hc2, Hc1. apply app_assoc.
    + apply Forall_app. split;
        (eapply Forall_impl; [|eassumption]); intros c;
        apply cap_of_weaken; simpl; try lia;
        auto using incl_appl, incl_appr, incl_refl;
        intros Hn; apply andb_true_iff in Hn; tauto.
  - destruct (IH Hv) as (new1 & Hc1 & Hf1). exists new1. split; [assumption|].
    eapply Forall_impl; [|eassumption]. intros c.
    apply cap_of_weaken; simpl; try lia; auto using incl_appl, incl_refl.
    intros Hn; apply andb_true_iff in Hn; tauto.
  - destruct (IH Hv) as (new1 & Hc1 & Hf1). exists new1. split; [assumption|].
    eapply Forall_impl; [|eassumption]. intros c.
    apply cap_of_weaken; simpl; try lia; auto using incl_appr, incl_refl.
    intros Hn; apply andb_true_iff in Hn; tauto.
  - pose proof (rmatch_inv (s := s) H1 Hv) as (Hv1 & Hp1 & _).
    destruct (IH Hv) as (new1 & Hc1 & Hf1).
    exists ((n, (ms_pos st, firstn (ms_pos st1 - ms_pos st) (ms_rest st))) :: new1).
    split; [simpl; rewrite Hc1; reflexivity|].
    assert (Hlen : length (firstn (ms_pos st1 - ms_pos st) (ms_rest st))
                   = ms_pos st1 - ms_pos st).
    { destruct Hv as [Hva Hvb]. destruct Hv1 as [Hv1a Hv1b].
      rewrite length_firstn, Hvb, length_skipn. lia. }
    constructor.
    + split; [|split].
      * unfold cap_in. rewrite Hlen. destruct Hv as [Hva Hvb].
        repeat split; [lia | simpl; lia | rewrite Hvb; reflexivity].
      * simpl. left. reflexivity.
      * intros Hn.
        change (digits_only ic r1 && (1 <=? min_len r1) = true) in Hn.
        apply andb_true_iff in Hn. destruct Hn as [Hd Hm].
        apply Nat.leb_le in Hm. cbn [snd].
        pose proof (rmatch_min_len H1) as Hmin.
        destruct (rmatch_digits_only H1 Hd) as (w & Hw & Hdw).
        rewrite Hlen. split; [|lia].
        assert (Hwl : length w = ms_pos st1 - ms_pos st).
        { destruct Hv as [Hva Hvb]. destruct Hv1 as [Hv1a Hv1b].
          assert (length (ms_rest st) = length w + length (ms_rest st1))
            by (rewrite Hw at 1; apply length_app).
          rewrite Hvb, Hv1b, !length_skipn in H. lia. }
        rewrite Hw, <- Hwl, firstn_app_exact. exact Hdw.
    + eapply Forall_impl; [|eassumption]. intros c.
      apply cap_of_weaken;
        [lia | simpl; lia | simpl; auto using incl_tl, incl_refl|].
      intros Hn.
      change (digits_only ic r1 && (1 <=? min_len r1) = true) in Hn.
      apply andb_true_iff in Hn. destruct Hn as [Hd _].
      apply digits_only_numeric, Hd.
  - exists []. split; [reflexivity|constructor].
  - exists []. split; [reflexivity|constructor].
  - pose proof (rmatch_inv (s := s) H1 Hv) as (Hv1 & Hp1 & _).
    pose proof (rmatch_inv (s := s) H2 Hv1) as (Hv2 & Hp2 & _).
    destruct (IH1 Hv) as (new1 & Hc1 & Hf1).
    destruct (IH2 Hv1) as (new2 & Hc2 & Hf2).
    exists (new2 ++ new1). split.
    + rewrite Hc2, Hc1. apply app_assoc.
    + apply Forall_app. split;
        (eapply Forall_impl; [|eassumption]); intros c;
        apply cap_of_weaken; simpl; try lia; auto using incl_refl.
Qed.

(** ** Looking groups up *)

Lemma lookup_cap_app_l (n : nat) (l1 l2 : list (nat * (nat * text))) c :
  lookup_cap n l1 = Some c -> lookup_cap n (l1 ++ l2) = Some c.
Proof.
  induction l1 as [|[i x] l1 IH]; simpl; [discriminate|].
  destruct (i =? n); auto.
Qed.

Lemma lookup_cap_app_some (n : nat) (l1 l2 : list (nat * (nat * text))) c :
  lookup_cap n l2 = Some c -> exists c', lookup_cap n (l1 ++ l2) = Some c'.
Proof.
  intros H. induction l1 as [|[i x] l1 IH]; simpl; [eauto|].
  destruct (i =? n); eauto.
Qed.

Lemma lookup_cap_in (n : nat) (l : list (nat * (nat * text))) c :
  lookup_cap n l = Some c -> In (n, c) l.
Proof.
  induction l as [|[i x] l IH]; simpl; [discriminate|].
  destruct (i =? n) eqn:E.
  - apply Nat.eqb_eq in E. subst. intros H; inversion H; auto.
  - auto.
Qed.

Lemma lookup_cap_skip (n : nat) (l1 l2 : list (nat * (nat * text))) :
  (forall c, In c l1 -> fst c <> n) ->
  lookup_cap n (l1 ++ l2) = lookup_cap n l2.
Proof.
  induction l1 as [|[i x] l1 IH]; simpl; intros H; [reflexivity|].
  destruct (i =? n) eqn:E.
  - apply Nat.eqb_eq in E. exfalso. apply (H (i, x)); auto.
  - apply IH. intros c Hc. apply H. auto.
Qed.

Lemma rmatch_caps_ext (ic : bool) (r : regex) (st st' : mstate) :
  rmatch ic r st st' -> exists new, ms_caps st' = new ++ ms_caps st.
Proof.
  induction 1 as [st|cs st c tl Hr Hc|r1 r2 st st1 st2 _ IH1 _ IH2
                 |r1 r2 st st1 _ IH|r1 r2 st st1 _ IH|n r1 st st1 _ IH
                 |st Hb|r1 hi g st|r1 lo hi g st st1 st2 Hz _ IH1 _ IH2];
    try (exists []; reflexivity); try assumption.
  - destruct IH1 as [n1 E1]. destruct IH2 as [n2 E2].
    exists (n2 ++ n1). rewrite E2, E1. apply app_assoc.
  - destruct IH as [n1 E1]. eexists (_ :: n1). simpl. rewrite E1. reflexivity.
  - destruct IH1 as [n1 E1]. destruct IH2 as [n2 E2].
    exists (n2 ++ n1). rewrite E2, E1. apply app_assoc.
Qed.

(** A group that every match of the pattern closes is recorded. *)
Lemma rmatch_sets_group (ic : bool) (n : nat) (r : regex) (st st' : mstate) :
  rmatch ic r st st' -> sets_group n r = true ->
  exists new c, ms_caps st' = new ++ ms_caps st /\ lookup_cap n new = Some c.
Proof.
  induction 1 as [st|cs st c tl Hr Hc|r1 r2 st st1 st2 H1 IH1 H2 IH2
                 |r1 r2 st st1 _ IH|r1 r2 st st1 _ IH|m r1 st st1 H1 IH
                 |st Hb|r1 hi g st|r1 lo hi g st st1 st2 Hz H1 IH1 H2 IH2];
    simpl; intros Hs; try discriminate.
  - destruct (rmatch_caps_ext H1) as [n1 E1].
    destruct (rmatch_caps_ext H2) as [n2 E2].
    destruct (sets_group n r2) eqn:S2.
    + destruct (IH2 eq_refl) as (n2' & c & E2' & L).
      exists (n2' ++ n1), c. split.
      * rewrite E2', E1. apply app_assoc.
      * apply lookup_cap_app_l, L.
    + rewrite orb_false_r in Hs.
      destruct (IH1 Hs) as (n1' & c & E1' & L).
      destruct (@lookup_cap_app_some n n2 _ _ L) as [c' L'].
      exists (n2 ++ n1'), c'. split; [|assumption].
      rewrite E2, E1'. apply app_assoc.
  - apply andb_true_iff in Hs. destruct Hs. auto.
  - apply andb_true_iff in Hs. destruct Hs. auto.
  - destruct (rmatch_caps_ext H1) as [n1 E1].
    destruct (m =? n) eqn:Em.
    + eexists (_ :: n1), _. split.
      * simpl. rewrite E1. reflexivity.
      * simpl. rewrite Em. reflexivity.
    + simpl in Hs. destruct (IH Hs) as (n1' & c & E1' & L).
      eexists (_ :: n1'), c. split.
      * simpl. rewrite E1'. reflexivity.
      * simpl. rewrite Em. assumption.
  - apply andb_true_iff in Hs. destruct Hs as [_ Hs].
    destruct (rmatch_caps_ext H2) as [n2 E2].
    destruct (IH1 Hs) as (n1' & c & E1' & L).
    destruct (@lookup_cap_app_some n n2 _ _ L) as [c' L'].
    exists (n2 ++ n1'), c'. split; [|assumption].
    rewrite E2, E1'. apply app_assoc.
Qed.

(** ** [re.search] against the declarative reading *)

Lemma match_here_inv (ic : bool) (r : regex) (pos : nat) (prev : option ascii)
    (rest : text) (mt : match_obj) :
  match_here ic r pos prev rest = Some mt ->
  exists st', rmatch ic r (MState pos prev rest []) st'
    /\ mt = Match pos (ms_pos st') (firstn (ms_pos st' - pos) rest)
                  (ms_caps st') (count_groups r) (ms_prev st') (ms_rest st').
Proof.
  unfold match_here. intros H.
  destruct (mtch ic r (MState pos prev rest []) (fun st' => Some st'))
    as [st'|] eqn:E; [|discriminate].
  apply mtch_sound in E. destruct E as (st1 & Hr & Hk).
  inversion Hk; subst st1. inversion H; subst.
  exists st'. split; [assumption | reflexivity].
Qed.

Lemma search_at_inv (s : text) (ic : bool) (r : regex) (rest : text) :
  forall (pos : nat) (prev : option ascii) (mt : match_obj),
    search_at ic r pos prev rest = Some mt ->
    pos <= length s -> rest = skipn pos s ->
    exists pos' prev',
      pos <= pos' /\ pos' <= length s
      /\ match_here ic r pos' prev' (skipn pos' s) = Some mt.
Proof.
  induction rest as [|c tl IH]; intros pos prev mt H Hl Hs; simpl in H.
  - destruct (match_here ic r pos prev []) eqn:E; [|discriminate].
    inversion H; subst. exists pos, prev. rewrite <- Hs. auto.
  - destruct (match_here ic r pos prev (c :: tl)) eqn:E.
    + inversion H; subst. exists pos, prev. rewrite <- Hs. auto.
    + symmetry in Hs. apply skipn_cons_inv in Hs. destruct Hs as [Hl' Hs'].
      apply IH in H; [|lia|auto].
      destruct H as (pos' & prev' & H1 & H2 & H3).
      exists pos', prev'. repeat split; [lia | lia | assumption].
Qed.

(** Where a found match comes from. *)
Lemma search_inv (ic : bool) (r : regex) (s : text) (mt : match_obj) :
  search ic r s = Some mt ->
  exists st0 st',
    valid s st0 /\ ms_caps st0 = []
    /\ rmatch ic r st0 st'
    /\ mt = Match (ms_pos st0) (ms_pos st')
                  (firstn (ms_pos st' - ms_pos st0) (ms_rest st0))
                  (ms_caps st') (count_groups r) (ms_prev st') (ms_rest st').
Proof.
  unfold search. intros H.
  apply (search_at_inv s) in H; [|lia|reflexivity].
  destruct H as (pos & prev & _ & Hl & H).
  apply match_here_inv in H. destruct H as (st' & Hr & Hm).
  exists (MState pos prev (skipn pos s) []), st'.
  repeat split; assumption.
Qed.

(** A group of digits that every match closes: [match.group(n)] is a
    non-empty string of digits, a slice of the text searched. *)
Lemma search_numeric_group (ic : bool) (r : regex) (s : text)
    (mt : match_obj) (n : nat) :
  search ic r s = Some mt ->
  numeric_groups ic r = true -> sets_group n r = true -> n <> 0 ->
  exists b g,
    lookup_cap n (mt_caps mt) = Some (b, g)
    /\ group mt n = Some g
    /\ all_digits g = true /\ 1 <= length g
    /\ b + length g <= length s
    /\ g = firstn (length g) (skipn b s).
Proof.
  intros H Hnum Hset Hn.
  apply search_inv in H. destruct H as (st0 & st' & Hv & Hc0 & Hr & ->).
  pose proof (rmatch_inv (s := s) Hr Hv) as ((Hl' & _) & _ & _).
  destruct (rmatch_caps (s := s) Hr Hv) as (new & Hc & Hf).
  destruct (@rmatch_sets_group _ n _ _ _ Hr Hset) as (new' & c & Hc' & L).
  assert (new' = new) as ->.
  { rewrite Hc in Hc'. apply app_inv_tail in Hc'. auto. }
  rewrite Hc0, app_nil_r in Hc.
  pose proof (@lookup_cap_in _ _ _ L) as Hin.
  rewrite Forall_forall in Hf. destruct (Hf _ Hin) as (Hci & _ & Hd).
  destruct c as [b g]. destruct (Hd Hnum) as [Hd1 Hd2].
  unfold cap_in in Hci. destruct Hci as (_ & Hb & Hg).
  exists b, g. simpl. rewrite Hc, L.
  destruct n; [congruence|]. simpl.
  repeat split; try assumption; [rewrite L; reflexivity | lia].
Qed.

Lemma ordered_groups_cat (a b : regex) :
  ordered_groups (Cat a b) =
  if count_groups a =? 0 then ordered_groups b
  else match a with
       | Grp 1 _ =>
           negb (existsb (Nat.eqb 1) (group_numbers b)) && sets_group 2 b
       | _ => false
       end.
Proof. reflexivity. Qed.

(** In a sequence that closes the group 1 before the piece holding the
    group 2, the text of the group 1 ends before the group 2 starts. *)
Lemma rmatch_ordered (s : text) (ic : bool) (r : regex) :
  forall st st',
    rmatch ic r st st' -> ordered_groups r = true -> valid s st ->
    exists new b1 g1 b2 g2,
      ms_caps st' = new ++ ms_caps st
      /\ lookup_cap 1 new = Some (b1, g1)
      /\ lookup_cap 2 new = Some (b2, g2)
      /\ b1 + length g1 <= b2.
Proof.
  induction r as [|cs|r1 IH1 r2 IH2|r1 IH1 r2 IH2|r1 IH1 lo hi g|n r1 IH1|];
    intros st st' H Ho Hv; try discriminate.
  inversion H as [| |ra rb sa st1 sb Ha Hb| | | | | |]; subst.
  pose proof (rmatch_inv (s := s) Ha Hv) as (Hv1 & Hp1 & _).
  rewrite ordered_groups_cat in Ho. destruct (count_groups r1 =? 0) eqn:Eg.
  - apply Nat.eqb_eq in Eg.
    pose proof (rmatch_nogroups Ha Eg) as Hsame.
    destruct (IH2 _ _ Hb Ho Hv1) as (new & b1 & g1 & b2 & g2 & Hc & L1 & L2 & Hle).
    exists new, b1, g1, b2, g2. rewrite Hc, Hsame. auto.
  - destruct r1 as [| | | | |n body|]; try discriminate.
    destruct n as [|[|n]]; try discriminate.
    apply andb_true_iff in Ho. destruct Ho as [Hno Hset].
    apply negb_true_iff in Hno.
    inversion Ha as [| | | | |n0 r0 st0 st1' Hbody| | |]; subst.
    pose proof (rmatch_inv (s := s) Hbody Hv) as (Hv1' & Hp1' & _).
    destruct (rmatch_caps_ext Hbody) as [n1 E1].
    destruct (rmatch_caps (s := s) Hb Hv1) as (newb & Hcb & Hfb).
    destruct (@rmatch_sets_group _ 2 _ _ _ Hb Hset) as (newb' & c2 & Hcb' & L2).
    assert (newb' = newb) as ->.
    { rewrite Hcb in Hcb'. apply app_inv_tail in Hcb'. auto. }
    destruct c2 as [b2 g2].
    rewrite Forall_forall in Hfb.
    exists (newb ++ (1, (ms_pos st, firstn (ms_pos st1' - ms_pos st) (ms_rest st))) :: n1),
      (ms_pos st), (firstn (ms_pos st1' - ms_pos st) (ms_rest st)), b2, g2.
    split; [|split; [|split]].
    + rewrite Hcb. unfold close_group; simpl. rewrite E1, <- app_assoc.
      reflexivity.
    + rewrite lookup_cap_skip; [reflexivity|].
      intros c Hc Hfst. destruct (Hfb c Hc) as (_ & Hin & _).
      rewrite Hfst in Hin.
      assert (existsb (Nat.eqb 1) (group_numbers r2) = true).
      { apply existsb_exists. exists 1. split; [assumption | reflexivity]. }
      congruence.
    + apply lookup_cap_app_l, L2.
    + destruct (Hfb _ (@lookup_cap_in _ _ _ L2)) as (Hci & _).
      unfold cap_in in Hci. destruct Hci as (Hlo & _).
      unfold close_group in Hlo; simpl in Hlo.
      rewrite length_firstn. lia.
Qed.

Lemma search_ordered (ic : bool) (r : regex) (s : text) (mt : match_obj) :
  search ic r s = Some mt -> ordered_groups r = true ->
  exists b1 g1 b2 g2,
    lookup_cap 1 (mt_caps mt) = Some (b1, g1)
    /\ lookup_cap 2 (mt_caps mt) = Some (b2, g2)
    /\ b1 + length g1 <= b2.
Proof.
  intros H Ho. apply search_inv in H.
  destruct H as (st0 & st' & Hv & Hc0 & Hr & ->).
  destruct (rmatch_ordered (s := s) Hr Ho Hv)
    as (new & b1 & g1 & b2 & g2 & Hc & L1 & L2 & Hle).
  rewrite Hc0, app_nil_r in Hc.
  exists b1, g1, b2, g2. simpl. rewrite Hc. auto.
Qed.

(** Two slices of a text, the first ending before the second starts. *)
Lemma two_slices (s g1 g2 : text) (b1 b2 : nat) :
  g1 = firstn (length g1) (skipn b1 s) ->
  g2 = firstn (length g2) (skipn b2 s) ->
  b1 + length g1 <= b2 -> b2 + length g2 <= length s ->
  exists pre mid post, s = pre ++ g1 ++ mid ++ g2 ++ post.
Proof.
  intros H1 H2 Hle Hl.
  exists (firstn b1 s),
         (firstn (b2 - (b1 + length g1)) (skipn (b1 + length g1) s)),
         (skipn (b2 + length g2) s).
  rewrite <- (firstn_skipn b1 s) at 1. f_equal.
  rewrite <- (firstn_skipn (length g1) (skipn b1 s)) at 1.
  rewrite <- H1. f_equal.
  rewrite skipn_skipn, (Nat.add_comm (length g1) b1).
  rewrite <- (firstn_skipn (b2 - (b1 + length g1)) (skipn (b1 + length g1) s)) at 1.
  f_equal. rewrite skipn_skipn.
  replace (b2 - (b1 + length g1) + (b1 + length g1)) with b2 by lia.
  rewrite <- (firstn_skipn (length g2) (skipn b2 s)) at 1.
  rewrite <- H2. f_equal.
  rewrite skipn_skipn. f_equal. lia.
Qed.

(** ** parse_vehicle_query.py: the steps of [parse_with_patterns] *)

Import ParseVehicleQuery.

Lemma py_int_digits (max_str_digits : nat) (g : text) :
  all_digits g = true -> 1 <= length g ->
  max_str_digits = 0 \/ length g <= max_str_digits ->
  py_int max_str_digits g = Ok (digits_val g).
Proof.
  intros Hd Hl Hm. unfold py_int. destruct g as [|c g]; [simpl in Hl; lia|].
  rewrite Hd. simpl negb.
  destruct Hm as [->|Hm]; [reflexivity|].
  replace (max_str_digits <? length (c :: g)) with false;
    [rewrite andb_false_r; reflexivity|].
  symmetry. apply Nat.ltb_ge. exact Hm.
Qed.

Lemma digits_val_nonneg (g : text) : (0 <= digits_val g)%Z.
Proof.
  unfold digits_val.
  assert (H : forall a, (0 <= a)%Z ->
            (0 <= fold_left (fun acc c => 10 * acc + digit_val c) g a)%Z).
  { induction g as [|c g IH]; intros a Ha; cbn [fold_left]; [assumption|].
    apply IH. unfold digit_val. lia. }
  apply H. lia.
Qed.

Lemma price_patterns_shape :
  forallb price_pattern_shape price_patterns = true.
Proof. vm_compute. reflexivity. Qed.

Lemma year_pattern_shape :
  numeric_groups false year_pattern = true
  /\ sets_group 1 year_pattern = true.
Proof. split; vm_compute; reflexivity. Qed.

(** [int(match.group(n))] succeeds on a group of digits. *)
Lemma int_group_numeric (max_str_digits : nat) (ic : bool) (r : regex)
    (s : text) (mt : match_obj) (n : nat) :
  search ic r s = Some mt ->
  numeric_groups ic r = true -> sets_group n r = true -> n <> 0 ->
  max_str_digits = 0 \/ length s <= max_str_digits ->
  exists b g,
    lookup_cap n (mt_caps mt) = Some (b, g)
    /\ int_group max_str_digits mt n = Ok (digits_val g)
    /\ all_digits g = true /\ 1 <= length g
    /\ b + length g <= length s
    /\ g = firstn (length g) (skipn b s).
Proof.
  intros H Hnum Hset Hn Hm.
  destruct (@search_numeric_group ic r s mt n H Hnum Hset Hn)
    as (b & g & L & Hg & Hd & Hl & Hb & Hs).
  exists b, g. repeat split; try assumption.
  unfold int_group. rewrite Hg. apply py_int_digits; try assumption.
  destruct Hm; [left; assumption | right; lia].
Qed.

Lemma slice_decompose (s g : text) (b : nat) :
  g = firstn (length g) (skipn b s) ->
  exists pre post, s = pre ++ g ++ post.
Proof.
  intros H. exists (firstn b s), (skipn (length g) (skipn b s)).
  rewrite <- (firstn_skipn b s) at 1. f_equal.
  rewrite <- (firstn_skipn (length g) (skipn b s)) at 1.
  rewrite <- H. reflexivity.
Qed.

Lemma price_loop_total (max_str_digits : nat) (query_lower : text) :
  max_str_digits = 0 \/ length query_lower <= max_str_digits ->
  forall patterns s0,
    forallb price_pattern_shape patterns = true ->
    exists lo hi,
      price_loop max_str_digits patterns query_lower s0
        = Ok (set_maxPrice hi (set_minPrice lo s0))
      /\ price_outcome query_lower (minPrice s0) (maxPrice s0) lo hi.
Proof.
  intros Hm. induction patterns as [|p ps IH]; intros s0 Hshape.
  - exists (minPrice s0), (maxPrice s0). split; [|constructor].
    destruct s0; reflexivity.
  - simpl in Hshape. apply andb_true_iff in Hshape.
    destruct Hshape as [Hp Hps]. simpl.
    destruct (search false p query_lower) as [mt|] eqn:Es; [|auto].
    unfold price_pattern_shape in Hp.
    apply andb_true_iff in Hp. destruct Hp as [Hp Hcnt].
    apply andb_true_iff in Hp. destruct Hp as [Hnum Hset1].
    destruct (@int_group_numeric max_str_digits false p query_lower mt 1
                Es Hnum Hset1 ltac:(discriminate) Hm)
      as (b1 & g1 & L1 & Hi1 & Hd1 & Hl1 & Hb1 & Hs1).
    pose proof (@search_inv false p query_lower mt Es) as (st0 & st' & _ & _ & _ & Hmt).
    assert (Hng : mt_ngroups mt = count_groups p) by (rewrite Hmt; reflexivity).
    rewrite Hng. destruct (count_groups p =? 2) eqn:E2.
    + apply andb_true_iff in Hcnt. destruct Hcnt as [Hset2 Hord].
      destruct (@int_group_numeric max_str_digits false p query_lower mt 2
                  Es Hnum Hset2 ltac:(discriminate) Hm)
        as (b2 & g2 & L2 & Hi2 & Hd2 & Hl2 & Hb2 & Hs2).
      destruct (@search_ordered false p query_lower mt Es Hord)
        as (b1' & g1' & b2' & g2' & L1' & L2' & Hle).
      rewrite L1 in L1'. rewrite L2 in L2'.
      inversion L1'; inversion L2'; subst b1' g1' b2' g2'.
      assert (Ht : group_truthy mt 2 = true).
      { unfold group_truthy, group. rewrite L2. simpl.
        destruct g2; [simpl in Hl2; lia | reflexivity]. }
      rewrite Ht. simpl. rewrite Hi1. simpl. rewrite Hi2. simpl.
      exists (Some (digits_val g1)), (Some (digits_val g2)).
      split; [destruct s0; reflexivity|].
      destruct (@two_slices query_lower g1 g2 b1 b2 Hs1 Hs2 Hle Hb2) as (pre & mid & post & E).
      eapply PriceRange; eassumption.
    + simpl. rewrite Hi1. simpl.
      exists (minPrice s0), (Some (digits_val g1)).
      split; [destruct s0; reflexivity|].
      destruct (@slice_decompose query_lower g1 b1 Hs1) as (pre & post & E).
      eapply PriceMax; eassumption.
Qed.

(** The later steps leave alone the keys they do not assign. *)
Section Frame.
Variable X : Type.
Variable proj : Structured -> X.

Lemma first_in_frame (assign : option text -> Structured -> Structured) :
  (forall v s, proj (assign v s) = proj s) ->
  forall vocabulary query_lower s,
    proj (first_in vocabulary query_lower assign s) = proj s.
Proof.
  intros Ha vocabulary query_lower.
  induction vocabulary as [|v rest IH]; intros s; simpl; [reflexivity|].
  destruct (contains (lower v) query_lower); auto.
Qed.

Lemma features_loop_frame :
  (forall v s, proj (set_features v s) = proj s) ->
  forall vocabulary query_lower s,
    proj (features_loop vocabulary query_lower s) = proj s.
Proof.
  intros Ha vocabulary query_lower.
  induction vocabulary as [|v rest IH]; intros s; simpl; [reflexivity|].
  rewrite IH. destruct (contains (lower v) query_lower); auto.
Qed.

Lemma makes_loop_frame :
  (forall v s, proj (set_makes v s) = proj s) ->
  forall items query_lower s,
    proj (makes_loop items query_lower s) = proj s.
Proof.
  intros Ha items query_lower.
  induction items as [|[k v] rest IH]; intros s; simpl; [reflexivity|].
  rewrite IH. destruct (contains k query_lower); auto.
Qed.

Lemma trims_loop_frame :
  (forall v s, proj (set_trims v s) = proj s) ->
  forall items query_lower s,
    proj (trims_loop items query_lower s) = proj s.
Proof.
  intros Ha items query_lower.
  induction items as [|[k v] rest IH]; intros s; simpl; [reflexivity|].
  rewrite IH. destruct (contains k query_lower); auto.
Qed.

Lemma models_chain_frame :
  (forall v s, proj (set_models v s) = proj s) ->
  forall query_lower s, proj (models_chain query_lower s) = proj s.
Proof.
  intros Ha query_lower s. unfold models_chain, append_model.
  repeat match goal with
         | |- context [if ?b then _ else _] => destruct b
         end; auto.
Qed.
End Frame.

(** [makes] receives, in the order of the alias table, the proper name
    of every alias that occurs in the lowered query. *)
Lemma makes_loop_makes (items : list (text * text)) (query_lower : text) :
  forall s,
    makes (makes_loop items query_lower s)
    = makes s ++ map snd (filter (occurs query_lower) items).
Proof.
  induction items as [|[k v] rest IH]; intros s; simpl.
  - symmetry. apply app_nil_r.
  - rewrite IH. unfold occurs at 2. simpl.
    destruct (contains k query_lower); simpl; [|reflexivity].
    rewrite <- app_assoc. reflexivity.
Qed.

Lemma trims_loop_trims (items : list (text * text)) (query_lower : text) :
  forall s,
    trims (trims_loop items query_lower s)
    = trims s ++ map snd (filter (occurs query_lower) items).
Proof.
  induction items as [|[k v] rest IH]; intros s; simpl.
  - symmetry. apply app_nil_r.
  - rewrite IH. unfold occurs at 2. simpl.
    destruct (contains k query_lower); simpl; [|reflexivity].
    rewrite <- app_assoc. reflexivity.
Qed.

Lemma models_chain_models (query_lower : text) (s : Structured) :
  models s = [] ->
  models (models_chain query_lower s)
  = models (models_chain query_lower initial).
Proof.
  intros Hs. unfold models_chain, append_model.
  repeat match goal with
         | |- context [if ?b then _ else _] => destruct b
         end; simpl; rewrite ?Hs; reflexivity.
Qed.

(** [parse_with_patterns] returns, and what it returns, key by key. *)
Lemma parse_with_patterns_spec (max_str_digits : nat) (q : text)
    (catalog : Catalog) :
  max_str_digits = 0 \/ length q <= max_str_digits ->
  exists p,
    parse_with_patterns max_str_digits q catalog = Ok p
    /\ query p = q
    /\ price_outcome (lower q) None None
         (minPrice (structured p)) (maxPrice (structured p))
    /\ price_loop max_str_digits price_patterns (lower q) initial
       = Ok (set_maxPrice (maxPrice (structured p))
               (set_minPrice (minPrice (structured p)) initial))
    /\ makes (structured p)
       = map snd (filter (occurs (lower q)) common_makes)
    /\ trims (structured p)
       = map snd (filter (occurs (lower q)) trim_patterns)
    /\ models (structured p) = models (models_chain (lower q) initial)
    /\ year (structured p)
       = match search false year_pattern q with
         | Some year_match => option_map digits_val (group year_match 1)
         | None => None
         end.
Proof.
  intros Hm. unfold parse_with_patterns.
  assert (Hm' : max_str_digits = 0 \/ length (lower q) <= max_str_digits).
  { unfold lower. rewrite length_map. exact Hm. }
  destruct (@price_loop_total max_str_digits (lower q) Hm' price_patterns initial
              price_patterns_shape)
    as (lo & hi & E & Ho).
  rewrite E. cbn [bind].
  set (s1 := set_maxPrice hi (set_minPrice lo initial)).
  assert (Hy : exists y,
             match search false year_pattern q with
             | Some year_match =>
                 y <- int_group max_str_digits year_match 1 ;;
                 Ok (set_year (Some y) s1)
             | None => Ok s1
             end = Ok (set_year y s1)
             /\ y = match search false year_pattern q with
                    | Some year_match =>
                        option_map digits_val (group year_match 1)
                    | None => None
                    end).
  { destruct (search false year_pattern q) as [mt|] eqn:Es.
    - destruct year_pattern_shape as [Hn Hs].
      destruct (@int_group_numeric max_str_digits false year_pattern q mt 1
                  Es Hn Hs ltac:(discriminate) Hm)
        as (b & g & L & Hi & _).
      rewrite Hi. exists (Some (digits_val g)). split; [reflexivity|].
      unfold group. rewrite L. reflexivity.
    - exists None. split; reflexivity. }
  destruct Hy as (y & Ey & Hyv). rewrite Ey. cbn [bind].
  eexists. split; [reflexivity|]. cbn [query structured].
  split; [reflexivity|].
  match goal with
  | |- price_outcome _ _ _ (minPrice ?t) _ /\ _ =>
      assert (Hmin : minPrice t = lo);
      [|assert (Hmax : maxPrice t = hi); [|rewrite Hmin, Hmax]]
  end.
  { rewrite (trims_loop_frame minPrice), (models_chain_frame minPrice),
      (makes_loop_frame minPrice), (features_loop_frame minPrice),
      !(first_in_frame minPrice) by reflexivity.
    reflexivity. }
  { rewrite (trims_loop_frame maxPrice), (models_chain_frame maxPrice),
      (makes_loop_frame maxPrice), (features_loop_frame maxPrice),
      !(first_in_frame maxPrice) by reflexivity.
    reflexivity. }
  split; [exact Ho|]. split; [reflexivity|].
  split; [|split; [|split]].
  - rewrite (trims_loop_frame makes), (models_chain_frame makes) by reflexivity.
    rewrite makes_loop_makes.
    rewrite (features_loop_frame makes), !(first_in_frame makes) by reflexivity.
    reflexivity.
  - rewrite trims_loop_trims.
    rewrite (models_chain_frame trims), (makes_loop_frame trims),
      (features_loop_frame trims), !(first_in_frame trims) by reflexivity.
    reflexivity.
  - rewrite (trims_loop_frame models) by reflexivity.
    apply models_chain_models.
    rewrite (makes_loop_frame models), (features_loop_frame models),
      !(first_in_frame models) by reflexivity.
    reflexivity.
  - rewrite (trims_loop_frame year), (models_chain_frame year),
      (makes_loop_frame year), (features_loop_frame year),
      !(first_in_frame year) by reflexivity.
    exact Hyv.
Qed.

Lemma py_int_value (max_str_digits : nat) (t : text) (z : Z) :
  py_int max_str_digits t = Ok z -> z = digits_val t.
Proof.
  unfold py_int. destruct t as [|c t]; [intros H; discriminate H|].
  destruct (negb _); [intros H; discriminate H|].
  destruct (_ && _); intros H; [discriminate H|].
  injection H as <-. reflexivity.
Qed.

Lemma Ok_inj (A : Type) (a b : A) : Ok a = Ok b -> a = b.
Proof. intros H. injection H as ->. reflexivity. Qed.

(** ** Completeness and priorities of the matcher on simple patterns *)

Lemma mtch_cat (ic : bool) (A : Type) (r1 r2 : regex) (st : mstate)
    (k : mstate -> option A) :
  mtch ic (Cat r1 r2) st k = mtch ic r1 st (fun st' => mtch ic r2 st' k).
Proof. reflexivity. Qed.

Lemma orelse_not_none {A} (x : option A) (y : unit -> option A) :
  x <> None \/ y tt <> None -> orelse x y <> None.
Proof.
  destruct x as [a|]; cbn [orelse]; [discriminate|].
  intros [H|H]; [congruence | exact H].
Qed.

(** A repetition of a class finds every match of the declarative
    reading that the continuation accepts. *)
Lemma rep_loop_set_complete (ic : bool) (A : Type) (cs : cset)
    (k : mstate -> option A) (g : bool) :
  forall fuel lo hi st st',
    rmatch ic (Rep (Set_ cs) lo hi g) st st' -> k st' <> None ->
    length (ms_rest st) < fuel ->
    rep_loop (mtch ic (Set_ cs)) k g fuel lo hi st <> None.
Proof.
  induction fuel as [|fuel IH]; intros lo hi st st' Hr Hk Hf; [lia|].
  rewrite rep_loop_eq. cbv zeta.
  inversion Hr as [| | | | | | |r0 hi0 g0 st0
                  |r0 lo0 hi0 g0 st0 st1 st2 Hz Hb Hrest]; subst.
  - cbn [Nat.eqb].
    destruct g; apply orelse_not_none; [right | left]; exact Hk.
  - rewrite Hz.
    inversion Hb as [|s0 st0 c tl Erest Hc| | | | | | |]; subst.
    assert (Hmore :
      mtch ic (Set_ cs) st
        (fun st'0 =>
           if (lo =? 0) && (ms_pos st'0 =? ms_pos st) then None
           else rep_loop (mtch ic (Set_ cs)) k g fuel (pred lo) (hi_pred hi)
                  st'0) <> None).
    { cbn [mtch]. rewrite Erest, Hc. cbn [ms_pos].
      replace (S (ms_pos st) =? ms_pos st) with false
        by (symmetry; apply Nat.eqb_neq; lia).
      rewrite andb_false_r.
      eapply IH; [exact Hrest | exact Hk |].
      cbn [ms_rest]. rewrite Erest in Hf. cbn [length] in Hf. lia. }
    destruct g; apply orelse_not_none; [left | right]; exact Hmore.
Qed.

(** The matcher finds a match wherever the declarative reading has one,
    for a pattern whose repetitions repeat a class. *)
Lemma mtch_complete (ic : bool) (A : Type) (r : regex) :
  simple_reps r = true ->
  forall st st' (k : mstate -> option A),
    rmatch ic r st st' -> k st' <> None -> mtch ic r st k <> None.
Proof.
  induction r as [|s|r1 IH1 r2 IH2|r1 IH1 r2 IH2|r1 IH1 lo hi g|n r1 IH1|];
    intros Hs st st' k Hr Hk.
  - inversion Hr; subst. exact Hk.
  - inversion Hr as [|s0 st0 c tl Erest Hc| | | | | | |]; subst.
    cbn [mtch]. rewrite Erest, Hc. exact Hk.
  - cbn [simple_reps] in Hs. apply andb_true_iff in Hs. destruct Hs as [H1 H2].
    inversion Hr as [| |ra rb sa st1 sb Ha Hb| | | | | |]; subst.
    rewrite mtch_cat. eapply IH1; [exact H1 | exact Ha |].
    eapply IH2; [exact H2 | exact Hb | exact Hk].
  - cbn [simple_reps] in Hs. apply andb_true_iff in Hs. destruct Hs as [H1 H2].
    cbn [mtch]. apply orelse_not_none.
    inversion Hr as [| | |ra rb sa sb Ha|ra rb sa sb Hb| | | |]; subst.
    + left. eapply IH1; eassumption.
    + right. eapply IH2; eassumption.
  - destruct r1 as [|cs| | | | |]; try discriminate Hs.
    cbn [mtch]. eapply rep_loop_set_complete; [exact Hr | exact Hk | lia].
  - cbn [simple_reps] in Hs.
    inversion Hr as [| | | | |n0 r0 st0 st1 Hb| | |]; subst.
    cbn [mtch]. eapply IH1; [exact Hs | exact Hb | exact Hk].
  - inversion Hr as [| | | | | |st0 Hw| |]; subst.
    cbn [mtch]. rewrite Hw. exact Hk.
Qed.

(** A greedy repetition without upper bound, followed by nothing that
    can fail, reads the whole run of the class. *)
Lemma rep_loop_total (ic : bool) (A : Type) (cs : cset)
    (k : mstate -> option A) :
  (forall st, k st <> None) ->
  forall fuel st,
    rep_loop (mtch ic (Set_ cs)) k true fuel 0 None st <> None.
Proof.
  intros Hk fuel st. rewrite rep_loop_eq. cbv zeta.
  apply orelse_not_none. right. cbn [Nat.eqb]. apply Hk.
Qed.

Lemma rep_loop_set_greedy (ic : bool) (A : Type) (cs : cset)
    (k : mstate -> option A) :
  (forall st, k st <> None) ->
  forall fuel lo st a,
    length (ms_rest st) < fuel ->
    rep_loop (mtch ic (Set_ cs)) k true fuel lo None st = Some a ->
    exists st',
      rmatch ic (Rep (Set_ cs) lo None true) st st'
      /\ k st' = Some a
      /\ (forall c tl, ms_rest st' = c :: tl -> cs_mem ic cs c = false).
Proof.
  intros Hk. induction fuel as [|fuel IH]; intros lo st a Hf H; [lia|].
  rewrite rep_loop_eq in H. cbv zeta in H. cbn [hi_zero hi_pred mtch] in H.
  destruct (ms_rest st) as [|c tl] eqn:Erest.
  - cbn [orelse] in H. destruct lo as [|lo]; [|discriminate H].
    cbn [Nat.eqb] in H. exists st. split; [constructor|].
    split; [exact H|]. intros c tl E. rewrite Erest in E. discriminate E.
  - destruct (cs_mem ic cs c) eqn:Hc.
    + cbn [ms_pos] in H.
      replace (S (ms_pos st) =? ms_pos st) with false in H
        by (symmetry; apply Nat.eqb_neq; lia).
      rewrite andb_false_r in H.
      apply orelse_some in H. destruct H as [H|[Hn H]].
      * apply IH in H; [|cbn [ms_rest]; cbn [length] in Hf; lia].
        destruct H as (st' & Hr & Hka & Hmax).
        exists st'. split; [|split; assumption].
        eapply RM_RepMore; [reflexivity | | exact Hr].
        constructor; assumption.
      * destruct lo as [|lo]; [|discriminate H].
        exfalso. revert Hn. apply rep_loop_total. exact Hk.
    + cbn [orelse] in H. destruct lo as [|lo]; [|discriminate H].
      cbn [Nat.eqb] in H. exists st. split; [constructor|].
      split; [exact H|]. intros c' tl' E. rewrite Erest in E.
      inversion E; subst. exact Hc.
Qed.

Lemma mtch_grp_greedy (ic : bool) (n lo : nat) (cs : cset) (st a : mstate) :
  mtch ic (Grp n (Rep (Set_ cs) lo None true)) st (fun st' => Some st')
  = Some a ->
  exists st',
    rmatch ic (Rep (Set_ cs) lo None true) st st'
    /\ a = close_group n st st'
    /\ (forall c tl, ms_rest st' = c :: tl -> cs_mem ic cs c = false).
Proof.
  intros H. cbn [mtch] in H.
  apply rep_loop_set_greedy in H; [|discriminate|lia].
  destruct H as (st' & Hr & Hk & Hmax). exists st'.
  split; [exact Hr|]. split; [congruence | exact Hmax].
Qed.

(** [re.search] returns the match at the first position that has one:
    the position just before has none. *)
Lemma search_at_first (ic : bool) (r : regex) (rest : text) :
  forall (pos : nat) (prev : option ascii) (mt : match_obj),
    search_at ic r pos prev rest = Some mt ->
    exists pre rest',
      rest = pre ++ rest'
      /\ match_here ic r (pos + length pre) (last_char prev pre) rest'
         = Some mt
      /\ (forall p c, pre = p ++ [c] ->
            match_here ic r (pos + length p) (last_char prev p) (c :: rest')
            = None).
Proof.
  induction rest as [|c tl IH]; intros pos prev mt H; cbn [search_at] in H.
  - destruct (match_here ic r pos prev []) eqn:E; [|discriminate H].
    exists [], []. cbn [length last_char app]. rewrite Nat.add_0_r.
    split; [reflexivity|]. split; [congruence|].
    intros p c' Ep. destruct p; discriminate Ep.
  - destruct (match_here ic r pos prev (c :: tl)) eqn:E.
    + exists [], (c :: tl). cbn [length last_char app]. rewrite Nat.add_0_r.
      split; [reflexivity|]. split; [congruence|].
      intros p c' Ep. destruct p; discriminate Ep.
    + apply IH in H. destruct H as (pre & rest' & Er & Hm & Hfirst).
      exists (c :: pre), rest'. cbn [length last_char app].
      split; [rewrite Er; reflexivity|].
      split; [rewrite <- Nat.add_succ_comm; exact Hm|].
      intros p c' Ep. destruct p as [|x p].
      * cbn [app] in Ep. inversion Ep; subst.
        cbn [length last_char app] in *. rewrite Nat.add_0_r. exact E.
      * cbn [app] in Ep. inversion Ep; subst.
        cbn [length last_char]. rewrite <- Nat.add_succ_comm.
        apply Hfirst. reflexivity.
Qed.

(** A run of a class is a match of its repetition. *)
Lemma rmatch_rep_intro (ic : bool) (cs : cset) (g : bool) (w : text) :
  Forall (fun c => cs_mem ic cs c = true) w ->
  forall lo hi pos prev rest caps,
    lo <= length w ->
    match hi with Some h => length w <= h | None => True end ->
    rmatch ic (Rep (Set_ cs) lo hi g) (MState pos prev (w ++ rest) caps)
      (MState (pos + length w) (last_char prev w) rest caps).
Proof.
  induction 1 as [|c w Hc Hw IH]; intros lo hi pos prev rest caps Hlo Hhi.
  - cbn [length] in Hlo. replace lo with 0 by lia.
    cbn [length last_char app]. rewrite Nat.add_0_r. constructor.
  - cbn [length last_char app]. rewrite <- Nat.add_succ_comm.
    eapply RM_RepMore.
    + destruct hi as [[|h]|]; [cbn [length] in Hhi; lia | reflexivity
                              | reflexivity].
    + apply (@RM_Set ic cs (MState pos prev (c :: w ++ rest) caps) c
               (w ++ rest)); [reflexivity | exact Hc].
    + cbn [ms_pos ms_caps]. apply IH.
      * cbn [length] in Hlo. lia.
      * destruct hi as [h|]; cbn [hi_pred]; [cbn [length] in Hhi; lia | exact I].
Qed.

(** ** The two price patterns that read a range *)

Lemma dash_pattern_eq :
  pattern "\$?(\d+)\s*-\s*\$?(\d+)"
  = Cat dollar_sign (range_middle (str "-")).
Proof. vm_compute. reflexivity. Qed.

Lemma between_pattern_eq :
  pattern "between\s*\$?(\d+)\s*and\s*\$?(\d+)"
  = lits (str "between")
      (Cat blanks (Cat dollar_sign (range_middle (str "and")))).
Proof. vm_compute. reflexivity. Qed.

Lemma blank_forall (w : text) :
  Forall (fun c => cs_mem false CSpace c = true) w <-> blank w.
Proof.
  unfold blank. rewrite forallb_forall, Forall_forall. reflexivity.
Qed.

Lemma numeral_forall (w : text) :
  Forall (fun c => cs_mem false CDigit c = true) w /\ 1 <= length w
  <-> numeral w.
Proof.
  unfold numeral, all_digits. rewrite forallb_forall, Forall_forall.
  split; intros [H Hl]; (split; [exact H|]).
  - intros ->. cbn [length] in Hl. lia.
  - destruct w; [congruence | cbn [length]; lia].
Qed.

Lemma cs_mem_lit_eq (x c : ascii) : cs_mem false (CLit x) c = true <-> c = x.
Proof.
  cbn [cs_mem]. destruct (ascii_dec c x); split; congruence.
Qed.

Lemma opt_dollar_forall (d : text) :
  Forall (fun c => cs_mem false (CLit "$") c = true) d /\ length d <= 1
  <-> opt_dollar d.
Proof.
  unfold opt_dollar. split.
  - intros [H Hl]. destruct d as [|c [|c' d]]; [left; reflexivity | |
      cbn [length] in Hl; lia].
    right. inversion H as [|x l Hc _]; subst.
    apply cs_mem_lit_eq in Hc. subst c. reflexivity.
  - intros [->| ->]; (split; [|cbn; lia]); [constructor|].
    constructor; [|constructor]. apply cs_mem_lit_eq. reflexivity.
Qed.

(** One step of the matcher through a part of a pattern: what it read,
    where it stands, the groups it recorded. *)
Lemma step_rep (ic : bool) (A : Type) (cs : cset) (lo : nat)
    (hi : option nat) (g : bool) (r : regex) (st : mstate)
    (k : mstate -> option A) (a : A) :
  mtch ic (Cat (Rep (Set_ cs) lo hi g) r) st k = Some a ->
  exists w st',
    ms_rest st = w ++ ms_rest st'
    /\ ms_pos st' = ms_pos st + length w
    /\ ms_caps st' = ms_caps st
    /\ Forall (fun c => cs_mem ic cs c = true) w
    /\ lo <= length w
    /\ match hi with Some h => length w <= h | None => True end
    /\ mtch ic r st' k = Some a.
Proof.
  intros H. rewrite mtch_cat in H. apply mtch_sound in H.
  destruct H as (st' & Hr & H). apply rmatch_rep_set in Hr.
  destruct Hr as (w & E & Hp & Hf & Hc & Hl & Hh).
  exists w, st'. repeat split; assumption.
Qed.

Lemma step_lits (A : Type) (word : text) (r : regex) :
  forall (st : mstate) (k : mstate -> option A) (a : A),
    mtch false (lits word r) st k = Some a ->
    exists st',
      ms_rest st = word ++ ms_rest st'
      /\ ms_pos st' = ms_pos st + length word
      /\ ms_caps st' = ms_caps st
      /\ mtch false r st' k = Some a.
Proof.
  induction word as [|x word IH]; intros st k a H; cbn [lits] in H.
  - exists st. cbn [app length]. rewrite Nat.add_0_r. auto.
  - rewrite mtch_cat in H. cbn [mtch] in H.
    destruct (ms_rest st) as [|c tl] eqn:E; [discriminate H|].
    destruct (cs_mem false (CLit x) c) eqn:Hc; [|discriminate H].
    apply cs_mem_lit_eq in Hc. subst c.
    apply IH in H. destruct H as (st' & E' & Hp & Hcaps & H).
    cbn [ms_rest ms_pos ms_caps] in *.
    exists st'. rewrite E', Hp. cbn [app length].
    repeat split; [lia | assumption | assumption].
Qed.

Lemma step_group (ic : bool) (A : Type) (n lo : nat) (cs : cset)
    (hi : option nat) (g : bool) (r : regex) (st : mstate)
    (k : mstate -> option A) (a : A) :
  mtch ic (Cat (Grp n (Rep (Set_ cs) lo hi g)) r) st k = Some a ->
  exists w st',
    ms_rest st = w ++ ms_rest st'
    /\ ms_pos st' = ms_pos st + length w
    /\ ms_caps st' = (n, (ms_pos st, w)) :: ms_caps st
    /\ Forall (fun c => cs_mem ic cs c = true) w
    /\ lo <= length w
    /\ mtch ic r st' k = Some a.
Proof.
  intros H. rewrite mtch_cat in H. apply mtch_sound in H.
  destruct H as (st' & Hr & H).
  inversion Hr as [| | | | |n0 r0 st0 st1 Hb| | |]; subst.
  apply rmatch_rep_set in Hb.
  destruct Hb as (w & E & Hp & Hf & Hc & Hl & _).
  exists w, (close_group n st st1). unfold close_group at 1 2 3.
  cbn [ms_rest ms_pos ms_caps].
  rewrite Hp, E, Hc.
  replace (ms_pos st + length w - ms_pos st) with (length w) by lia.
  rewrite firstn_app_exact. repeat split; assumption.
Qed.

Lemma last_group (ic : bool) (n lo : nat) (cs : cset) (st a : mstate) :
  mtch ic (Grp n (Rep (Set_ cs) lo None true)) st (fun st' => Some st')
  = Some a ->
  exists w,
    ms_rest st = w ++ ms_rest a
    /\ ms_caps a = (n, (ms_pos st, w)) :: ms_caps st
    /\ Forall (fun c => cs_mem ic cs c = true) w
    /\ lo <= length w
    /\ (forall c tl, ms_rest a = c :: tl -> cs_mem ic cs c = false).
Proof.
  intros H. apply mtch_grp_greedy in H.
  destruct H as (st' & Hr & -> & Hmax).
  apply rmatch_rep_set in Hr.
  destruct Hr as (w & E & Hp & Hf & Hc & Hl & _).
  exists w. unfold close_group. cbn [ms_rest ms_pos ms_caps].
  rewrite Hp, E, Hc.
  replace (ms_pos st + length w - ms_pos st) with (length w) by lia.
  rewrite firstn_app_exact. repeat split; assumption.
Qed.

(** What a match of [range_middle word] reads, and the groups it
    records. *)
Lemma range_middle_reads (word : text) (st a : mstate) :
  mtch false (range_middle word) st (fun st' => Some st') = Some a ->
  exists g1 w1 w2 d2 g2 b2,
    ms_rest st = g1 ++ w1 ++ word ++ w2 ++ d2 ++ g2 ++ ms_rest a
    /\ numeral g1 /\ blank w1 /\ blank w2 /\ opt_dollar d2 /\ numeral g2
    /\ no_digit_at_start (ms_rest a)
    /\ ms_caps a = (2, (b2, g2)) :: (1, (ms_pos st, g1)) :: ms_caps st.
Proof.
  intros H. unfold range_middle, digits_group in H.
  apply step_group in H.
  destruct H as (g1 & s1 & E1 & P1 & C1 & F1 & L1 & H).
  unfold blanks in H. apply step_rep in H.
  destruct H as (w1 & s2 & E2 & P2 & C2 & F2 & _ & _ & H).
  apply step_lits in H. destruct H as (s3 & E3 & P3 & C3 & H).
  unfold range_end, blanks in H. apply step_rep in H.
  destruct H as (w2 & s4 & E4 & P4 & C4 & F4 & _ & _ & H).
  unfold dollar_sign in H. apply step_rep in H.
  destruct H as (d2 & s5 & E5 & P5 & C5 & F5 & _ & L5 & H).
  unfold digits_group in H. apply last_group in H.
  destruct H as (g2 & E6 & C6 & F6 & L6 & Hmax).
  exists g1, w1, w2, d2, g2, (ms_pos s5).
  split; [rewrite E1, E2, E3, E4, E5, E6; reflexivity|].
  split; [apply numeral_forall; auto|].
  split; [apply blank_forall; assumption|].
  split; [apply blank_forall; assumption|].
  split; [apply opt_dollar_forall; auto|].
  split; [apply numeral_forall; auto|].
  split; [intros c p E; exact (Hmax c p E)|].
  rewrite C6, C5, C4, C3, C2, C1. reflexivity.
Qed.

(** Conversely, such a text has a match of [range_middle word]. *)
Lemma rmatch_lits_intro (word : text) (r : regex) :
  forall pos prev rest caps st',
    rmatch false r
      (MState (pos + length word) (last_char prev word) rest caps) st' ->
    rmatch false (lits word r) (MState pos prev (word ++ rest) caps) st'.
Proof.
  induction word as [|x word IH]; intros pos prev rest caps st' H;
    cbn [lits app length last_char] in *.
  - rewrite Nat.add_0_r in H. exact H.
  - eapply RM_Cat.
    + apply (@RM_Set false (CLit x) (MState pos prev (x :: word ++ rest) caps)
               x (word ++ rest)); [reflexivity|].
      apply cs_mem_lit_eq. reflexivity.
    + cbn [ms_pos ms_caps]. apply IH.
      rewrite <- Nat.add_succ_comm in H. exact H.
Qed.

Lemma range_middle_matches (word g1 w1 w2 d2 g2 post : text) :
  numeral g1 -> blank w1 -> blank w2 -> opt_dollar d2 -> numeral g2 ->
  forall pos prev caps,
    exists st',
      rmatch false (range_middle word)
        (MState pos prev (g1 ++ w1 ++ word ++ w2 ++ d2 ++ g2 ++ post) caps)
        st'.
Proof.
  intros N1 B1 B2 D2 N2 pos prev caps.
  apply numeral_forall in N1, N2. apply blank_forall in B1, B2.
  apply opt_dollar_forall in D2.
  destruct N1 as [F1 L1]. destruct N2 as [F2 L2]. destruct D2 as [FD LD].
  eexists. unfold range_middle, range_end, digits_group, blanks, dollar_sign.
  eapply RM_Cat.
  { apply RM_Grp. apply rmatch_rep_intro; [exact F1 | exact L1 | exact I]. }
  unfold close_group. cbn [ms_pos ms_prev ms_rest ms_caps].
  eapply RM_Cat.
  { apply rmatch_rep_intro; [exact B1 | lia | exact I]. }
  apply rmatch_lits_intro.
  eapply RM_Cat.
  { apply rmatch_rep_intro; [exact B2 | lia | exact I]. }
  eapply RM_Cat.
  { apply rmatch_rep_intro; [exact FD | lia | exact LD]. }
  apply RM_Grp. apply rmatch_rep_intro; [exact F2 | exact L2 | exact I].
Qed.

(** A match of the pattern [\$?(\d+)\s*-\s*\$?(\d+)] found by
    [re.search] reads a range of two whole numbers. *)
Lemma dash_range (s : text) (mt : match_obj) :
  search false (Cat dollar_sign (range_middle (str "-"))) s = Some mt ->
  exists g1 g2 b1 b2,
    mt_caps mt = [(2, (b2, g2)); (1, (b1, g1))] /\ written_range s g1 g2.
Proof.
  unfold search. intros H. apply search_at_first in H.
  destruct H as (pre & rest' & Es & Hm & Hfirst).
  unfold match_here in Hm.
  destruct (mtch false _ _ _) as [st'|] eqn:E; [|discriminate Hm].
  apply (f_equal (option_map mt_caps)) in Hm. cbn [option_map mt_caps] in Hm.
  unfold dollar_sign in E at 1. apply step_rep in E.
  destruct E as (d1 & s1 & E1 & P1 & C1 & F1 & _ & L1 & E).
  apply range_middle_reads in E.
  destruct E as (g1 & w1 & w2 & d2 & g2 & b2 & E2 & N1 & B1 & B2 & D2 & N2
                 & Hpost & Hcaps).
  cbn [ms_rest ms_caps] in E1, C1.
  assert (D1 : opt_dollar d1) by (apply opt_dollar_forall; auto).
  exists g1, g2, (ms_pos s1), b2. split.
  { rewrite Hcaps, C1 in Hm. injection Hm as <-. reflexivity. }
  apply (@DashRange s g1 g2 pre d1 w1 w2 d2 (ms_rest st')); try assumption.
  - rewrite Es, E1, E2. reflexivity.
  - intros p c Ep. destruct D1 as [->| ->].
    + rewrite app_nil_r in Ep. subst pre.
      destruct (is_digit c) eqn:Hd; [exfalso | reflexivity].
      specialize (Hfirst p c eq_refl).
      assert (Hne : mtch false (Cat dollar_sign (range_middle (str "-")))
                      (MState (0 + length p) (last_char None p) (c :: rest') [])
                      (fun st' => Some st') <> None).
      { cbn [app] in E1. rewrite E1, E2.
        destruct (@range_middle_matches (str "-") (c :: g1) w1 w2 d2 g2
                    (ms_rest st')
                    ltac:(split; [cbn [all_digits forallb]; rewrite Hd;
                                    exact (proj1 N1) | discriminate])
                    B1 B2 D2 N2 (0 + length p) (last_char None p) [])
          as (st'' & Hr).
        apply (@mtch_complete false mstate
                 (Cat dollar_sign (range_middle (str "-"))) eq_refl _ st'');
          [|discriminate].
        eapply RM_Cat; [apply RM_RepStop | exact Hr]. }
      unfold match_here in Hfirst.
      destruct (mtch false _ _ _); [discriminate Hfirst|].
      apply Hne. reflexivity.
    + apply app_inj_tail in Ep. destruct Ep as [_ <-]. reflexivity.
Qed.

(** A match of [between\s*\$?(\d+)\s*and\s*\$?(\d+)] reads a range of
    two whole numbers. *)
Lemma between_range (s : text) (mt : match_obj) :
  search false
    (lits (str "between")
       (Cat blanks (Cat dollar_sign (range_middle (str "and"))))) s
  = Some mt ->
  exists g1 g2 b1 b2,
    mt_caps mt = [(2, (b2, g2)); (1, (b1, g1))] /\ written_range s g1 g2.
Proof.
  unfold search. intros H. apply search_at_first in H.
  destruct H as (pre & rest' & Es & Hm & _).
  unfold match_here in Hm.
  destruct (mtch false _ _ _) as [st'|] eqn:E; [|discriminate Hm].
  apply (f_equal (option_map mt_caps)) in Hm. cbn [option_map mt_caps] in Hm.
  apply step_lits in E. destruct E as (s0 & E0 & P0 & C0 & E).
  unfold blanks in E at 1. apply step_rep in E.
  destruct E as (w0 & s1 & Ew & Pw & Cw & Fw & _ & _ & E).
  unfold dollar_sign in E at 1. apply step_rep in E.
  destruct E as (d1 & s2 & E1 & P1 & C1 & F1 & _ & L1 & E).
  apply range_middle_reads in E.
  destruct E as (g1 & w1 & w2 & d2 & g2 & b2 & E2 & N1 & B1 & B2 & D2 & N2
                 & Hpost & Hcaps).
  cbn [ms_rest ms_caps] in E0, C0.
  exists g1, g2, (ms_pos s2), b2. split.
  { rewrite Hcaps, C1, Cw, C0 in Hm. injection Hm as <-. reflexivity. }
  apply (@BetweenRange s g1 g2 pre w0 d1 w1 w2 d2 (ms_rest st'));
    try assumption.
  - rewrite Es, E0, Ew, E1, E2. reflexivity.
  - apply blank_forall. exact Fw.
  - apply opt_dollar_forall. auto.
Qed.

(** When the price loop sets both prices, a pattern with two groups
    matched and both groups were read as integers. *)
Lemma price_loop_both (max_str_digits : nat) (query_lower : text) (a b : Z) :
  forall patterns s0 s',
    price_loop max_str_digits patterns query_lower s0 = Ok s' ->
    minPrice s0 = None ->
    minPrice s' = Some a -> maxPrice s' = Some b ->
    exists p mt,
      In p patterns /\ search false p query_lower = Some mt
      /\ count_groups p = 2
      /\ int_group max_str_digits mt 1 = Ok a
      /\ int_group max_str_digits mt 2 = Ok b.
Proof.
  induction patterns as [|p ps IH]; intros s0 s' H H0 Ha Hb;
    cbn [price_loop] in H.
  - apply Ok_inj in H. subst s'. congruence.
  - destruct (search false p query_lower) as [mt|] eqn:Es.
    + pose proof (@search_inv false p query_lower mt Es)
        as (st0 & st' & _ & _ & _ & Hmt).
      assert (Hng : mt_ngroups mt = count_groups p)
        by (rewrite Hmt; reflexivity).
      rewrite Hng in H.
      destruct ((count_groups p =? 2) && group_truthy mt 2) eqn:Eb.
      * apply andb_true_iff in Eb. destruct Eb as [Ec _].
        apply Nat.eqb_eq in Ec.
        destruct (int_group max_str_digits mt 1) as [lo|] eqn:E1;
          cbn [bind] in H; [|discriminate H].
        destruct (int_group max_str_digits mt 2) as [hi|] eqn:E2;
          cbn [bind] in H; [|discriminate H].
        apply Ok_inj in H. subst s'.
        exists p, mt. split; [left; reflexivity|].
        split; [exact Es|]. split; [exact Ec|].
        destruct s0; cbn in Ha, Hb. split; congruence.
      * destruct (int_group max_str_digits mt 1) as [hi|];
          cbn [bind] in H; [|discriminate H].
        apply Ok_inj in H. subst s'.
        destruct s0; cbn in Ha, H0. congruence.
    + destruct (IH _ _ H H0 Ha Hb) as (p' & mt & Hin & Hs & Hc & H1 & H2).
      exists p', mt. split; [right; exact Hin | auto].
Qed.

Lemma int_group_caps (max_str_digits : nat) (mt : match_obj) (n : nat)
    (b : nat) (g : text) (z : Z) :
  lookup_cap (S n) (mt_caps mt) = Some (b, g) ->
  int_group max_str_digits mt (S n) = Ok z -> z = digits_val g.
Proof.
  intros L. unfold int_group, group. rewrite L. cbn [option_map snd].
  apply py_int_value.
Qed.

(** Both prices set: they are the two numbers of a range written in the
    text. *)
Lemma price_loop_range (max_str_digits : nat) (query_lower : text)
    (s' : Structured) (a b : Z) :
  price_loop max_str_digits price_patterns query_lower initial = Ok s' ->
  minPrice s' = Some a -> maxPrice s' = Some b ->
  exists g1 g2,
    written_range query_lower g1 g2
    /\ a = digits_val g1 /\ b = digits_val g2.
Proof.
  intros H Ha Hb.
  destruct (@price_loop_both max_str_digits query_lower a b price_patterns
              initial s' H eq_refl Ha Hb)
    as (p & mt & Hin & Hs & Hc & H1 & H2).
  assert (Hr : exists g1 g2 b1 b2,
             mt_caps mt = [(2, (b2, g2)); (1, (b1, g1))]
             /\ written_range query_lower g1 g2).
  { unfold price_patterns in Hin. cbn [In] in Hin.
    destruct Hin as [<-|[<-|[<-|[<-|[<-|[<-|[<-|[]]]]]]]];
      try (vm_compute in Hc; discriminate Hc).
    - rewrite dash_pattern_eq in Hs. apply dash_range. exact Hs.
    - rewrite between_pattern_eq in Hs. apply between_range. exact Hs. }
  destruct Hr as (g1 & g2 & b1 & b2 & Hcaps & Hw).
  exists g1, g2. split; [exact Hw|]. split.
  - eapply int_group_caps; [|exact H1]. rewrite Hcaps. reflexivity.
  - eapply int_group_caps; [|exact H2]. rewrite Hcaps. reflexivity.
Qed.

(** ** parse_vehicle_query.py: the claims *)

(** C1 (as stated, refuted). The range "$40000-$20000" is read as
    [minPrice = 40000] and [maxPrice = 20000]: both are set and
    [minPrice > maxPrice]. And with the interpreter's default bound on
    integer conversions, a query whose number has 4301 digits raises. *)
Lemma price_order_counterexample :
  (exists p,
     parse_with_patterns default_max_str_digits (str "$40000-$20000")
       sample_catalog = Ok p
     /\ minPrice (structured p) = Some 40000%Z
     /\ maxPrice (structured p) = Some 20000%Z
     /\ ~ (40000 <= 20000)%Z)
  /\ parse_with_patterns default_max_str_digits long_number_query
       sample_catalog = Raise ValueError.
Proof.
  split.
  - eexists. split; [vm_compute; reflexivity|].
    split; [reflexivity|]. split; [reflexivity|]. lia.
  - vm_compute. reflexivity.
Qed.

(** C1 (amended). For every text and every catalog, [parse_with_patterns]
    returns a query without raising, provided the bound on integer
    conversions is lifted or not below the length of the text. The two
    prices are never negative, and when both are set they are the two
    numbers of a range written in the lowered text ("N - M" or "between N
    and M", each a whole run of digits), [minPrice] the one written first
    and [maxPrice] the one written second - in that order, whichever is
    larger. *)
Theorem parse_with_patterns_returns (max_str_digits : nat) (q : text)
    (catalog : Catalog) :
  max_str_digits = 0 \/ length q <= max_str_digits ->
  exists p,
    parse_with_patterns max_str_digits q catalog = Ok p
    /\ (forall a, minPrice (structured p) = Some a -> (0 <= a)%Z)
    /\ (forall b, maxPrice (structured p) = Some b -> (0 <= b)%Z)
    /\ (forall a b,
          minPrice (structured p) = Some a ->
          maxPrice (structured p) = Some b ->
          exists g1 g2,
            written_range (lower q) g1 g2
            /\ a = digits_val g1 /\ b = digits_val g2).
Proof.
  intros Hm.
  destruct (@parse_with_patterns_spec max_str_digits q catalog Hm)
    as (p & E & _ & Ho & Hloop & _).
  exists p. split; [exact E|].
  split; [|split].
  - intros a Ha. rewrite Ha in Ho.
    inversion Ho; subst; apply digits_val_nonneg.
  - intros b Hb. rewrite Hb in Ho.
    inversion Ho; subst; apply digits_val_nonneg.
  - intros a b Ha Hb. rewrite Ha, Hb in Hloop.
    eapply price_loop_range; [exact Hloop | reflexivity | reflexivity].
Qed.

Lemma parse_with_patterns_returns_witness :
  exists p,
    parse_with_patterns default_max_str_digits
      (str "$20000-$40000 black Toyota RAV4 with heated seats")
      sample_catalog = Ok p
    /\ (forall a, minPrice (structured p) = Some a -> (0 <= a)%Z)
    /\ (forall b, maxPrice (structured p) = Some b -> (0 <= b)%Z)
    /\ (forall a b,
          minPrice (structured p) = Some a ->
          maxPrice (structured p) = Some b ->
          exists g1 g2,
            written_range
              (lower (str "$20000-$40000 black Toyota RAV4 with heated seats"))
              g1 g2
            /\ a = digits_val g1 /\ b = digits_val g2).
Proof.
  apply (@parse_with_patterns_returns default_max_str_digits
           (str "$20000-$40000 black Toyota RAV4 with heated seats")
           sample_catalog).
  right. vm_compute. lia.
Defined.

(** What the price patterns and the year pattern find in
    "GMC Sierra Denali under $50000". *)
Lemma scenario1_price_loop (max_str_digits : nat) :
  max_str_digits = 0 \/ 5 <= max_str_digits ->
  price_loop max_str_digits price_patterns
    (lower (str "GMC Sierra Denali under $50000")) initial
  = Ok (set_maxPrice (Some 50000%Z) initial).
Proof.
  intros Hm.
  assert (Es : exists mt,
             search false (pattern "under\s*\$?(\d+)")
               (lower (str "GMC Sierra Denali under $50000")) = Some mt
             /\ mt_ngroups mt = 1 /\ group mt 1 = Some (str "50000")).
  { eexists. split; [vm_compute; reflexivity|]. split; reflexivity. }
  destruct Es as (mt & Es & Hn & Hg).
  unfold price_patterns. cbn [price_loop]. rewrite Es, Hn. cbn [Nat.eqb andb].
  unfold int_group. rewrite Hg.
  rewrite py_int_digits; [reflexivity | reflexivity | simpl; lia |].
  destruct Hm; [left; assumption | right; simpl; lia].
Qed.

(** C5. "GMC Sierra Denali under $50000" gives [makes = ["GMC"]],
    [models = ["Sierra"]], [trims = ["Denali"]], [maxPrice = 50000], and
    neither a year nor a [minPrice], with every catalog. *)
Theorem scenario1_gmc_sierra_denali (max_str_digits : nat) (catalog : Catalog) :
  max_str_digits = 0 \/ 30 <= max_str_digits ->
  exists p,
    parse_with_patterns max_str_digits
      (str "GMC Sierra Denali under $50000") catalog = Ok p
    /\ makes (structured p) = [str "GMC"]
    /\ models (structured p) = [str "Sierra"]
    /\ trims (structured p) = [str "Denali"]
    /\ maxPrice (structured p) = Some 50000%Z
    /\ minPrice (structured p) = None
    /\ year (structured p) = None.
Proof.
  intros Hm.
  assert (Hm' : max_str_digits = 0
                \/ length (str "GMC Sierra Denali under $50000") <= max_str_digits).
  { destruct Hm; [left; assumption | right; simpl; lia]. }
  destruct (@parse_with_patterns_spec max_str_digits _ catalog Hm')
    as (p & E & _ & _ & Hpl & Hmk & Htr & Hmd & Hy).
  exists p. split; [exact E|].
  split; [rewrite Hmk; vm_compute; reflexivity|].
  split; [rewrite Hmd; vm_compute; reflexivity|].
  split; [rewrite Htr; vm_compute; reflexivity|].
  rewrite scenario1_price_loop in Hpl
    by (destruct Hm; [left; assumption | right; lia]).
  apply (f_equal (fun r => match r with
                           | Ok s => (minPrice s, maxPrice s)
                           | Raise _ => (None, None)
                           end)) in Hpl.
  cbn in Hpl. inversion Hpl as [[Hmin Hmax]].
  split; [reflexivity|]. split; [reflexivity|].
  clear E. rewrite Hy. vm_compute. reflexivity.
Qed.

Lemma scenario1_gmc_sierra_denali_witness :
  exists p,
    parse_with_patterns default_max_str_digits
      (str "GMC Sierra Denali under $50000") sample_catalog = Ok p
    /\ makes (structured p) = [str "GMC"]
    /\ models (structured p) = [str "Sierra"]
    /\ trims (structured p) = [str "Denali"]
    /\ maxPrice (structured p) = Some 50000%Z
    /\ minPrice (structured p) = None
    /\ year (structured p) = None.
Proof.
  apply (@scenario1_gmc_sierra_denali default_max_str_digits sample_catalog).
  right. unfold default_max_str_digits. lia.
Defined.

(** Scenario 2 of the specification, with the sample catalog. *)
Example scenario2_black_rav4 :
  exists p,
    parse_with_patterns default_max_str_digits
      (str "$20000-$40000 black Toyota RAV4 with heated seats")
      sample_catalog = Ok p
    /\ minPrice (structured p) = Some 20000%Z
    /\ maxPrice (structured p) = Some 40000%Z
    /\ exteriorColor (structured p) = Some (str "Black")
    /\ makes (structured p) = [str "Toyota"]
    /\ models (structured p) = [str "RAV4"]
    /\ features (structured p) = [str "Heated Seats"].
Proof.
  eexists. split; [vm_compute; reflexivity|]. repeat split.
Qed.

(** ** The [makes] of the query *)

Lemma nodupb_NoDup (l : list text) : nodupb l = true -> NoDup l.
Proof.
  induction l as [|x l IH]; simpl; intros H; [constructor|].
  apply andb_true_iff in H. destruct H as [Hx Hl].
  constructor; [|auto].
  intros Hin. apply negb_true_iff in Hx.
  assert (existsb (text_eqb x) l = true); [|congruence].
  apply existsb_exists. exists x. split; [assumption|].
  unfold text_eqb. destruct (list_eq_dec ascii_dec x x); congruence.
Qed.

(** Keeping some items of a table whose proper names are distinct leaves
    distinct proper names. *)
Lemma kept_names_distinct (keep : text * text -> bool)
    (items : list (text * text)) :
  NoDup (map snd items) -> NoDup (map snd (filter keep items)).
Proof.
  induction items as [|item rest IH]; cbn [filter map]; intros Hnd;
    [constructor|].
  inversion Hnd as [|y ys Hfresh Hrest]; subst.
  destruct (keep item); cbn [map]; [|apply IH, Hrest].
  constructor; [|apply IH, Hrest].
  intros Hin. apply Hfresh.
  apply in_map_iff in Hin. destruct Hin as (z & Hz & Hzin).
  apply filter_In in Hzin.
  apply in_map_iff. exists z. tauto.
Qed.

(** Filtering a list in which an item fails the test is filtering the
    list without the item. *)
Lemma filter_without {A} (p : A -> bool) (l1 l2 : list A) (x : A) :
  p x = false -> filter p (l1 ++ x :: l2) = filter p (l1 ++ l2).
Proof.
  intros H. rewrite !filter_app. simpl. rewrite H. reflexivity.
Qed.

(** C10 (as stated, refuted). A query with both "chevy" and "chevrolet"
    lists "Chevrolet" twice. *)
Lemma makes_duplicate_counterexample :
  exists p,
    parse_with_patterns default_max_str_digits
      (str "chevy or chevrolet") sample_catalog = Ok p
    /\ makes (structured p) = [str "Chevrolet"; str "Chevrolet"]
    /\ ~ NoDup (makes (structured p)).
Proof.
  eexists. split; [vm_compute; reflexivity|].
  split; [reflexivity|].
  intros H. inversion H as [|x l Hnotin _]; subst.
  apply Hnotin. left. reflexivity.
Qed.

(** C10 (amended). [makes] holds, in the order of the alias table, the
    proper name of each alias that occurs in the lowered text; it has no
    duplicate unless the text contains both "chevrolet" and "chevy". *)
Theorem makes_in_table_order (max_str_digits : nat) (q : text)
    (catalog : Catalog) :
  max_str_digits = 0 \/ length q <= max_str_digits ->
  exists p,
    parse_with_patterns max_str_digits q catalog = Ok p
    /\ makes (structured p)
       = map snd (filter (occurs (lower q)) common_makes)
    /\ (lit_in "chevrolet" (lower q) = false
        \/ lit_in "chevy" (lower q) = false ->
        NoDup (makes (structured p))).
Proof.
  intros Hm.
  destruct (@parse_with_patterns_spec max_str_digits q catalog Hm)
    as (p & E & _ & _ & _ & Hmk & _).
  exists p. split; [exact E|]. split; [exact Hmk|].
  rewrite Hmk. intros [H|H].
  - change common_makes with
      ([(str "gmc", str "GMC"); (str "ford", str "Ford")]
       ++ (str "chevrolet", str "Chevrolet")
       :: skipn 3 common_makes).
    rewrite filter_without by exact H.
    apply kept_names_distinct, nodupb_NoDup. vm_compute. reflexivity.
  - change common_makes with
      (firstn 3 common_makes
       ++ (str "chevy", str "Chevrolet") :: skipn 4 common_makes).
    rewrite filter_without by exact H.
    apply kept_names_distinct, nodupb_NoDup. vm_compute. reflexivity.
Qed.

Lemma makes_in_table_order_witness :
  exists p,
    parse_with_patterns default_max_str_digits
      (str "Ford F-150 or Chevy Silverado") sample_catalog = Ok p
    /\ makes (structured p)
       = map snd (filter (occurs (lower (str "Ford F-150 or Chevy Silverado")))
                         common_makes)
    /\ (lit_in "chevrolet" (lower (str "Ford F-150 or Chevy Silverado")) = false
        \/ lit_in "chevy" (lower (str "Ford F-150 or Chevy Silverado")) = false ->
        NoDup (makes (structured p))).
Proof.
  apply (@makes_in_table_order default_max_str_digits
           (str "Ford F-150 or Chevy Silverado") sample_catalog).
  right. vm_compute. lia.
Defined.

(** ** scrape-autotrader-cdp.py: the deduplication *)

Lemma text_eqb_eq (a b : text) : text_eqb a b = true <-> a = b.
Proof.
  unfold text_eqb. destruct (list_eq_dec ascii_dec a b); split;
    congruence.
Qed.

Lemma mem_In (v : text) (seen : list text) : mem v seen = true <-> In v seen.
Proof.
  unfold mem. rewrite existsb_exists. split.
  - intros (x & Hx & He). apply text_eqb_eq in He. subst. assumption.
  - intros H. exists v. split; [assumption | apply text_eqb_eq; reflexivity].
Qed.

(** One step of the loop, read through [link_vehicle_id]. *)
Lemma dedup_step_spec (st : dedup_state) (listing : LinkElement) h :
  get_attribute_href listing = Ok h ->
  exists skipped,
    dedup_step st listing
    = Ok match link_vehicle_id listing with
         | Some v =>
             if mem v (seen_vehicle_ids st)
             then {| seen_vehicle_ids := seen_vehicle_ids st;
                     unique_listings := unique_listings st;
                     skipped_count := skipped |}
             else {| seen_vehicle_ids := v :: seen_vehicle_ids st;
                     unique_listings := unique_listings st ++ [listing];
                     skipped_count := skipped |}
         | None => {| seen_vehicle_ids := seen_vehicle_ids st;
                      unique_listings := unique_listings st;
                      skipped_count := skipped |}
         end.
Proof.
  intros Hh. unfold dedup_step, link_vehicle_id. rewrite Hh. cbn [bind].
  destruct h as [[|c u]|].
  - exists (skipped_count st). destruct st; reflexivity.
  - destruct (vehicle_id_of_url (c :: u)) as [v|].
    + destruct (mem v (seen_vehicle_ids st)); eexists; reflexivity.
    + exists (skipped_count st). destruct st; reflexivity.
  - exists (skipped_count st). destruct st; reflexivity.
Qed.

(** The loop keeps what it had and adds the first-seen listings. *)
Lemma dedup_loop_spec (listings : list LinkElement) :
  (forall l, In l listings -> exists h, get_attribute_href l = Ok h) ->
  forall st, exists st',
    dedup_loop listings st = Ok st'
    /\ unique_listings st'
       = unique_listings st ++ first_seen (seen_vehicle_ids st) listings.
Proof.
  induction listings as [|l rest IH]; intros Hr st.
  - exists st. split; [reflexivity | symmetry; apply app_nil_r].
  - destruct (Hr l (or_introl eq_refl)) as [h Hh].
    destruct (dedup_step_spec st l Hh) as [skipped Hs].
    cbn [dedup_loop]. rewrite Hs. cbn [bind first_seen].
    assert (Hr' : forall x, In x rest -> exists h, get_attribute_href x = Ok h)
      by (intros x Hx; apply Hr; right; exact Hx).
    destruct (link_vehicle_id l) as [v|].
    + destruct (mem v (seen_vehicle_ids st)).
      * destruct (IH Hr' {| seen_vehicle_ids := seen_vehicle_ids st;
                            unique_listings := unique_listings st;
                            skipped_count := skipped |}) as (st' & E & U).
        exists st'. split; assumption.
      * destruct (IH Hr' {| seen_vehicle_ids := v :: seen_vehicle_ids st;
                            unique_listings := unique_listings st ++ [l];
                            skipped_count := skipped |}) as (st' & E & U).
        exists st'. split; [assumption|].
        rewrite U. cbn. rewrite <- app_assoc. reflexivity.
    + destruct (IH Hr' {| seen_vehicle_ids := seen_vehicle_ids st;
                          unique_listings := unique_listings st;
                          skipped_count := skipped |}) as (st' & E & U).
      exists st'. split; assumption.
Qed.

Lemma dedupe_first_seen (listings : list LinkElement) :
  (forall l, In l listings -> exists h, get_attribute_href l = Ok h) ->
  dedupe listings = Ok (first_seen [] listings).
Proof.
  intros Hr. unfold dedupe.
  destruct (dedup_loop_spec listings Hr
              {| seen_vehicle_ids := []; unique_listings := [];
                 skipped_count := 0 |}) as (st' & E & U).
  rewrite E. cbn [bind]. rewrite U. reflexivity.
Qed.

Lemma first_seen_subseq (listings : list LinkElement) :
  forall seen, subseq (first_seen seen listings) listings.
Proof.
  induction listings as [|l rest IH]; intros seen; simpl; [constructor|].
  destruct (link_vehicle_id l) as [v|]; [|constructor; apply IH].
  destruct (mem v seen); constructor; apply IH.
Qed.

Lemma subseq_length {A} (l1 l2 : list A) :
  subseq l1 l2 -> length l1 <= length l2.
Proof. induction 1; simpl; lia. Qed.

Lemma first_seen_ids (listings : list LinkElement) :
  forall seen l,
    In l (first_seen seen listings) ->
    exists v, link_vehicle_id l = Some v /\ ~ In v seen.
Proof.
  induction listings as [|x rest IH]; intros seen l; simpl; [tauto|].
  destruct (link_vehicle_id x) as [v|] eqn:Ex; [|apply IH].
  destruct (mem v seen) eqn:Em; [apply IH|].
  intros [<-|Hin].
  - exists v. split; [assumption|].
    intros Hv. apply mem_In in Hv. congruence.
  - destruct (IH _ _ Hin) as (w & Hw & Hn).
    exists w. split; [assumption|]. intros Hs. apply Hn. right. assumption.
Qed.

Lemma first_seen_NoDup (listings : list LinkElement) :
  forall seen, NoDup (map link_vehicle_id (first_seen seen listings)).
Proof.
  induction listings as [|x rest IH]; intros seen; simpl; [constructor|].
  destruct (link_vehicle_id x) as [v|] eqn:Ex; [|apply IH].
  destruct (mem v seen) eqn:Em; [apply IH|].
  simpl. constructor; [|apply IH].
  rewrite Ex. intros Hin. apply in_map_iff in Hin.
  destruct Hin as (y & Hy & Hyin).
  destruct (first_seen_ids _ _ _ Hyin) as (w & Hw & Hn).
  apply Hn. left. congruence.
Qed.

Lemma first_seen_first (listings : list LinkElement) :
  forall seen pre l post v,
    listings = pre ++ l :: post ->
    link_vehicle_id l = Some v -> ~ In v seen ->
    (forall x, In x pre -> link_vehicle_id x <> Some v) ->
    In l (first_seen seen listings).
Proof.
  induction listings as [|x rest IH]; intros seen pre l post v E Hl Hs Hpre.
  - destruct pre; discriminate.
  - destruct pre as [|y pre]; simpl in E; inversion E; subst; simpl.
    + rewrite Hl.
      destruct (mem v seen) eqn:Em; [apply mem_In in Em; contradiction|].
      left. reflexivity.
    + assert (Hy : link_vehicle_id y <> Some v) by (apply Hpre; left; reflexivity).
      assert (Hpre' : forall z, In z pre -> link_vehicle_id z <> Some v)
        by (intros z Hz; apply Hpre; right; exact Hz).
      destruct (link_vehicle_id y) as [w|] eqn:Ey;
        [|eapply IH; eauto].
      destruct (mem w seen); [eapply IH; eauto|].
      right. eapply IH; eauto.
      intros [Hw|Hw]; [congruence | contradiction].
Qed.

(** C8. For every sequence of listing links the browser can read, the
    deduplication returns a list in which no two elements share a vehicle
    id; it is the input with elements left out, in the input order, so it
    is no longer than the input; and the first link that carries a given
    id is the kept one. *)
Theorem dedupe_keeps_first_seen (listings : list LinkElement) :
  (forall l, In l listings -> exists h, get_attribute_href l = Ok h) ->
  exists unique,
    dedupe listings = Ok unique
    /\ NoDup (map link_vehicle_id unique)
    /\ subseq unique listings
    /\ length unique <= length listings
    /\ (forall pre l post v,
          listings = pre ++ l :: post ->
          link_vehicle_id l = Some v ->
          (forall x, In x pre -> link_vehicle_id x <> Some v) ->
          In l unique).
Proof.
  intros Hr. exists (first_seen [] listings).
  split; [apply dedupe_first_seen, Hr|].
  split; [apply first_seen_NoDup|].
  split; [apply first_seen_subseq|].
  split; [apply subseq_length, first_seen_subseq|].
  intros pre l post v E Hl Hpre.
  eapply first_seen_first; eauto.
Qed.

Lemma dedupe_keeps_first_seen_witness :
  exists unique,
    dedupe [link_a; link_without_id; link_a_again; link_b] = Ok unique
    /\ NoDup (map link_vehicle_id unique)
    /\ subseq unique [link_a; link_without_id; link_a_again; link_b]
    /\ length unique <= length [link_a; link_without_id; link_a_again; link_b]
    /\ (forall pre l post v,
          [link_a; link_without_id; link_a_again; link_b] = pre ++ l :: post ->
          link_vehicle_id l = Some v ->
          (forall x, In x pre -> link_vehicle_id x <> Some v) ->
          In l unique).
Proof.
  apply (@dedupe_keeps_first_seen [link_a; link_without_id; link_a_again; link_b]).
  intros l Hl. simpl in Hl.
  destruct Hl as [<-|[<-|[<-|[<-|[]]]]]; eexists; reflexivity.
Defined.

(** Scenario 5 of the specification: two links to the same vehicle
    collapse to the first. *)
Example scenario5_same_vehicle_id :
  link_vehicle_id link_a = Some (str "745102938")
  /\ link_vehicle_id link_a_again = Some (str "745102938")
  /\ dedupe [link_a; link_without_id; link_a_again; link_b]
     = Ok [link_a; link_b].
Proof. repeat split; vm_compute; reflexivity. Qed.

(** C9 (as stated, refuted). A candidate whose address holds no vehicle
    id, alone in the input and so the first seen for any key, does not
    survive the deduplication. *)
Lemma candidate_without_id_counterexample :
  link_vehicle_id link_without_id = None
  /\ dedupe [link_without_id] = Ok []
  /\ ~ (forall unique,
          dedupe [link_without_id] = Ok unique -> In link_without_id unique).
Proof.
  split; [vm_compute; reflexivity|].
  split; [vm_compute; reflexivity|].
  intros H. apply (H []). vm_compute. reflexivity.
Qed.

(** C9 (amended). Every candidate the deduplication keeps has a vehicle
    id derived from its address: a candidate from which no id is derivable
    is dropped, and no composite key is used. *)
Theorem dedupe_drops_candidates_without_id (listings : list LinkElement) :
  (forall l, In l listings -> exists h, get_attribute_href l = Ok h) ->
  exists unique,
    dedupe listings = Ok unique
    /\ (forall l, In l unique -> exists v, link_vehicle_id l = Some v)
    /\ (forall l, link_vehicle_id l = None -> ~ In l unique).
Proof.
  intros Hr. exists (first_seen [] listings).
  split; [apply dedupe_first_seen, Hr|].
  assert (H : forall l, In l (first_seen [] listings) ->
                        exists v, link_vehicle_id l = Some v).
  { intros l Hl. destruct (first_seen_ids _ _ _ Hl) as (v & Hv & _). eauto. }
  split; [exact H|].
  intros l Hn Hl. destruct (H l Hl) as [v Hv]. congruence.
Qed.

Lemma dedupe_drops_candidates_without_id_witness :
  exists unique,
    dedupe [link_without_id; link_b] = Ok unique
    /\ (forall l, In l unique -> exists v, link_vehicle_id l = Some v)
    /\ (forall l, link_vehicle_id l = None -> ~ In l unique).
Proof.
  apply (@dedupe_drops_candidates_without_id [link_without_id; link_b]).
  intros l Hl. simpl in Hl.
  destruct Hl as [<-|[<-|[]]]; eexists; reflexivity.
Defined.

(** ** scrape-autotrader-cdp.py: price and mileage of a candidate *)

(** C4 (the code at the failing input). The candidate [link_a] has an
    ancestor text holding "$103,615" and "60,000 mi". The price found
    is 103615, but the mileage found is 0, not 60000: the mileage pattern
    has no comma in it and matches "000 mi". *)
Theorem scenario4_comma_grouped_mileage :
  resolve_all_text link_a = str sierra_card
  /\ contains (str "$103,615") (str sierra_card) = true
  /\ contains (str "60,000 mi") (str sierra_card) = true
  /\ option_map mt_whole (search true mileage_pattern (str sierra_card))
     = Some (str "000 mi")
  /\ exists d,
       extract_listing default_max_str_digits link_a = Ok (Some d)
       /\ price d = VInt 103615
       /\ mileage d = VInt 0.
Proof.
  split; [vm_compute; reflexivity|].
  split; [vm_compute; reflexivity|].
  split; [vm_compute; reflexivity|].
  split; [vm_compute; reflexivity|].
  eexists. split; [vm_compute; reflexivity|]. split; reflexivity.
Qed.

(** On the same text the mileage pattern of scrape-autotrader.py and
    scrape-truecar.py, which allows commas, gives 60000. *)
Example sibling_mileage_pattern :
  option_map (fun mt => extract_number (or_empty (group mt 1)))
             (search true AutoTrader.mileage_pattern (str sierra_card))
  = Some 60000%Z.
Proof. vm_compute. reflexivity. Qed.

(** ** [extract_number] on digits *)

Lemma round_half_even_1 (a : Z) : round_half_even a 1 = a.
Proof.
  unfold round_half_even. rewrite Z.div_1_r, Z.mod_1_r. reflexivity.
Qed.

(** An integer below [2^53] goes through [float] unchanged. *)
Lemma int_of_float_exact (n : Z) :
  (0 <= n < 2 ^ 53)%Z -> int_of_float_of_ratio n 1 = Ok n.
Proof.
  intros [H0 H53]. unfold int_of_float_of_ratio.
  destruct (n =? 0)%Z eqn:En; [apply Z.eqb_eq in En; subst; reflexivity|].
  apply Z.eqb_neq in En.
  assert (Hpos : (0 < n)%Z) by lia.
  change (Z.log2 1) with 0%Z. rewrite Z.sub_0_r.
  pose proof (Z.log2_nonneg n) as Hl0.
  pose proof (Z.log2_spec n Hpos) as [Hlo Hhi].
  assert (Hl52 : (Z.log2 n < 53)%Z) by (apply Z.log2_lt_pow2; lia).
  unfold ge_pow2.
  replace (0 <=? Z.log2 n)%Z with true by (symmetry; apply Z.leb_le; lia).
  replace (1 * 2 ^ Z.log2 n <=? n)%Z with true
    by (symmetry; apply Z.leb_le; lia).
  rewrite Z.max_l by lia.
  destruct (0 <=? Z.log2 n - 52)%Z eqn:Ee.
  - apply Z.leb_le in Ee.
    replace (Z.log2 n - 52)%Z with 0%Z by lia.
    rewrite Z.pow_0_r, !Z.mul_1_r, round_half_even_1.
    replace (2 ^ 1024 <=? n)%Z with false; [reflexivity|].
    symmetry. apply Z.leb_gt.
    apply Z.lt_trans with (2 ^ 53)%Z; [assumption|].
    apply Z.pow_lt_mono_r; lia.
  - rewrite round_half_even_1.
    rewrite Z.div_mul; [reflexivity|].
    apply Z.pow_nonzero; lia.
Qed.

Lemma digits_val_app (a b : text) :
  digits_val (a ++ b)
  = fold_left (fun acc c => 10 * acc + digit_val c)%Z b (digits_val a).
Proof. unfold digits_val. apply fold_left_app. Qed.

Lemma is_digit_val (c : ascii) :
  is_digit c = true -> (0 <= digit_val c <= 9)%Z.
Proof.
  unfold is_digit, in_range, digit_val. intros H.
  apply andb_true_iff in H. destruct H as [H1 H2].
  apply Nat.leb_le in H1. apply Nat.leb_le in H2. lia.
Qed.

(** A string of [n] digits is a number below [10^n]. *)
Lemma digits_val_bound (w : text) :
  all_digits w = true -> (0 <= digits_val w < 10 ^ Z.of_nat (length w))%Z.
Proof.
  unfold digits_val.
  assert (H : forall a k,
            (0 <= a < 10 ^ k)%Z -> (0 <= k)%Z -> all_digits w = true ->
            (0 <= fold_left (fun acc c => 10 * acc + digit_val c) w a
             < 10 ^ (k + Z.of_nat (length w)))%Z).
  { induction w as [|c w IH]; intros a k Ha Hk Hd.
    - simpl. rewrite Z.add_0_r. exact Ha.
    - cbn [fold_left]. simpl in Hd. apply andb_true_iff in Hd.
      destruct Hd as [Hc Hw]. apply is_digit_val in Hc.
      replace (k + Z.of_nat (length (c :: w)))%Z
        with ((k + 1) + Z.of_nat (length w))%Z
        by (cbn [length]; lia).
      apply IH; [|lia|exact Hw].
      rewrite Z.pow_add_r, Z.pow_1_r by lia. lia. }
  intros Hd. apply (H 0%Z 0%Z); [simpl; lia | lia | exact Hd].
Qed.

Lemma split_point_digits (w : text) :
  all_digits w = true -> split_point w = (w, None).
Proof.
  induction w as [|c w IH]; simpl; intros H; [reflexivity|].
  apply andb_true_iff in H. destruct H as [Hc Hw].
  destruct (ascii_dec c ".") as [->|]; [discriminate Hc|].
  rewrite IH by exact Hw. reflexivity.
Qed.

(** [int(float(w))] is the value of [w] for up to 15 digits. *)
Lemma py_int_of_float_digits (w : text) :
  all_digits w = true -> 1 <= length w <= 15 ->
  py_int_of_float w = Ok (digits_val w).
Proof.
  intros Hd Hl. unfold py_int_of_float.
  rewrite split_point_digits by exact Hd.
  rewrite app_nil_r, Hd. cbn [all_digits forallb andb length].
  replace (length w =? 0) with false by (symmetry; apply Nat.eqb_neq; lia).
  cbn [negb]. change (10 ^ Z.of_nat 0)%Z with 1%Z.
  apply int_of_float_exact.
  pose proof (digits_val_bound w Hd) as [H0 Hb].
  split; [exact H0|].
  apply Z.lt_le_trans with (10 ^ Z.of_nat (length w))%Z; [exact Hb|].
  apply Z.le_trans with (10 ^ 15)%Z.
  - apply Z.pow_le_mono_r; lia.
  - vm_compute. discriminate.
Qed.

Lemma number_class :
  class_pattern "[^\d,.]"
  = CNot (CUnion CDigit (CUnion (CLit ",") (CUnion (CLit ".") CNone))).
Proof. vm_compute. reflexivity. Qed.

(** Digits, commas and points stay in the cleaned text. *)
Lemma sub_class_keeps (t : text) :
  Forall (fun c => is_digit c = true \/ c = ","%char) t ->
  sub_class (class_pattern "[^\d,.]") t = t.
Proof.
  intros H. unfold sub_class. rewrite number_class.
  induction H as [|c t Hc _ IH]; [reflexivity|].
  cbn [filter]. rewrite IH.
  replace (negb (cs_mem false _ c)) with true; [reflexivity|].
  symmetry. cbn [cs_mem]. rewrite negb_involutive.
  destruct Hc as [Hc| ->]; [rewrite Hc; reflexivity|].
  vm_compute. reflexivity.
Qed.

Lemma replace_comma_digits (w : text) :
  all_digits w = true -> replace_char ","%char [] w = w.
Proof.
  unfold replace_char.
  induction w as [|c w IH]; simpl; intros H; [reflexivity|].
  apply andb_true_iff in H. destruct H as [Hc Hw].
  destruct (ascii_dec c ",") as [->|]; [discriminate Hc|].
  simpl. rewrite IH by exact Hw. reflexivity.
Qed.

Lemma all_digits_Forall (w : text) :
  all_digits w = true ->
  Forall (fun c => is_digit c = true \/ c = ","%char) w.
Proof.
  intros H. apply Forall_forall. intros c Hc. left.
  unfold all_digits in H. rewrite forallb_forall in H. auto.
Qed.

(** [extract_number] reads a string of up to 15 digits as its value. *)
Lemma extract_number_digits (w : text) :
  all_digits w = true -> 1 <= length w <= 15 ->
  extract_number w = digits_val w.
Proof.
  intros Hd Hl. unfold extract_number.
  destruct w as [|c w]; [simpl in Hl; lia|].
  rewrite sub_class_keeps by (apply all_digits_Forall; exact Hd).
  rewrite replace_comma_digits by exact Hd.
  rewrite py_int_of_float_digits by assumption. reflexivity.
Qed.

(** [extract_number] reads digits with one comma as the number written
    without the comma. *)
Lemma extract_number_grouped (a b : text) :
  all_digits a = true -> all_digits b = true ->
  1 <= length (a ++ b) <= 15 ->
  extract_number (a ++ ","%char :: b) = digits_val (a ++ b).
Proof.
  intros Ha Hb Hl. unfold extract_number.
  destruct (a ++ ","%char :: b) as [|c t] eqn:E;
    [destruct a; discriminate|].
  rewrite <- E. clear E c t.
  rewrite sub_class_keeps.
  - unfold replace_char. rewrite flat_map_app. cbn [flat_map].
    destruct (ascii_dec "," ","); [|congruence].
    fold (replace_char ","%char [] a). fold (replace_char ","%char [] b).
    rewrite !replace_comma_digits by assumption. cbn [app].
    rewrite py_int_of_float_digits; [reflexivity| |exact Hl].
    unfold all_digits in *. rewrite forallb_app, Ha, Hb. reflexivity.
  - apply Forall_app. split; [apply all_digits_Forall; exact Ha|].
    constructor; [right; reflexivity | apply all_digits_Forall; exact Hb].
Qed.

(** ** [re.finditer] against the declarative reading *)

Lemma finditer_at_inv (s : text) (ic : bool) (r : regex) (fuel : nat) :
  forall pos prev rest mt,
    pos <= length s -> rest = skipn pos s ->
    In mt (finditer_at fuel ic r pos prev rest) ->
    exists st0 st',
      valid s st0 /\ ms_caps st0 = []
      /\ rmatch ic r st0 st'
      /\ mt = Match (ms_pos st0) (ms_pos st')
                    (firstn (ms_pos st' - ms_pos st0) (ms_rest st0))
                    (ms_caps st') (count_groups r) (ms_prev st') (ms_rest st').
Proof.
  induction fuel as [|fuel IH]; intros pos prev rest mt Hl Hs Hin;
    [contradiction|].
  cbn [finditer_at] in Hin.
  destruct (search_at ic r pos prev rest) as [mt0|] eqn:Es; [|contradiction].
  destruct (@search_at_inv s ic r rest pos prev mt0 Es Hl Hs)
    as (pos' & prev' & Hp1 & Hp2 & Hh).
  apply match_here_inv in Hh. destruct Hh as (st' & Hr & Hm).
  assert (Hv0 : valid s (MState pos' prev' (skipn pos' s) []))
    by (split; [exact Hp2 | reflexivity]).
  pose proof (rmatch_inv (s := s) Hr Hv0) as ((Hv1 & Hv2) & Hmono & _).
  destruct Hin as [<-|Hin].
  - exists (MState pos' prev' (skipn pos' s) []), st'.
    split; [exact Hv0|]. split; [reflexivity|]. split; assumption.
  - rewrite Hm in Hin. cbn [mt_end mt_start mt_after mt_last] in Hin.
    destruct (ms_pos st' =? pos').
    + destruct (ms_rest st') as [|c tl] eqn:Er; [contradiction|].
      symmetry in Hv2. apply skipn_cons_inv in Hv2. destruct Hv2 as [Hl' Hs'].
      eapply IH; [| |exact Hin]; [lia | symmetry; exact Hs'].
    + eapply IH; [| |exact Hin]; [exact Hv1 | exact Hv2].
Qed.

Lemma finditer_inv (ic : bool) (r : regex) (s : text) (mt : match_obj) :
  In mt (finditer ic r s) ->
  exists st0 st',
    valid s st0 /\ ms_caps st0 = []
    /\ rmatch ic r st0 st'
    /\ mt = Match (ms_pos st0) (ms_pos st')
                  (firstn (ms_pos st' - ms_pos st0) (ms_rest st0))
                  (ms_caps st') (count_groups r) (ms_prev st') (ms_rest st').
Proof.
  unfold finditer. intros H.
  eapply finditer_at_inv; [| |exact H]; [lia | reflexivity].
Qed.

(** ** scrape-autotrader-cdp.py: the tokens of the price heuristic *)

Lemma grouped_pattern_eq :
  grouped_pattern
  = Grp 1 (Cat (Rep (Set_ CDigit) 1 (Some 2) true)
               (Cat (Set_ (CLit ","))
                    (Rep (Set_ CDigit) 3 (Some 3) true))).
Proof. vm_compute. reflexivity. Qed.

Lemma plain_pattern_eq :
  plain_pattern = Grp 1 (Rep (Set_ CDigit) 5 (Some 6) true).
Proof. vm_compute. reflexivity. Qed.

(** A token with a comma: one or two digits, a comma, three digits; its
    value is the number written. *)
Lemma grouped_token (all_text : text) (mt : match_obj) :
  In mt (finditer false grouped_pattern all_text) ->
  exists a b,
    group mt 1 = Some (a ++ ","%char :: b)
    /\ all_digits a = true /\ 1 <= length a <= 2
    /\ all_digits b = true /\ length b = 3
    /\ number_group mt 1 = digits_val (a ++ b).
Proof.
  intros H. apply finditer_inv in H.
  destruct H as (st0 & st' & Hv & Hc0 & Hr & ->).
  rewrite grouped_pattern_eq in Hr.
  inversion Hr as [| | | | |n0 r0 sa sb Hbody| | |]; subst.
  inversion Hbody as [| |r1 r2 s0 s1 s2 H1 H23| | | | | |]; subst.
  inversion H23 as [| |r1 r2 s0' s1' s2' H2 H3| | | | | |]; subst.
  inversion H2 as [|cs s0'' c tl Hrest Hmem| | | | | | |]; subst.
  apply rmatch_rep_set in H1.
  destruct H1 as (a & Ea & Pa & Fa & Ca & La & Ha).
  apply rmatch_rep_set in H3.
  destruct H3 as (b & Eb & Pb & Fb & Cb & Lb & Hb).
  cbn [ms_rest ms_pos ms_caps] in *.
  assert (Hcomma : c = ","%char).
  { cbn [cs_mem] in Hmem.
    destruct (ascii_dec c ","%char); [assumption|discriminate]. }
  subst c.
  exists a, b.
  assert (Hg : firstn (ms_pos sb - ms_pos st0) (ms_rest st0)
               = a ++ ","%char :: b).
  { rewrite Ea, Hrest, Eb.
    replace (ms_pos sb - ms_pos st0) with (length (a ++ ","%char :: b))
      by (rewrite length_app; cbn [length]; lia).
    replace (a ++ ","%char :: b ++ ms_rest sb)
      with ((a ++ ","%char :: b) ++ ms_rest sb)
      by (rewrite <- app_assoc; reflexivity).
    apply firstn_app_exact. }
  assert (Hda : all_digits a = true) by (apply forall_digits; exact Fa).
  assert (Hdb : all_digits b = true) by (apply forall_digits; exact Fb).
  match goal with
  | |- group ?m 1 = _ /\ _ =>
      assert (Hgrp : group m 1 = Some (a ++ ","%char :: b))
  end.
  { unfold group, close_group.
    cbn [mt_caps ms_caps lookup_cap Nat.eqb option_map snd].
    rewrite Hg. reflexivity. }
  split; [exact Hgrp|].
  split; [exact Hda|]. split; [lia|]. split; [exact Hdb|]. split; [lia|].
  unfold number_group. rewrite Hgrp.
  apply extract_number_grouped; try assumption.
  rewrite length_app. lia.
Qed.

(** A token without comma: five or six digits; its value is the number
    written. *)
Lemma plain_token (all_text : text) (mt : match_obj) :
  In mt (finditer false plain_pattern all_text) ->
  exists w,
    group mt 1 = Some w
    /\ all_digits w = true /\ 5 <= length w <= 6
    /\ number_group mt 1 = digits_val w.
Proof.
  intros H. apply finditer_inv in H.
  destruct H as (st0 & st' & Hv & Hc0 & Hr & ->).
  rewrite plain_pattern_eq in Hr.
  inversion Hr as [| | | | |n0 r0 sa sb Hbody| | |]; subst.
  apply rmatch_rep_set in Hbody.
  destruct Hbody as (w & Ew & Pw & Fw & Cw & Lw & Hw).
  cbn [ms_rest ms_pos ms_caps] in *.
  exists w.
  assert (Hg : firstn (ms_pos sb - ms_pos st0) (ms_rest st0) = w).
  { rewrite Ew. replace (ms_pos sb - ms_pos st0) with (length w) by lia.
    apply firstn_app_exact. }
  assert (Hd : all_digits w = true) by (apply forall_digits; exact Fw).
  match goal with
  | |- group ?m 1 = _ /\ _ => assert (Hgrp : group m 1 = Some w)
  end.
  { unfold group, close_group.
    cbn [mt_caps ms_caps lookup_cap Nat.eqb option_map snd].
    rewrite Hg. reflexivity. }
  split; [exact Hgrp|]. split; [exact Hd|]. split; [lia|].
  unfold number_group. rewrite Hgrp.
  apply extract_number_digits; [exact Hd | lia].
Qed.

(** ** scrape-autotrader-cdp.py: the price heuristic *)

(** The loop over the matches appends the qualifying values, in order. *)
Lemma candidates_loop_spec (matches : list match_obj) :
  forall price_candidates,
    candidates_loop matches price_candidates
    = price_candidates
      ++ map (fun mt => (number_group mt 1, mt_start mt))
             (filter (fun mt => qualifying (number_group mt 1)) matches).
Proof.
  induction matches as [|mt rest IH]; intros acc; cbn [candidates_loop filter].
  - cbn [map]. symmetry. apply app_nil_r.
  - unfold qualifying at 1.
    destruct ((1900 <=? number_group mt 1)%Z && (number_group mt 1 <=? 2100)%Z).
    + cbn [negb andb]. apply IH.
    + cbn [negb andb].
      destruct ((5000 <=? number_group mt 1)%Z
                && (number_group mt 1 <=? 500000)%Z).
      * rewrite IH. cbn [map]. rewrite <- app_assoc. reflexivity.
      * apply IH.
Qed.

Lemma filter_map_comm {A B} (f : A -> B) (p : B -> bool) (l : list A) :
  filter p (map f l) = map f (filter (fun x => p (f x)) l).
Proof.
  induction l as [|x l IH]; simpl; [reflexivity|].
  destruct (p (f x)); simpl; rewrite IH; reflexivity.
Qed.

Lemma fst_last_map {A} (f : A -> Z) (g : A -> nat) (l : list A) :
  fst (last (map (fun x => (f x, g x)) l) (0%Z, 0)) = last (map f l) 0%Z.
Proof.
  induction l as [|x l IH]; [reflexivity|].
  destruct l as [|y l]; [reflexivity|].
  change (last (map (fun x => (f x, g x)) (x :: y :: l)) (0%Z, 0))
    with (last (map (fun x => (f x, g x)) (y :: l)) (0%Z, 0)).
  change (last (map f (x :: y :: l)) 0%Z) with (last (map f (y :: l)) 0%Z).
  exact IH.
Qed.

(** The heuristic is the two-tier choice. *)
Lemma price_heuristic_two_tier (all_text : text) :
  price_heuristic all_text = two_tier_price all_text.
Proof.
  unfold price_heuristic, two_tier_price, token_values.
  rewrite !filter_map_comm, !candidates_loop_spec. cbn [app].
  destruct (filter (fun mt => qualifying (number_group mt 1))
                   (finditer false grouped_pattern all_text)) as [|m1 l1].
  - cbn [map app].
    destruct (filter (fun mt => qualifying (number_group mt 1))
                     (finditer false plain_pattern all_text)) as [|m2 l2];
      [reflexivity|].
    apply (fst_last_map (fun mt => number_group mt 1) mt_start (m2 :: l2)).
  - apply (fst_last_map (fun mt => number_group mt 1) mt_start (m1 :: l1)).
Qed.

(** C6 (a defect of the code). The first tier of the heuristic reads a
    comma-grouped token through [(\d{1,2},\d{3})], at most two digits
    before the comma, so no value of that tier reaches 100,000 whatever
    the text, although its own filter admits values up to 500,000. A
    comma-grouped token of six digits is never read whole: in
    "Price 123,456" no "$" price matches, 123456 qualifies and is what the
    heuristic as specified yields, and the code returns 23456; in
    "Price 500,000" the code returns 0. The sibling readings take such a
    token whole: the "$" branch of the same function, and the price loop
    of scrape-kbb.py on the same line. *)
Theorem comma_grouped_six_digit_price_misread :
  (forall all_text v,
     In v (token_values grouped_pattern all_text) -> (0 <= v < 100000)%Z)
  /\ qualifying 123456 = true /\ qualifying 500000 = true
  /\ search false dollar_pattern (str "Price 123,456") = None
  /\ price_heuristic_as_specified (str "Price 123,456") = 123456%Z
  /\ extract_price (str "Price 123,456") = 23456%Z
  /\ price_heuristic_as_specified (str "Price 500,000") = 500000%Z
  /\ extract_price (str "Price 500,000") = 0%Z
  /\ extract_price (str "Price $123,456") = 123456%Z
  /\ extract_price (str "Price $500,000") = 500000%Z
  /\ Kbb.price_loop [str "Price 123,456"] = 123456%Z.
Proof.
  split; [|repeat split; vm_compute; reflexivity].
  intros all_text v Hin. unfold token_values in Hin.
  apply in_map_iff in Hin. destruct Hin as (mt & <- & Hin).
  apply grouped_token in Hin.
  destruct Hin as (a & b & _ & Ha & La & Hb & Lb & ->).
  assert (Hd : all_digits (a ++ b) = true).
  { unfold all_digits in *. rewrite forallb_app, Ha, Hb. reflexivity. }
  pose proof (digits_val_bound _ Hd) as Hbound.
  rewrite length_app, Lb in Hbound.
  assert (Hp : (10 ^ Z.of_nat (length a + 3) <= 10 ^ 5)%Z).
  { apply Z.pow_le_mono_r; lia. }
  change (10 ^ 5)%Z with 100000%Z in Hp. lia.
Qed.

(** The heuristic on a few texts. *)
Example price_heuristic_examples :
  extract_price (str "Stock 23,456 MSRP 34,567 model year 2,024") = 34567%Z
  /\ extract_price (str "Price 123456 and year 2024") = 123456%Z
  /\ extract_price (str "Model year 2,024 only") = 0%Z
  /\ extract_price (str "MSRP 34,567 now $29,999") = 29999%Z.
Proof. repeat split; vm_compute; reflexivity. Qed.

(** ** scrape-truecar.py: the two channels *)

Import TrueCar.

(** C7. [scrape_truecar] calls the GraphQL channel only when the filters
    carry a make and a model, both truthy. And when the request is sent
    and the body of the answer is a dictionary with an ['errors'] key,
    [scrape_truecar_graphql] returns [None] and the outcome of
    [scrape_truecar] is the outcome of [scrape_truecar_camoufox]. *)
Theorem graphql_errors_fall_back (container_repr : value -> text)
    (search_filters : value) (max_results : Z) (w : World) :
  (In FastChannel
      (fst (scrape_truecar container_repr search_filters max_results w)) ->
   exists make model,
     dict_get search_filters "make" VNone = Ok make /\ truthy make = true
     /\ dict_get search_filters "model" VNone = Ok model
     /\ truthy model = true)
  /\ (forall make model q status items e,
        truthy search_filters = true ->
        dict_get search_filters "make" VNone = Ok make -> truthy make = true ->
        dict_get search_filters "model" VNone = Ok model ->
        truthy model = true ->
        aiohttp_installed w = true ->
        build_search_query container_repr search_filters = Ok (Some q) ->
        q <> [] ->
        post_graphql w = Ok (status, Ok (VDict items)) ->
        assoc (str "errors") items = Some e ->
        scrape_truecar_graphql container_repr search_filters max_results w
        = Ok None
        /\ scrape_truecar container_repr search_filters max_results w
           = ([FastChannel; RenderedChannel],
              scrape_truecar_camoufox container_repr search_filters
                max_results w)).
Proof.
  split.
  - unfold scrape_truecar.
    destruct (truthy search_filters); cbn [negb]; [|intros []].
    destruct (dict_get search_filters "make" VNone) as [make|] eqn:Emk;
      cbn [bind]; [|intros []].
    destruct (truthy make) eqn:Tmk; [|cbn; intros [H|[]]; discriminate H].
    destruct (dict_get search_filters "model" VNone) as [model|] eqn:Emd;
      cbn [bind]; [|intros []].
    destruct (truthy model) eqn:Tmd; [|cbn; intros [H|[]]; discriminate H].
    intros _. exists make, model. auto.
  - intros make model q status items e Hsf Emk Tmk Emd Tmd Hai Hq Hne Hpost He.
    assert (Hg : scrape_truecar_graphql container_repr search_filters
                   max_results w = Ok None).
    { unfold scrape_truecar_graphql. rewrite Hai, Hq. cbn [negb bind].
      destruct q as [|c q]; [congruence|].
      rewrite Hpost. cbn [bind].
      destruct (negb (status =? 200)%Z); [reflexivity|].
      cbn [bind errors_in]. rewrite He. reflexivity. }
    split; [exact Hg|].
    unfold scrape_truecar. rewrite Hsf, Emk. cbn [negb bind].
    rewrite Tmk, Emd. cbn [bind]. rewrite Tmd, Hg. reflexivity.
Qed.

Lemma graphql_errors_fall_back_witness :
  scrape_truecar_graphql no_container_repr sample_filters 10 world_with_errors
  = Ok None
  /\ scrape_truecar no_container_repr sample_filters 10 world_with_errors
     = ([FastChannel; RenderedChannel],
        scrape_truecar_camoufox no_container_repr sample_filters 10
          world_with_errors).
Proof.
  apply (proj2 (@graphql_errors_fall_back no_container_repr sample_filters 10%Z
                  world_with_errors)
           (VStr (str "GMC")) (VStr (str "Sierra")) (str "GMC Sierra") 200%Z
           [(str "errors",
             VList [VDict [(str "message", VStr (str "Cannot query field"))]])]
           (VList [VDict [(str "message", VStr (str "Cannot query field"))]]));
    try reflexivity.
  discriminate.
Defined.

(** Scenario 6 of the specification on the sample world: the listings
    come from the rendered page, where the card without a readable price
    is left out. *)
Example scenario6_fallback :
  exists d,
    scrape_truecar no_container_repr sample_filters 10 world_with_errors
    = ([FastChannel; RenderedChannel], Ok [d])
    /\ name d = str "2021 GMC Sierra 1500"
    /\ price d = VInt 45000
    /\ mileage d = VInt 31204.
Proof. eexists. split; [vm_compute; reflexivity|]. repeat split. Qed.

(** Without a model the GraphQL channel is not called. *)
Example no_model_no_fast_channel :
  fst (scrape_truecar no_container_repr
         (VDict [(str "make", VStr (str "GMC"))]) 10 world_with_errors)
  = [RenderedChannel].
Proof. vm_compute. reflexivity. Qed.

(** ** The price and mileage of emitted listings *)

(** C2 (the code at the failing input). The GraphQL channel of
    [scrape_truecar] appends every vehicle of the answer without looking
    at its price: a vehicle whose [listPrice] is [null] is emitted with
    price 0. *)
Theorem truecar_graphql_emits_price_zero :
  exists d,
    scrape_truecar no_container_repr sample_filters 10 world_with_null_price
    = ([FastChannel], Ok [d])
    /\ name d = str "2021 GMC Sierra"
    /\ price d = VInt 0
    /\ ~ well_priced d.
Proof.
  eexists. split; [vm_compute; reflexivity|].
  split; [reflexivity|]. split; [reflexivity|].
  intros (p & m & Hp & _ & Hpos & _). cbn in Hp. inversion Hp. subst. lia.
Qed.


Lemma round_half_even_nonneg (a b : Z) :
  (0 <= a)%Z -> (0 < b)%Z -> (0 <= round_half_even a b)%Z.
Proof.
  intros Ha Hb. unfold round_half_even.
  assert (0 <= a / b)%Z by (apply Z.div_pos; lia).
  destruct (2 * (a mod b) <? b)%Z; [assumption|].
  destruct (b <? 2 * (a mod b))%Z; [lia|].
  destruct (Z.even (a / b)); lia.
Qed.

Lemma int_of_float_nonneg (num den n : Z) :
  (0 <= num)%Z -> (0 < den)%Z ->
  int_of_float_of_ratio num den = Ok n -> (0 <= n)%Z.
Proof.
  intros Hn Hd. unfold int_of_float_of_ratio.
  destruct (num =? 0)%Z; [intros H; inversion H; lia|].
  set (p := if ge_pow2 num den (Z.log2 num - Z.log2 den)
            then (Z.log2 num - Z.log2 den)%Z
            else (Z.log2 num - Z.log2 den - 1)%Z).
  set (e := Z.max (p - 52) (-1074)).
  destruct (0 <=? e)%Z eqn:Ee.
  - apply Z.leb_le in Ee.
    assert (0 < 2 ^ e)%Z by (apply Z.pow_pos_nonneg; lia).
    assert (0 <= round_half_even num (den * 2 ^ e))%Z
      by (apply round_half_even_nonneg; nia).
    destruct (2 ^ 1024 <=? _)%Z; [discriminate|].
    intros H1; inversion H1. nia.
  - apply Z.leb_gt in Ee.
    assert (0 < 2 ^ (- e))%Z by (apply Z.pow_pos_nonneg; lia).
    assert (0 <= round_half_even (num * 2 ^ (- e)) den)%Z
      by (apply round_half_even_nonneg; nia).
    intros H1; inversion H1. apply Z.div_pos; lia.
Qed.

(** [extract_number] never returns a negative number. *)
Lemma extract_number_nonneg (t : text) : (0 <= extract_number t)%Z.
Proof.
  unfold extract_number. destruct t as [|c t]; [lia|].
  set (cleaned := replace_char ","%char [] _).
  destruct (py_int_of_float cleaned) as [n|] eqn:E; [|lia].
  unfold py_int_of_float in E.
  destruct (split_point cleaned) as [ip fp].
  destruct (all_digits ip && _ && _); [|discriminate].
  eapply int_of_float_nonneg; [| |exact E].
  - apply digits_val_nonneg.
  - apply Z.pow_pos_nonneg; lia.
Qed.

Lemma py_int_nonneg (max_str_digits : nat) (s : text) (z : Z) :
  py_int max_str_digits s = Ok z -> (0 <= z)%Z.
Proof.
  unfold py_int. destruct s as [|c s]; [discriminate|].
  destruct (negb (all_digits (c :: s))); [discriminate|].
  destruct (negb (max_str_digits =? 0) && _); [discriminate|].
  intros H; inversion H. apply digits_val_nonneg.
Qed.

(** A loop that appends the listings of the candidates keeps a property
    every appended listing has. *)
Lemma append_loop_Forall {A} (P : Listing -> Prop)
    (body : A -> result (option Listing)) (loop : list A -> list Listing -> list Listing) :
  (forall l rest results,
     loop (l :: rest) results
     = loop rest (match body l with
                  | Ok (Some d) => results ++ [d]
                  | Ok None => results
                  | Raise _ => results
                  end)) ->
  (forall results, loop [] results = results) ->
  (forall l d, body l = Ok (Some d) -> P d) ->
  forall listings results,
    Forall P results -> Forall P (loop listings results).
Proof.
  intros Hcons Hnil Hbody. induction listings as [|l rest IH]; intros results Hr.
  - rewrite Hnil. exact Hr.
  - rewrite Hcons. apply IH.
    destruct (body l) as [[d|]|] eqn:E; try exact Hr.
    apply Forall_app. split; [exact Hr|].
    constructor; [eapply Hbody; exact E | constructor].
Qed.

Strategy 1000 [pattern search str].

(** scrape-autotrader-cdp.py emits only well-priced listings. *)
Lemma cdp_extract_listing_priced (max_str_digits : nat)
    (listing : AutoTraderCdp.LinkElement) (d : Listing) :
  AutoTraderCdp.extract_listing max_str_digits listing = Ok (Some d) ->
  well_priced d.
Proof.
  unfold AutoTraderCdp.extract_listing.
  destruct (AutoTraderCdp.get_attribute_href listing) as [href|];
    cbn [bind]; [|intros [=]].
  destruct (AutoTraderCdp.link_inner_text listing) as [link_text|];
    cbn [bind]; [|intros [=]].
  match goal with
  | |- (if ?c then Ok None else _) = _ -> _ => destruct c; [intros [=]|]
  end.
  set (all_text := AutoTraderCdp.resolve_all_text listing).
  destruct (AutoTraderCdp.extract_mileage max_str_digits all_text)
    as [m|] eqn:Em; cbn [bind]; [|intros [=]].
  destruct (0 <? AutoTraderCdp.extract_price all_text)%Z eqn:Ep;
    [|intros [=]].
  intros [= <-].
  exists (AutoTraderCdp.extract_price all_text), m. cbn [price mileage].
  split; [reflexivity|]. split; [reflexivity|].
  split; [apply Z.ltb_lt; exact Ep|].
  unfold AutoTraderCdp.extract_mileage in Em.
  destruct (search true AutoTraderCdp.mileage_pattern all_text) as [mt|];
    [|injection Em as <-; lia].
  destruct (group mt 1) as [g|]; [|discriminate Em].
  eapply py_int_nonneg; exact Em.
Qed.

Lemma cdp_scrape_priced (max_str_digits : nat) (query : text)
    (max_results : Z) (page : AutoTraderCdp.Page) (results : list Listing) :
  AutoTraderCdp.scrape_autotrader_cdp max_str_digits query max_results page
  = Some results ->
  Forall well_priced results.
Proof.
  unfold AutoTraderCdp.scrape_autotrader_cdp.
  destruct (negb (AutoTraderCdp.connect_over_cdp page)); [discriminate|].
  destruct (AutoTraderCdp.navigate_and_scroll page); cbn [bind];
    [|intros H; inversion H; constructor].
  destruct (AutoTraderCdp.inner_text_body page) as [t|]; cbn [bind];
    [|intros H; inversion H; constructor].
  destruct (AutoTraderCdp.classify t);
    try (intros H; inversion H; constructor).
  destruct (AutoTraderCdp.query_selector_all_links page) as [ls|];
    cbn [bind]; [|intros H; inversion H; constructor].
  destruct ls as [|l ls]; [intros H; inversion H; constructor|].
  destruct (AutoTraderCdp.dedupe (l :: ls)) as [u|]; cbn [bind];
    [|intros H; inversion H; constructor].
  intros H; inversion H; subst; clear H.
  apply (@append_loop_Forall _ well_priced
           (AutoTraderCdp.extract_listing max_str_digits)
           (AutoTraderCdp.extract_loop max_str_digits));
    [reflexivity | reflexivity | | constructor].
  intros x d. apply cdp_extract_listing_priced.
Qed.

(** scrape-kbb.py emits only well-priced listings. *)
Lemma kbb_extract_listing_priced (max_str_digits : nat) (query : text)
    (listing : Element) (d : Listing) :
  Kbb.extract_listing max_str_digits query listing = Ok (Some d) ->
  well_priced d.
Proof.
  unfold Kbb.extract_listing.
  destruct (inner_text listing) as [all_text|]; cbn [bind]; [|discriminate].
  destruct (get_attribute listing "href"); cbn [bind]; [|discriminate].
  destruct (Kbb.title_loop max_str_digits _ _) as [[[condition year] title]|];
    cbn [bind]; [|discriminate].
  destruct (query_selector listing "img") as [img|]; cbn [bind];
    [|discriminate].
  destruct (match img with Some _ => _ | None => _ end) as [image|];
    cbn [bind]; [|discriminate].
  destruct (0 <? Kbb.price_loop _)%Z eqn:Ep; [|discriminate].
  intros [= <-].
  eexists _, _. cbn [price mileage].
  split; [reflexivity|]. split; [reflexivity|].
  split; [apply Z.ltb_lt; exact Ep|].
  unfold Kbb.extract_mileage.
  destruct (text_eqb _ _); [|lia].
  destruct (search true Kbb.mileage_pattern all_text) as [mt|]; [|lia].
  pose proof (extract_number_nonneg (or_empty (group mt 1))).
  destruct (_ || _); lia.
Qed.

Lemma kbb_scrape_priced (max_str_digits : nat) (query : text)
    (max_results : Z) (browser : Browser) (results : list Listing) :
  Kbb.scrape_kbb max_str_digits query max_results browser = Ok results ->
  Forall well_priced results.
Proof.
  unfold Kbb.scrape_kbb, with_browser.
  destruct (launch browser); cbn [bind]; [|discriminate].
  destruct (close browser); cbn [bind]; [|discriminate].
  intros H; inversion H; subst; clear H.
  destruct (new_page_goto browser); cbn [bind]; [|constructor].
  destruct (query_selector_all browser _) as [ls|]; cbn [bind];
    [|constructor].
  apply (@append_loop_Forall _ well_priced
           (Kbb.extract_listing max_str_digits query)
           (Kbb.extract_loop max_str_digits query));
    [reflexivity | reflexivity | | constructor].
  intros x d. apply kbb_extract_listing_priced.
Qed.

(** scrape-autotrader.py emits only well-priced listings. *)
Lemma autotrader_extract_listing_priced (listing : Element) (d : Listing) :
  AutoTrader.extract_listing listing = Ok (Some d) -> well_priced d.
Proof.
  unfold AutoTrader.extract_listing.
  destruct (inner_text listing) as [all_text|]; cbn [bind]; [|discriminate].
  destruct (query_selector listing "h2, h3, a[data-cmp=subheading]")
    as [te|]; cbn [bind]; [|discriminate].
  destruct (match te with Some _ => _ | None => _ end) as [title|];
    cbn [bind]; [|discriminate].
  destruct (query_selector listing _) as [pe|]; cbn [bind]; [|discriminate].
  destruct (match pe with Some _ => _ | None => _ end) as [p|];
    cbn [bind]; [|discriminate].
  destruct (query_selector listing "img") as [ie|]; cbn [bind];
    [|discriminate].
  destruct (match ie with Some _ => _ | None => _ end) as [image|];
    cbn [bind]; [|discriminate].
  destruct (query_selector listing _) as [le|]; cbn [bind]; [|discriminate].
  destruct (match le with Some _ => _ | None => _ end) as [u|];
    cbn [bind]; [|discriminate].
  destruct (0 <? p)%Z eqn:Ep; [|discriminate].
  intros [= <-].
  eexists _, _. cbn [price mileage].
  split; [reflexivity|]. split; [reflexivity|].
  split; [apply Z.ltb_lt; exact Ep|].
  destruct (search true AutoTrader.mileage_pattern all_text); [|lia].
  apply extract_number_nonneg.
Qed.

Lemma autotrader_scrape_priced (query : text) (max_results : Z)
    (browser : Browser) (results : list Listing) :
  AutoTrader.scrape_autotrader query max_results browser = Ok results ->
  Forall well_priced results.
Proof.
  unfold AutoTrader.scrape_autotrader, with_browser.
  generalize (AutoTrader.find_listings browser AutoTrader.selectors).
  intros found.
  destruct (launch browser); cbn [bind]; [|discriminate].
  destruct (close browser); cbn [bind]; [|discriminate].
  intros H; inversion H; subst; clear H.
  destruct (new_page_goto browser); cbn [bind]; [|constructor].
  destruct found as [ls|]; cbn [bind];
    [|constructor].
  destruct ls as [|l ls]; [constructor|].
  apply (@append_loop_Forall _ well_priced AutoTrader.extract_listing
           AutoTrader.extract_loop);
    [reflexivity | reflexivity | | constructor].
  intros x d. apply autotrader_extract_listing_priced.
Qed.

(** The rendered channel of scrape-truecar.py emits only well-priced
    listings. *)
Lemma truecar_extract_listing_priced (search_query : option text)
    (listing : Element) (d : Listing) :
  TrueCar.extract_listing search_query listing = Ok (Some d) ->
  well_priced d.
Proof.
  unfold TrueCar.extract_listing.
  destruct (inner_text listing) as [all_text|]; cbn [bind]; [|discriminate].
  destruct (query_selector listing "h3, h2") as [te|]; cbn [bind];
    [|discriminate].
  destruct (match te with Some _ => _ | None => _ end) as [title|];
    cbn [bind]; [|discriminate].
  destruct (query_selector listing _) as [pe|]; cbn [bind]; [|discriminate].
  destruct (match pe with Some _ => _ | None => _ end) as [p|];
    cbn [bind]; [|discriminate].
  destruct (query_selector listing "img") as [ie|]; cbn [bind];
    [|discriminate].
  destruct (match ie with Some _ => _ | None => _ end) as [image|];
    cbn [bind]; [|discriminate].
  destruct (query_selector listing _) as [le|]; cbn [bind]; [|discriminate].
  destruct (match le with Some _ => _ | None => _ end) as [u|];
    cbn [bind]; [|discriminate].
  destruct (0 <? p)%Z eqn:Ep; [|discriminate].
  intros [= <-].
  eexists _, _. cbn [price mileage].
  split; [reflexivity|]. split; [reflexivity|].
  split; [apply Z.ltb_lt; exact Ep|].
  destruct (search true TrueCar.mileage_pattern all_text); [|lia].
  apply extract_number_nonneg.
Qed.

Lemma truecar_camoufox_priced (container_repr : value -> text)
    (search_filters : value) (max_results : Z) (w : World)
    (results : list Listing) :
  scrape_truecar_camoufox container_repr search_filters max_results w
  = Ok results ->
  Forall well_priced results.
Proof.
  unfold scrape_truecar_camoufox, with_browser.
  destruct (negb (camoufox_installed w));
    [intros H; inversion H; constructor|].
  destruct (build_search_url container_repr search_filters)
    as [[search_url search_query]|]; cbn [bind]; [|discriminate].
  destruct (launch (browser w)); cbn [bind]; [|discriminate].
  destruct (close (browser w)); cbn [bind]; [|discriminate].
  intros H; inversion H; subst; clear H.
  destruct (new_page_goto (browser w)); cbn [bind]; [|constructor].
  destruct (query_selector_all (browser w) _) as [ls|]; cbn [bind];
    [|constructor].
  apply (@append_loop_Forall _ well_priced
           (TrueCar.extract_listing search_query)
           (TrueCar.extract_loop search_query));
    [reflexivity | reflexivity | | constructor].
  intros x d. apply truecar_extract_listing_priced.
Qed.

(** ** parse_vehicle_query.py: what a returned query looks like *)

Lemma price_loop_inv (max_str_digits : nat) (query_lower : text) :
  forall patterns s0 s',
    ParseVehicleQuery.price_loop max_str_digits patterns query_lower s0 = Ok s' ->
    exists lo hi, s' = set_maxPrice hi (set_minPrice lo s0).
Proof.
  induction patterns as [|p ps IH]; intros s0 s' H; cbn [ParseVehicleQuery.price_loop] in H.
  - injection H as <-. exists (minPrice s0), (maxPrice s0).
    destruct s0; reflexivity.
  - destruct (search false p query_lower) as [mt|]; [|eauto].
    destruct (_ && _).
    + destruct (int_group max_str_digits mt 1) as [lo|]; cbn [bind] in H;
        [|discriminate H].
      destruct (int_group max_str_digits mt 2) as [hi|]; cbn [bind] in H;
        [|discriminate H].
      injection H as <-. exists (Some lo), (Some hi).
      destruct s0; reflexivity.
    + destruct (int_group max_str_digits mt 1) as [hi|]; cbn [bind] in H;
        [|discriminate H].
      injection H as <-. exists (minPrice s0), (Some hi).
      destruct s0; reflexivity.
Qed.

(** A returned query is the initial dictionary with the two prices and the
    year assigned, taken through the vocabulary steps and the three
    tables. *)
Lemma parse_with_patterns_inv (max_str_digits : nat) (q : text)
    (catalog : Catalog) (p : Parsed) :
  parse_with_patterns max_str_digits q catalog = Ok p ->
  exists lo hi y,
    p = Build_Parsed q
          (trims_loop trim_patterns (lower q)
            (models_chain (lower q)
              (makes_loop common_makes (lower q)
                (features_loop
                   (get_or (cat_features (get_or (global_filters catalog) empty_filters)) [])
                   (lower q)
                  (first_in
                     (get_or (fuel_types (get_or (global_filters catalog) empty_filters)) [])
                     (lower q) set_fuelType
                    (first_in
                       (get_or (drivetrains (get_or (global_filters catalog) empty_filters)) [])
                       (lower q) set_drivetrain
                      (first_in
                         (get_or (body_types (get_or (global_filters catalog) empty_filters)) [])
                         (lower q) set_bodyType
                        (first_in
                           (get_or (exterior_colors (get_or (global_filters catalog) empty_filters)) [])
                           (lower q) set_exteriorColor
                           (set_year y
                              (set_maxPrice hi (set_minPrice lo initial)))))))))))
    /\ match search false ParseVehicleQuery.year_pattern q with
       | Some year_match =>
           exists t, group year_match 1 = Some t /\ y = Some (digits_val t)
       | None => y = None
       end.
Proof.
  unfold parse_with_patterns. intros H.
  destruct (ParseVehicleQuery.price_loop max_str_digits price_patterns (lower q) initial)
    as [s1|] eqn:E1; cbn [bind] in H; [|discriminate H].
  apply price_loop_inv in E1. destruct E1 as (lo & hi & ->).
  exists lo, hi.
  destruct (search false ParseVehicleQuery.year_pattern q) as [mt|].
  - unfold int_group in H.
    destruct (group mt 1) as [t|]; cbn [bind] in H; [|discriminate H].
    destruct (py_int max_str_digits t) as [yv|] eqn:Ey; cbn [bind] in H;
      [|discriminate H].
    apply py_int_value in Ey. subst yv.
    apply Ok_inj in H. subst p. exists (Some (digits_val t)).
    split; [reflexivity|]. exists t. split; reflexivity.
  - cbn [bind] in H. apply Ok_inj in H. subst p. exists None.
    split; reflexivity.
Qed.

Ltac frame_through proj :=
  rewrite (trims_loop_frame proj), (models_chain_frame proj),
    (makes_loop_frame proj), (features_loop_frame proj),
    !(first_in_frame proj) by reflexivity.

(** X1. Whatever the text and the catalog, a query returned by
    [parse_with_patterns] carries the text it was given under ["query"],
    and its keys [yearMin], [yearMax], [transmission], [doors],
    [cylinders], [interiorColor] and the four keys of [location] are
    still [None]: the pattern parser never assigns them. *)
Theorem parse_with_patterns_untouched_keys (max_str_digits : nat) (q : text)
    (catalog : Catalog) (p : Parsed) :
  parse_with_patterns max_str_digits q catalog = Ok p ->
  query p = q
  /\ yearMin (structured p) = None /\ yearMax (structured p) = None
  /\ transmission (structured p) = None /\ doors (structured p) = None
  /\ cylinders (structured p) = None /\ interiorColor (structured p) = None
  /\ ParseVehicleQuery.location (structured p)
     = Build_Location None None None None.
Proof.
  intros H. apply parse_with_patterns_inv in H.
  destruct H as (lo & hi & y & -> & _). cbn [query structured].
  split; [reflexivity|].
  repeat split.
  - frame_through yearMin. reflexivity.
  - frame_through yearMax. reflexivity.
  - frame_through transmission. reflexivity.
  - frame_through doors. reflexivity.
  - frame_through cylinders. reflexivity.
  - frame_through interiorColor. reflexivity.
  - frame_through ParseVehicleQuery.location. reflexivity.
Qed.

Lemma parse_with_patterns_untouched_keys_witness :
  exists p,
    parse_with_patterns default_max_str_digits
      (str "2024 black Toyota RAV4 with heated seats") sample_catalog = Ok p
    /\ query p = str "2024 black Toyota RAV4 with heated seats"
    /\ yearMin (structured p) = None /\ yearMax (structured p) = None
    /\ transmission (structured p) = None /\ doors (structured p) = None
    /\ cylinders (structured p) = None /\ interiorColor (structured p) = None
    /\ ParseVehicleQuery.location (structured p)
       = Build_Location None None None None.
Proof.
  eexists. split; [vm_compute; reflexivity|].
  apply (@parse_with_patterns_untouched_keys default_max_str_digits
           (str "2024 black Toyota RAV4 with heated seats") sample_catalog).
  vm_compute. reflexivity.
Defined.

(** ** parse_vehicle_query.py: the year *)

Lemma parse_year_pattern_eq :
  ParseVehicleQuery.year_pattern
  = Cat WordB
        (Cat (Grp 1 (Cat (Set_ (CLit "2"))
                         (Cat (Set_ (CLit "0"))
                              (Rep (Set_ CDigit) 2 (Some 2) true))))
             WordB).
Proof. vm_compute. reflexivity. Qed.

Lemma cs_mem_lit (c x : ascii) : cs_mem false (CLit x) c = true -> c = x.
Proof.
  cbn [cs_mem]. destruct (ascii_dec c x); [auto | intros H; discriminate H].
Qed.

(** What the year pattern captures: "20" and two more digits, a slice of
    the text. *)
Lemma year_group (q : text) (mt : match_obj) (t : text) :
  search false ParseVehicleQuery.year_pattern q = Some mt ->
  group mt 1 = Some t ->
  exists pre d post,
    q = pre ++ str "20" ++ d ++ post
    /\ t = str "20" ++ d /\ all_digits d = true /\ length d = 2.
Proof.
  intros Hs Hg.
  destruct year_pattern_shape as [Hn Hset].
  destruct (@search_numeric_group false ParseVehicleQuery.year_pattern q mt 1
              Hs Hn Hset ltac:(discriminate))
    as (b & g & _ & Hg' & _ & _ & _ & Hslice).
  rewrite Hg in Hg'. apply (f_equal or_empty) in Hg'. cbn [or_empty] in Hg'.
  subst g.
  apply search_inv in Hs. destruct Hs as (st0 & st' & Hv & Hc0 & Hr & ->).
  rewrite parse_year_pattern_eq in Hr.
  inversion Hr as [| |r1 r2 s0 s1 s2 Hb1 Hrest1| | | | | |]; subst.
  inversion Hb1; subst.
  inversion Hrest1 as [| |r1 r2 s0 s1' s2' Hgrp Hb2| | | | | |]; subst.
  inversion Hb2; subst.
  inversion Hgrp as [| | | | |n0 r0 sa sb Hbody| | |]; subst.
  inversion Hbody as [| |r1 r2 s0 s1' s2' Hm2 Hm0d| | | | | |]; subst.
  inversion Hm0d as [| |r1 r2 s0 s1'' s2'' Hm0 Hd| | | | | |]; subst.
  inversion Hm2 as [|cs s0' c2 tl2 Hrest2 Hmem2| | | | | | |]; subst.
  inversion Hm0 as [|cs s0' c0 tl0 Hrest0 Hmem0| | | | | | |]; subst.
  apply cs_mem_lit in Hmem2. apply cs_mem_lit in Hmem0. subst c2 c0.
  apply rmatch_rep_set in Hd.
  destruct Hd as (d & Ed & Pd & Fd & Cd & Ld & Hd).
  cbn [ms_rest ms_pos ms_caps] in *.
  assert (Ht : t = str "20" ++ d).
  { unfold group, close_group in Hg.
    cbn [mt_caps ms_caps ms_pos lookup_cap Nat.eqb option_map snd] in Hg.
    apply (f_equal or_empty) in Hg. cbn [or_empty] in Hg. subst t.
    rewrite Hrest2, Hrest0, Ed, Pd.
    match goal with
    | |- firstn ?n _ = _ =>
        replace n with (length (str "20" ++ d))
          by (rewrite length_app; cbn [length str list_ascii_of_string]; lia)
    end.
    match goal with
    | |- firstn _ (_ :: _ :: d ++ ?r) = _ =>
        change ("2"%char :: "0"%char :: d ++ r) with ((str "20" ++ d) ++ r)
    end.
    apply firstn_app_exact. }
  destruct (@slice_decompose q t b Hslice) as (pre & post & Eq).
  exists pre, d, post.
  split; [rewrite Eq, Ht, <- app_assoc; reflexivity|].
  split; [exact Ht|].
  split; [apply forall_digits; exact Fd | lia].
Qed.

Lemma digits_val_20 (d : text) :
  all_digits d = true -> length d = 2 ->
  (2000 <= digits_val (str "20" ++ d) <= 2099)%Z.
Proof.
  intros Hd Hl.
  destruct d as [|d1 [|d2 [|? ?]]]; try discriminate Hl.
  cbn [all_digits forallb] in Hd.
  apply andb_true_iff in Hd. destruct Hd as [H1 Hd].
  apply andb_true_iff in Hd. destruct Hd as [H2 _].
  apply is_digit_val in H1. apply is_digit_val in H2.
  unfold digits_val. cbn [str list_ascii_of_string app fold_left].
  change (digit_val "2") with 2%Z. change (digit_val "0") with 0%Z.
  lia.
Qed.

(** X2. The year of a returned query, when there is one, is a number from
    2000 to 2099 written in the text as given (not lowered): the digits
    "20" followed by two digits. *)
Theorem parse_year_is_20xx (max_str_digits : nat) (q : text)
    (catalog : Catalog) (p : Parsed) (y : Z) :
  parse_with_patterns max_str_digits q catalog = Ok p ->
  year (structured p) = Some y ->
  (2000 <= y <= 2099)%Z
  /\ exists pre d post,
       q = pre ++ str "20" ++ d ++ post
       /\ all_digits d = true /\ length d = 2
       /\ y = digits_val (str "20" ++ d).
Proof.
  intros H Hy. apply parse_with_patterns_inv in H.
  destruct H as (lo & hi & y' & -> & Hyear). cbn [structured] in Hy.
  revert Hy. frame_through year.
  change (year (set_year y' (set_maxPrice hi (set_minPrice lo initial))))
    with y'.
  intros ->.
  destruct (search false ParseVehicleQuery.year_pattern q) as [mt|] eqn:Es;
    [|discriminate Hyear].
  destruct Hyear as (t & Hg & Hy).
  apply (f_equal (fun o => match o with Some z => z | None => 0%Z end)) in Hy.
  cbv beta iota in Hy. subst y.
  destruct (@year_group q mt t Es Hg) as (pre & d & post & Eq & Et & Hd & Hl).
  subst t. split; [apply digits_val_20; assumption|].
  exists pre, d, post. repeat split; assumption.
Qed.

Lemma parse_year_is_20xx_witness :
  exists p y,
    parse_with_patterns default_max_str_digits
      (str "2024 black Toyota RAV4 with heated seats") sample_catalog = Ok p
    /\ year (structured p) = Some y
    /\ (2000 <= y <= 2099)%Z
    /\ exists pre d post,
         str "2024 black Toyota RAV4 with heated seats"
         = pre ++ str "20" ++ d ++ post
         /\ all_digits d = true /\ length d = 2
         /\ y = digits_val (str "20" ++ d).
Proof.
  eexists. eexists. split; [vm_compute; reflexivity|].
  split; [vm_compute; reflexivity|].
  eapply (@parse_year_is_20xx default_max_str_digits
            (str "2024 black Toyota RAV4 with heated seats") sample_catalog);
    vm_compute; reflexivity.
Defined.

(** ** parse_vehicle_query.py: models, vocabularies, trims *)

(** X3. A returned query names at most one model, however many model
    names the text holds: the model names are tested in an [if]/[elif]
    chain. *)
Theorem parse_reports_at_most_one_model (max_str_digits : nat) (q : text)
    (catalog : Catalog) (p : Parsed) :
  parse_with_patterns max_str_digits q catalog = Ok p ->
  length (models (structured p)) <= 1.
Proof.
  intros H. apply parse_with_patterns_inv in H.
  destruct H as (lo & hi & y & -> & _). cbn [structured].
  rewrite (trims_loop_frame models) by reflexivity.
  rewrite models_chain_models.
  - unfold models_chain, append_model.
    repeat match goal with
           | |- context [if ?b then _ else _] => destruct b
           end; cbn [models set_models initial app length]; lia.
  - rewrite (makes_loop_frame models), (features_loop_frame models),
      !(first_in_frame models) by reflexivity.
    reflexivity.
Qed.

Lemma parse_reports_at_most_one_model_witness :
  exists p,
    parse_with_patterns default_max_str_digits
      (str "Ford F-150 or Chevy Silverado or Toyota Tundra") sample_catalog
    = Ok p
    /\ length (models (structured p)) <= 1.
Proof.
  eexists. split; [vm_compute; reflexivity|].
  apply (@parse_reports_at_most_one_model default_max_str_digits
           (str "Ford F-150 or Chevy Silverado or Toyota Tundra")
           sample_catalog).
  vm_compute. reflexivity.
Defined.

Lemma first_in_find (proj : Structured -> option text)
    (assign : option text -> Structured -> Structured) :
  (forall v s, proj (assign v s) = v) ->
  forall vocabulary query_lower s,
    proj (first_in vocabulary query_lower assign s)
    = match find (fun v => contains (lower v) query_lower) vocabulary with
      | Some v => Some v
      | None => proj s
      end.
Proof.
  intros Ha vocabulary query_lower s.
  induction vocabulary as [|v rest IH]; cbn [first_in find]; [reflexivity|].
  destruct (contains (lower v) query_lower); [apply Ha | exact IH].
Qed.

Lemma features_loop_features (vocabulary : list text) (query_lower : text) :
  forall s,
    features (features_loop vocabulary query_lower s)
    = features s
      ++ filter (fun v => contains (lower v) query_lower) vocabulary.
Proof.
  induction vocabulary as [|v rest IH]; intros s; cbn [features_loop filter].
  - symmetry. apply app_nil_r.
  - rewrite IH. destruct (contains (lower v) query_lower); [|reflexivity].
    cbn [features set_features]. rewrite <- app_assoc. reflexivity.
Qed.

(** X4. The four single-valued vocabulary keys of a returned query hold
    the first entry of the catalog list, in the order of the catalog,
    whose lowered form occurs in the lowered text ([None] when there is
    none), and [features] holds every such entry of its list, in the
    order of the catalog. An absent list counts as empty. *)
Theorem parse_vocabulary_keys (max_str_digits : nat) (q : text)
    (catalog : Catalog) (p : Parsed) :
  parse_with_patterns max_str_digits q catalog = Ok p ->
  exteriorColor (structured p)
  = find (fun v => contains (lower v) (lower q))
      (get_or (exterior_colors (get_or (global_filters catalog) empty_filters)) [])
  /\ bodyType (structured p)
     = find (fun v => contains (lower v) (lower q))
         (get_or (body_types (get_or (global_filters catalog) empty_filters)) [])
  /\ drivetrain (structured p)
     = find (fun v => contains (lower v) (lower q))
         (get_or (drivetrains (get_or (global_filters catalog) empty_filters)) [])
  /\ fuelType (structured p)
     = find (fun v => contains (lower v) (lower q))
         (get_or (fuel_types (get_or (global_filters catalog) empty_filters)) [])
  /\ features (structured p)
     = filter (fun v => contains (lower v) (lower q))
         (get_or (cat_features (get_or (global_filters catalog) empty_filters)) []).
Proof.
  intros H. apply parse_with_patterns_inv in H.
  destruct H as (lo & hi & y & -> & _). cbn [structured].
  repeat split.
  - rewrite (trims_loop_frame exteriorColor),
      (models_chain_frame exteriorColor), (makes_loop_frame exteriorColor),
      (features_loop_frame exteriorColor) by reflexivity.
    rewrite 3!(first_in_frame exteriorColor) by reflexivity.
    rewrite (@first_in_find exteriorColor set_exteriorColor) by reflexivity.
    destruct (find _ _); reflexivity.
  - rewrite (trims_loop_frame bodyType),
      (models_chain_frame bodyType), (makes_loop_frame bodyType),
      (features_loop_frame bodyType) by reflexivity.
    rewrite 2!(first_in_frame bodyType) by reflexivity.
    rewrite (@first_in_find bodyType set_bodyType) by reflexivity.
    rewrite (first_in_frame bodyType) by reflexivity.
    destruct (find _ _); reflexivity.
  - rewrite (trims_loop_frame drivetrain),
      (models_chain_frame drivetrain), (makes_loop_frame drivetrain),
      (features_loop_frame drivetrain) by reflexivity.
    rewrite (first_in_frame drivetrain) by reflexivity.
    rewrite (@first_in_find drivetrain set_drivetrain) by reflexivity.
    rewrite 2!(first_in_frame drivetrain) by reflexivity.
    destruct (find _ _); reflexivity.
  - rewrite (trims_loop_frame fuelType),
      (models_chain_frame fuelType), (makes_loop_frame fuelType),
      (features_loop_frame fuelType) by reflexivity.
    rewrite (@first_in_find fuelType set_fuelType) by reflexivity.
    rewrite 3!(first_in_frame fuelType) by reflexivity.
    destruct (find _ _); reflexivity.
  - rewrite (trims_loop_frame features),
      (models_chain_frame features), (makes_loop_frame features)
      by reflexivity.
    rewrite features_loop_features.
    rewrite 4!(first_in_frame features) by reflexivity.
    reflexivity.
Qed.

Lemma parse_vocabulary_keys_witness :
  exists p,
    parse_with_patterns default_max_str_digits
      (str "black or white diesel truck with sunroof and heated seats")
      sample_catalog = Ok p
    /\ exteriorColor (structured p)
       = find (fun v => contains (lower v)
                 (lower (str "black or white diesel truck with sunroof and heated seats")))
           (get_or (exterior_colors (get_or (global_filters sample_catalog) empty_filters)) [])
    /\ bodyType (structured p)
       = find (fun v => contains (lower v)
                 (lower (str "black or white diesel truck with sunroof and heated seats")))
           (get_or (body_types (get_or (global_filters sample_catalog) empty_filters)) [])
    /\ drivetrain (structured p)
       = find (fun v => contains (lower v)
                 (lower (str "black or white diesel truck with sunroof and heated seats")))
           (get_or (drivetrains (get_or (global_filters sample_catalog) empty_filters)) [])
    /\ fuelType (structured p)
       = find (fun v => contains (lower v)
                 (lower (str "black or white diesel truck with sunroof and heated seats")))
           (get_or (fuel_types (get_or (global_filters sample_catalog) empty_filters)) [])
    /\ features (structured p)
       = filter (fun v => contains (lower v)
                   (lower (str "black or white diesel truck with sunroof and heated seats")))
           (get_or (cat_features (get_or (global_filters sample_catalog) empty_filters)) []).
Proof.
  eexists. split; [vm_compute; reflexivity|].
  apply (@parse_vocabulary_keys default_max_str_digits
           (str "black or white diesel truck with sunroof and heated seats")
           sample_catalog).
  vm_compute. reflexivity.
Defined.

Lemma contains_app_l (a b s : text) :
  contains (a ++ b) s = true -> contains a s = true.
Proof.
  intros H. apply contains_spec in H. destruct H as (pre & post & ->).
  apply contains_spec. exists pre, (b ++ post).
  rewrite <- app_assoc. reflexivity.
Qed.

Lemma parse_trims (max_str_digits : nat) (q : text) (catalog : Catalog)
    (p : Parsed) :
  parse_with_patterns max_str_digits q catalog = Ok p ->
  trims (structured p) = map snd (filter (occurs (lower q)) trim_patterns).
Proof.
  intros H. apply parse_with_patterns_inv in H.
  destruct H as (lo & hi & y & -> & _). cbn [structured].
  rewrite trims_loop_trims.
  rewrite (models_chain_frame trims), (makes_loop_frame trims),
    (features_loop_frame trims), !(first_in_frame trims) by reflexivity.
  reflexivity.
Qed.

(** X5. The trims are found by substring tests, so a query whose trims
    hold "Denali Ultimate" always holds "Denali" too: the two come first,
    in that order, and the longer phrase never replaces the shorter
    one. *)
Theorem parse_denali_ultimate_adds_denali (max_str_digits : nat) (q : text)
    (catalog : Catalog) (p : Parsed) :
  parse_with_patterns max_str_digits q catalog = Ok p ->
  In (str "Denali Ultimate") (trims (structured p)) ->
  firstn 2 (trims (structured p)) = [str "Denali Ultimate"; str "Denali"].
Proof.
  intros H Hin. rewrite (@parse_trims _ _ _ _ H) in *. clear H.
  remember (tl (tl trim_patterns)) as T eqn:ET.
  change trim_patterns
    with ((str "denali ultimate", str "Denali Ultimate")
          :: (str "denali", str "Denali") :: tl (tl trim_patterns))
    in Hin |- *.
  rewrite <- ET in Hin |- *.
  cbn [filter] in Hin |- *. unfold occurs in Hin |- *.
  cbn [fst] in Hin |- *.
  destruct (contains (str "denali ultimate") (lower q)) eqn:E.
  - apply (contains_app_l (str "denali") (str " ultimate")) in E.
    rewrite E. reflexivity.
  - exfalso. apply in_map_iff in Hin. destruct Hin as ([k v] & Hv & Hk).
    cbn [snd] in Hv. subst v.
    assert (Hk' : In (k, str "Denali Ultimate")
                    ((str "denali", str "Denali") :: T)).
    { destruct (contains (str "denali") (lower q)).
      - destruct Hk as [Hk|Hk]; [left; exact Hk|].
        right. apply filter_In in Hk. destruct Hk as [Hk _]. exact Hk.
      - right. apply filter_In in Hk. destruct Hk as [Hk _]. exact Hk. }
    clear Hk. subst T. vm_compute in Hk'.
    repeat (destruct Hk' as [Hk'|Hk']; [discriminate Hk'|]).
    exact Hk'.
Qed.

Lemma parse_denali_ultimate_adds_denali_witness :
  exists p,
    parse_with_patterns default_max_str_digits
      (str "GMC Sierra 3500 Denali Ultimate limited") sample_catalog = Ok p
    /\ firstn 2 (trims (structured p))
       = [str "Denali Ultimate"; str "Denali"].
Proof.
  eexists. split; [vm_compute; reflexivity|].
  apply (@parse_denali_ultimate_adds_denali default_max_str_digits
           (str "GMC Sierra 3500 Denali Ultimate limited") sample_catalog).
  - vm_compute. reflexivity.
  - vm_compute. left. reflexivity.
Defined.

(** ** parse_vehicle_query.py: a text without digits *)

Lemma lower_char_digit (c : ascii) : is_digit (lower_char c) = is_digit c.
Proof.
  destruct c as [b0 b1 b2 b3 b4 b5 b6 b7].
  destruct b0, b1, b2, b3, b4, b5, b6, b7; vm_compute; reflexivity.
Qed.

Lemma no_digits_lower (q : text) :
  forallb (fun c => negb (is_digit c)) q = true ->
  forallb (fun c => negb (is_digit c)) (lower q) = true.
Proof.
  unfold lower. induction q as [|c q IH]; cbn [map forallb]; [auto|].
  intros H. apply andb_true_iff in H. destruct H as [Hc Hq].
  rewrite lower_char_digit, Hc. cbn [andb]. auto.
Qed.

(** A pattern whose group 1 reads digits finds nothing in a text without
    digits. *)
Lemma no_digits_no_match (ic : bool) (r : regex) (s : text) :
  numeric_groups ic r = true -> sets_group 1 r = true ->
  forallb (fun c => negb (is_digit c)) s = true ->
  search ic r s = None.
Proof.
  intros Hn Hs Hd. destruct (search ic r s) as [mt|] eqn:E; [|reflexivity].
  exfalso.
  destruct (@search_numeric_group ic r s mt 1 E Hn Hs ltac:(discriminate))
    as (b & g & _ & _ & Hg & Hl & _ & Hslice).
  destruct (@slice_decompose s g b Hslice) as (pre & post & ->).
  destruct g as [|c g]; [cbn [length] in Hl; lia|].
  rewrite !forallb_app in Hd. cbn [forallb all_digits] in Hd, Hg.
  apply andb_true_iff in Hg. destruct Hg as [Hc _].
  rewrite Hc in Hd. cbn [negb andb] in Hd.
  rewrite andb_false_r in Hd. discriminate Hd.
Qed.

Lemma price_loop_no_match (max_str_digits : nat) (query_lower : text)
    (s : Structured) :
  forall patterns,
    Forall (fun p => search false p query_lower = None) patterns ->
    ParseVehicleQuery.price_loop max_str_digits patterns query_lower s = Ok s.
Proof.
  induction 1 as [|p ps Hp _ IH]; cbn [ParseVehicleQuery.price_loop];
    [reflexivity|].
  rewrite Hp. exact IH.
Qed.

(** X6. A text without any decimal digit gets no price and no year, and
    the parser returns whatever the bound on integer conversions is: every
    price pattern and the year pattern need a digit. *)
Theorem parse_without_digits (max_str_digits : nat) (q : text)
    (catalog : Catalog) :
  forallb (fun c => negb (is_digit c)) q = true ->
  exists p,
    parse_with_patterns max_str_digits q catalog = Ok p
    /\ minPrice (structured p) = None
    /\ maxPrice (structured p) = None
    /\ year (structured p) = None.
Proof.
  intros Hd. unfold parse_with_patterns.
  rewrite price_loop_no_match.
  - cbn [bind].
    destruct year_pattern_shape as [Hn Hs].
    rewrite (@no_digits_no_match false ParseVehicleQuery.year_pattern q Hn Hs Hd).
    cbn [bind]. eexists. split; [reflexivity|]. cbn [structured].
    repeat split.
    + frame_through minPrice. reflexivity.
    + frame_through maxPrice. reflexivity.
    + frame_through year. reflexivity.
  - pose proof price_patterns_shape as Hshape.
    rewrite forallb_forall in Hshape. apply Forall_forall. intros r Hr.
    specialize (Hshape r Hr). unfold price_pattern_shape in Hshape.
    apply andb_true_iff in Hshape. destruct Hshape as [Hshape _].
    apply andb_true_iff in Hshape. destruct Hshape as [Hn Hs].
    apply no_digits_no_match; [exact Hn | exact Hs|].
    apply no_digits_lower. exact Hd.
Qed.

Lemma parse_without_digits_witness :
  exists p,
    parse_with_patterns default_max_str_digits
      (str "Black GMC Sierra Denali under fifty thousand") sample_catalog
    = Ok p
    /\ minPrice (structured p) = None
    /\ maxPrice (structured p) = None
    /\ year (structured p) = None.
Proof.
  apply (@parse_without_digits default_max_str_digits
           (str "Black GMC Sierra Denali under fifty thousand")
           sample_catalog).
  vm_compute. reflexivity.
Defined.

(** ** [extract_number] on any text *)

Lemma number_class_keeps (c : ascii) :
  negb (cs_mem false (class_pattern "[^\d,.]") c)
  = is_digit c || Ascii.eqb c ","%char || Ascii.eqb c "."%char.
Proof.
  rewrite number_class. cbn [cs_mem]. rewrite negb_involutive.
  destruct (ascii_dec c ","%char) as [->|Hc]; [reflexivity|].
  replace (Ascii.eqb c ",") with false
    by (symmetry; apply Ascii.eqb_neq; exact Hc).
  destruct (ascii_dec c "."%char) as [->|Hp]; [reflexivity|].
  replace (Ascii.eqb c ".") with false
    by (symmetry; apply Ascii.eqb_neq; exact Hp).
  destruct (is_digit c); reflexivity.
Qed.

(** The text [extract_number] hands to [float]: the digits and the points
    of its argument. *)
Lemma extract_number_cleaned (t : text) :
  replace_char ","%char [] (sub_class (class_pattern "[^\d,.]") t)
  = filter (fun c => is_digit c || Ascii.eqb c "."%char) t.
Proof.
  unfold sub_class, replace_char.
  rewrite (filter_ext _ _ number_class_keeps).
  induction t as [|c t IH]; [reflexivity|].
  cbn [filter].
  destruct (ascii_dec c ","%char) as [->|Hc].
  - replace (is_digit "," || Ascii.eqb "," "," || Ascii.eqb "," ".")
      with true by reflexivity.
    replace (is_digit "," || Ascii.eqb "," ".") with false by reflexivity.
    cbn [flat_map]. destruct (ascii_dec "," ","); [|congruence].
    cbn [app]. exact IH.
  - replace (Ascii.eqb c ",") with false
      by (symmetry; apply Ascii.eqb_neq; exact Hc).
    rewrite orb_false_r.
    destruct (is_digit c || Ascii.eqb c "."); [|exact IH].
    cbn [flat_map]. destruct (ascii_dec c ","%char); [congruence|].
    cbn [app]. rewrite IH. reflexivity.
Qed.

Lemma extract_number_eq (t : text) :
  extract_number t
  = match py_int_of_float
            (filter (fun c => is_digit c || Ascii.eqb c "."%char) t) with
    | Ok n => n
    | Raise _ => 0%Z
    end.
Proof.
  unfold extract_number. destruct t as [|c t]; [reflexivity|].
  rewrite extract_number_cleaned. reflexivity.
Qed.

Lemma filter_digits_or_point (t : text) :
  existsb (fun c => Ascii.eqb c "."%char) t = false ->
  filter (fun c => is_digit c || Ascii.eqb c "."%char) t = filter is_digit t.
Proof.
  induction t as [|c t IH]; cbn [existsb filter]; [reflexivity|].
  intros H. apply orb_false_iff in H. destruct H as [Hc Ht].
  rewrite Hc, orb_false_r, IH by exact Ht. reflexivity.
Qed.

Lemma all_digits_filter (t : text) : all_digits (filter is_digit t) = true.
Proof.
  unfold all_digits. apply forallb_forall. intros c Hc.
  apply filter_In in Hc. apply Hc.
Qed.

(** X7. On a text without a point, [extract_number] returns the number
    written by all the decimal digits of the text taken together, in
    order, whatever stands between them (a currency sign, commas, words),
    as long as there are 1 to 15 digits. *)
Theorem extract_number_reads_all_digits (t : text) :
  existsb (fun c => Ascii.eqb c "."%char) t = false ->
  1 <= length (filter is_digit t) <= 15 ->
  extract_number t = digits_val (filter is_digit t).
Proof.
  intros Hp Hl. rewrite extract_number_eq, filter_digits_or_point by exact Hp.
  rewrite py_int_of_float_digits; [reflexivity | apply all_digits_filter | exact Hl].
Qed.

Lemma extract_number_reads_all_digits_witness :
  extract_number (str "Price: $45,000 (was $50,000)")
  = digits_val (filter is_digit (str "Price: $45,000 (was $50,000)")).
Proof.
  apply (@extract_number_reads_all_digits (str "Price: $45,000 (was $50,000)")).
  - vm_compute. reflexivity.
  - vm_compute. split; lia.
Defined.

Lemma split_point_spec (s : text) :
  In "."%char s ->
  exists ip fp,
    split_point s = (ip, Some fp) /\ s = ip ++ "."%char :: fp
    /\ ~ In "."%char ip.
Proof.
  induction s as [|c s IH]; intros H; [destruct H|].
  cbn [split_point]. destruct (ascii_dec c "."%char) as [->|Hc].
  - exists [], s. repeat split. intros [].
  - destruct H as [H|H]; [congruence|].
    destruct (IH H) as (ip & fp & E & -> & Hip). rewrite E.
    exists (c :: ip), fp. repeat split.
    intros [Hx|Hx]; [congruence | exact (Hip Hx)].
Qed.

Lemma split_point_none (s : text) :
  ~ In "."%char s -> split_point s = (s, None).
Proof.
  induction s as [|c s IH]; intros H; [reflexivity|].
  cbn [split_point]. destruct (ascii_dec c "."%char) as [->|Hc].
  - exfalso. apply H. left. reflexivity.
  - rewrite IH; [reflexivity|]. intros Hin. apply H. right. exact Hin.
Qed.

Lemma all_digits_no_point (s : text) :
  In "."%char s -> all_digits s = false.
Proof.
  intros H. destruct (all_digits s) eqn:E; [|reflexivity].
  unfold all_digits in E. rewrite forallb_forall in E.
  specialize (E _ H). discriminate E.
Qed.

(** X8. [extract_number] never returns a negative number, and it returns
    0 for every text without a decimal digit (the empty text, words, a
    lone sign or point). *)
Theorem extract_number_never_negative (t : text) :
  (0 <= extract_number t)%Z
  /\ (forallb (fun c => negb (is_digit c)) t = true ->
      extract_number t = 0%Z).
Proof.
  split; [apply extract_number_nonneg|].
  intros Hd. rewrite extract_number_eq.
  set (cleaned := filter _ t).
  assert (Hc : forall c, In c cleaned -> c = "."%char).
  { intros c Hc. apply filter_In in Hc. destruct Hc as [Hin Hk].
    rewrite forallb_forall in Hd. specialize (Hd c Hin).
    apply negb_true_iff in Hd. rewrite Hd in Hk. cbn [orb] in Hk.
    apply Ascii.eqb_eq. exact Hk. }
  unfold py_int_of_float.
  destruct cleaned as [|c s]; [reflexivity|].
  assert (c = "."%char) as -> by (apply Hc; left; reflexivity).
  cbn [split_point]. destruct (ascii_dec "." "."); [|congruence].
  cbn [all_digits forallb andb app].
  destruct s as [|c' s]; [reflexivity|].
  assert (c' = "."%char) as -> by (apply Hc; right; left; reflexivity).
  reflexivity.
Qed.

(** X9. A text with two or more points makes [float] fail, and
    [extract_number] returns 0 whatever digits the text holds. *)
Theorem extract_number_two_points (t : text) :
  2 <= count_occ ascii_dec t "."%char ->
  extract_number t = 0%Z.
Proof.
  intros H. rewrite extract_number_eq.
  set (cleaned := filter _ t).
  assert (Hcount : count_occ ascii_dec cleaned "."%char
                   = count_occ ascii_dec t "."%char).
  { subst cleaned. clear H. induction t as [|c t IH]; [reflexivity|].
    cbn [filter]. destruct (ascii_dec c "."%char) as [->|Hc].
    - cbn [is_digit orb]. replace (Ascii.eqb "." ".") with true by reflexivity.
      rewrite orb_true_r. rewrite !count_occ_cons_eq by reflexivity.
      rewrite IH. reflexivity.
    - rewrite (count_occ_cons_neq _ t Hc).
      destruct (is_digit c || Ascii.eqb c "."); [|exact IH].
      rewrite count_occ_cons_neq by exact Hc. exact IH. }
  rewrite <- Hcount in H. clearbody cleaned. clear Hcount t.
  unfold py_int_of_float.
  assert (Hin : In "."%char cleaned) by (apply (count_occ_In ascii_dec); lia).
  destruct (split_point_spec cleaned Hin) as (ip & fp & E & -> & Hip).
  rewrite E.
  assert (Hfp : In "."%char fp).
  { apply (count_occ_In ascii_dec).
    rewrite count_occ_app, count_occ_cons_eq in H by reflexivity.
    apply (count_occ_not_In ascii_dec) in Hip. lia. }
  rewrite (all_digits_no_point fp Hfp), andb_false_r. reflexivity.
Qed.

Lemma extract_number_two_points_witness :
  extract_number (str "$45,000. Call 555.1234") = 0%Z.
Proof.
  apply (@extract_number_two_points (str "$45,000. Call 555.1234")).
  vm_compute. lia.
Defined.

(** ** The scrapers: what every emitted listing looks like *)

Lemma append_loop_length {A} (body : A -> result (option Listing))
    (loop : list A -> list Listing -> list Listing) :
  (forall l rest results,
     loop (l :: rest) results
     = loop rest (match body l with
                  | Ok (Some d) => results ++ [d]
                  | Ok None => results
                  | Raise _ => results
                  end)) ->
  (forall results, loop [] results = results) ->
  forall listings results,
    length (loop listings results) <= length results + length listings.
Proof.
  intros Hcons Hnil. induction listings as [|l rest IH]; intros results.
  - rewrite Hnil. cbn [length]. lia.
  - rewrite Hcons. etransitivity; [apply IH|]. cbn [length].
    destruct (body l) as [[d|]|]; rewrite ?length_app; cbn [length]; lia.
Qed.

Lemma slice_to_length {A} (n : Z) (l : list A) :
  (0 <= n)%Z -> (Z.of_nat (length (slice_to n l)) <= n)%Z.
Proof.
  intros Hn. unfold slice_to.
  replace (0 <=? n)%Z with true by (symmetry; apply Z.leb_le; exact Hn).
  rewrite length_firstn. lia.
Qed.

Lemma split_on_hd (sep : ascii) (s : text) :
  forall cur,
    exists pre post,
      s = pre ++ post /\ ~ In sep pre
      /\ hd [] (split_on sep cur s) = rev cur ++ pre.
Proof.
  induction s as [|c s IH]; intros cur; cbn [split_on].
  - exists [], []. repeat split; [intros [] | symmetry; apply app_nil_r].
  - destruct (ascii_dec c sep) as [->|Hc].
    + exists [], (sep :: s). repeat split; [intros [] |].
      cbn [hd]. symmetry. apply app_nil_r.
    + destruct (IH (c :: cur)) as (pre & post & -> & Hpre & Hhd).
      exists (c :: pre), post. repeat split.
      * intros [Hx|Hx]; [congruence | exact (Hpre Hx)].
      * rewrite Hhd. cbn [rev]. rewrite <- app_assoc. reflexivity.
Qed.

(** [s.split(sep)[0]] is the part of [s] before the first [sep]. *)
Lemma split_hd (sep : ascii) (s : text) :
  exists post,
    s = hd [] (split sep s) ++ post /\ ~ In sep (hd [] (split sep s)).
Proof.
  unfold split. destruct (split_on_hd sep s []) as (pre & post & E & Hpre & Hhd).
  cbn [rev app] in Hhd. rewrite Hhd. exists post. split; assumption.
Qed.

(** What one listing link becomes in scrape-autotrader-cdp.py. *)
Lemma cdp_extract_listing_shape (max_str_digits : nat)
    (listing : AutoTraderCdp.LinkElement) (d : Listing) :
  AutoTraderCdp.extract_listing max_str_digits listing = Ok (Some d) ->
  cdp_listing_shape d.
Proof.
  intros H. split; [eapply cdp_extract_listing_priced; exact H|].
  revert H. unfold AutoTraderCdp.extract_listing.
  destruct (AutoTraderCdp.get_attribute_href listing) as [href|];
    cbn [bind]; [|intros [=]].
  destruct (AutoTraderCdp.link_inner_text listing) as [link_text|];
    cbn [bind]; [|intros [=]].
  match goal with
  | |- (if ?c then Ok None else _) = _ -> _ =>
      destruct c eqn:Etitle; [intros [=]|]
  end.
  set (all_text := AutoTraderCdp.resolve_all_text listing).
  destruct (AutoTraderCdp.extract_mileage max_str_digits all_text)
    as [m|]; cbn [bind]; [|intros [=]].
  destruct (0 <? AutoTraderCdp.extract_price all_text)%Z; [|intros [=]].
  destruct (search false AutoTraderCdp.dealer_pattern all_text) as [mt|];
    [destruct (group mt 1) as [g|]|];
    (intros [= <-]; cbn [retailer url name];
     split; [reflexivity|];
     destruct (split_hd "#"%char (match href with Some u => u | None => [] end))
       as (post & _ & Hno);
     split; [|split; [|split; [|reflexivity]]]).
  all: try (destruct (startswith "http" (hd [] (split "#"%char _))) eqn:E;
            [exact E | reflexivity]).
  all: try (destruct (startswith "http" (hd [] (split "#"%char _)));
            [exact Hno|];
            intros Hin;
            repeat (destruct Hin as [Hin|Hin]; [discriminate Hin|]);
            exact (Hno Hin)).
  all: apply orb_false_iff in Etitle; destruct Etitle as [Etitle _];
    apply orb_false_iff in Etitle; destruct Etitle as [_ Etitle];
    apply Nat.ltb_ge in Etitle; exact Etitle.
Qed.

Lemma cdp_scrape_inv (max_str_digits : nat) (query : text)
    (max_results : Z) (page : AutoTraderCdp.Page) (results : list Listing) :
  AutoTraderCdp.scrape_autotrader_cdp max_str_digits query max_results page
  = Some results ->
  exists ls,
    results = AutoTraderCdp.extract_loop max_str_digits ls []
    /\ ((0 <= max_results)%Z -> (Z.of_nat (length ls) <= max_results)%Z).
Proof.
  assert (Hnil : exists ls : list AutoTraderCdp.LinkElement,
             @nil Listing = AutoTraderCdp.extract_loop max_str_digits ls []
             /\ ((0 <= max_results)%Z ->
                 (Z.of_nat (length ls) <= max_results)%Z)).
  { exists []. split; [reflexivity|]. cbn [length]. lia. }
  unfold AutoTraderCdp.scrape_autotrader_cdp.
  destruct (negb (AutoTraderCdp.connect_over_cdp page)); [intros [=]|].
  destruct (AutoTraderCdp.navigate_and_scroll page); cbn [bind];
    [|intros [= <-]; exact Hnil].
  destruct (AutoTraderCdp.inner_text_body page) as [t|]; cbn [bind];
    [|intros [= <-]; exact Hnil].
  destruct (AutoTraderCdp.classify t);
    try (intros [= <-]; exact Hnil).
  destruct (AutoTraderCdp.query_selector_all_links page) as [ls|];
    cbn [bind]; [|intros [= <-]; exact Hnil].
  destruct ls as [|l ls]; [intros [= <-]; exact Hnil|].
  destruct (AutoTraderCdp.dedupe (l :: ls)) as [u|]; cbn [bind];
    [|intros [= <-]; exact Hnil].
  intros [= <-]. exists (slice_to max_results u).
  split; [reflexivity | apply slice_to_length].
Qed.

(** X10. Every listing [scrape_autotrader_cdp] returns has an integer
    price above zero and an integer mileage not below zero, the retailer
    "AutoTrader", an address that starts with "http" and holds no "#", a
    name of at least 10 characters and a location that starts with
    "AutoTrader"; and with a [max_results] that is not negative it never
    returns more than [max_results] listings. *)
Theorem cdp_results_shape (max_str_digits : nat) (query : text)
    (max_results : Z) (page : AutoTraderCdp.Page) (results : list Listing) :
  AutoTraderCdp.scrape_autotrader_cdp max_str_digits query max_results page
  = Some results ->
  ((0 <= max_results)%Z -> (Z.of_nat (length results) <= max_results)%Z)
  /\ Forall cdp_listing_shape results.
Proof.
  intros H. apply cdp_scrape_inv in H. destruct H as (ls & -> & Hlen).
  split.
  - intros Hm. specialize (Hlen Hm).
    pose proof (@append_loop_length _
                  (AutoTraderCdp.extract_listing max_str_digits)
                  (AutoTraderCdp.extract_loop max_str_digits)
                  ltac:(reflexivity) ltac:(reflexivity) ls []) as Hl.
    cbn [length] in Hl. lia.
  - apply (@append_loop_Forall _ _
             (AutoTraderCdp.extract_listing max_str_digits)
             (AutoTraderCdp.extract_loop max_str_digits));
      [reflexivity | reflexivity | | constructor].
    intros l d Hd. eapply cdp_extract_listing_shape. exact Hd.
Qed.

Lemma cdp_results_shape_witness :
  exists results,
    AutoTraderCdp.scrape_autotrader_cdp default_max_str_digits
      (str "GMC Sierra") 10 sample_page = Some results
    /\ ((0 <= 10)%Z -> (Z.of_nat (length results) <= 10)%Z)
    /\ Forall cdp_listing_shape results.
Proof.
  eexists. split; [vm_compute; reflexivity|].
  apply (@cdp_results_shape default_max_str_digits (str "GMC Sierra") 10
           sample_page).
  vm_compute. reflexivity.
Defined.


(** What one listing link becomes in scrape-kbb.py. *)
Lemma kbb_extract_listing_shape (max_str_digits : nat) (query : text)
    (listing : Element) (d : Listing) :
  Kbb.extract_listing max_str_digits query listing = Ok (Some d) ->
  kbb_listing_shape d.
Proof.
  intros H. split; [eapply kbb_extract_listing_priced; exact H|].
  revert H. unfold Kbb.extract_listing.
  destruct (inner_text listing) as [all_text|]; cbn [bind]; [|intros [=]].
  destruct (get_attribute listing "href") as [href|]; cbn [bind];
    [|intros [=]].
  destruct (Kbb.title_loop max_str_digits _ _) as [[[condition year] title]|];
    cbn [bind]; [|intros [=]].
  destruct (query_selector listing "img") as [img|]; cbn [bind];
    [|intros [=]].
  destruct (match img with Some _ => _ | None => _ end) as [image|];
    cbn [bind]; [|intros [=]].
  destruct (0 <? Kbb.price_loop _)%Z; [|intros [=]].
  intros [= <-]. cbn [retailer url]. split; [reflexivity|].
  destruct (startswith "http" (or_empty href)) eqn:E; [exact E | reflexivity].
Qed.

Lemma kbb_scrape_inv (max_str_digits : nat) (query : text)
    (max_results : Z) (browser : Browser) (results : list Listing) :
  Kbb.scrape_kbb max_str_digits query max_results browser = Ok results ->
  exists ls,
    results = Kbb.extract_loop max_str_digits query ls []
    /\ ((0 <= max_results)%Z -> (Z.of_nat (length ls) <= max_results)%Z).
Proof.
  assert (Hnil : exists ls : list Element,
             @nil Listing = Kbb.extract_loop max_str_digits query ls []
             /\ ((0 <= max_results)%Z ->
                 (Z.of_nat (length ls) <= max_results)%Z)).
  { exists []. split; [reflexivity|]. cbn [length]. lia. }
  unfold Kbb.scrape_kbb, with_browser.
  destruct (launch browser); cbn [bind]; [|intros [=]].
  destruct (close browser); cbn [bind]; [|intros [=]].
  destruct (new_page_goto browser); cbn [bind]; [|intros [= <-]; exact Hnil].
  destruct (query_selector_all browser _) as [ls|]; cbn [bind];
    [|intros [= <-]; exact Hnil].
  intros [= <-]. exists (slice_to max_results ls).
  split; [reflexivity | apply slice_to_length].
Qed.

(** X11. Every listing [scrape_kbb] returns has an integer price above
    zero and an integer mileage not below zero, the retailer "KBB" and an
    address that starts with "http"; and with a [max_results] that is not
    negative it never returns more than [max_results] listings. *)
Theorem kbb_results_shape (max_str_digits : nat) (query : text)
    (max_results : Z) (browser : Browser) (results : list Listing) :
  Kbb.scrape_kbb max_str_digits query max_results browser = Ok results ->
  ((0 <= max_results)%Z -> (Z.of_nat (length results) <= max_results)%Z)
  /\ Forall kbb_listing_shape results.
Proof.
  intros H. apply kbb_scrape_inv in H. destruct H as (ls & -> & Hlen).
  split.
  - intros Hm. specialize (Hlen Hm).
    pose proof (@append_loop_length _
                  (Kbb.extract_listing max_str_digits query)
                  (Kbb.extract_loop max_str_digits query)
                  ltac:(reflexivity) ltac:(reflexivity) ls []) as Hl.
    cbn [length] in Hl. lia.
  - apply (@append_loop_Forall _ _
             (Kbb.extract_listing max_str_digits query)
             (Kbb.extract_loop max_str_digits query));
      [reflexivity | reflexivity | | constructor].
    intros l d Hd. eapply kbb_extract_listing_shape. exact Hd.
Qed.

Lemma kbb_results_shape_witness :
  exists results,
    Kbb.scrape_kbb default_max_str_digits (str "GMC Sierra") 3 kbb_browser
    = Ok results
    /\ ((0 <= 3)%Z -> (Z.of_nat (length results) <= 3)%Z)
    /\ Forall kbb_listing_shape results.
Proof.
  eexists. split; [vm_compute; reflexivity|].
  apply (@kbb_results_shape default_max_str_digits (str "GMC Sierra") 3
           kbb_browser).
  vm_compute. reflexivity.
Defined.


(** What one card becomes in scrape-autotrader.py. *)
Lemma autotrader_extract_listing_shape (listing : Element) (d : Listing) :
  AutoTrader.extract_listing listing = Ok (Some d) ->
  autotrader_listing_shape d.
Proof.
  intros H. split; [eapply autotrader_extract_listing_priced; exact H|].
  revert H. unfold AutoTrader.extract_listing.
  destruct (inner_text listing) as [all_text|]; cbn [bind]; [|intros [=]].
  destruct (query_selector listing "h2, h3, a[data-cmp=subheading]")
    as [te|]; cbn [bind]; [|intros [=]].
  destruct (match te with Some _ => _ | None => _ end) as [title|];
    cbn [bind]; [|intros [=]].
  destruct (query_selector listing _) as [pe|]; cbn [bind]; [|intros [=]].
  destruct (match pe with Some _ => _ | None => _ end) as [p|];
    cbn [bind]; [|intros [=]].
  destruct (query_selector listing "img") as [ie|]; cbn [bind];
    [|intros [=]].
  destruct (match ie with Some _ => _ | None => _ end) as [image|];
    cbn [bind]; [|intros [=]].
  destruct (query_selector listing _) as [le|]; cbn [bind]; [|intros [=]].
  destruct (match le with Some _ => _ | None => _ end) as [u|] eqn:Eu;
    cbn [bind]; [|intros [=]].
  destruct (0 <? p)%Z; [|intros [=]].
  intros [= <-]. cbn [retailer url].
  split; [reflexivity|]. split.
  - destruct le as [e|]; [|left; injection Eu as <-; reflexivity].
    destruct (get_attribute e "href") as [href|]; cbn [bind] in Eu;
      [|discriminate Eu].
    injection Eu as <-. right.
    destruct (startswith "http" (or_empty href)) eqn:E;
      [exact E | reflexivity].
  - destruct (search false AutoTrader.dealer_pattern all_text);
      reflexivity.
Qed.

Lemma autotrader_scrape_inv (query : text) (max_results : Z)
    (browser : Browser) (results : list Listing) :
  AutoTrader.scrape_autotrader query max_results browser = Ok results ->
  exists ls,
    results = AutoTrader.extract_loop ls []
    /\ ((0 <= max_results)%Z -> (Z.of_nat (length ls) <= max_results)%Z).
Proof.
  assert (Hnil : exists ls : list Element,
             @nil Listing = AutoTrader.extract_loop ls []
             /\ ((0 <= max_results)%Z ->
                 (Z.of_nat (length ls) <= max_results)%Z)).
  { exists []. split; [reflexivity|]. cbn [length]. lia. }
  unfold AutoTrader.scrape_autotrader, with_browser.
  generalize (AutoTrader.find_listings browser AutoTrader.selectors).
  intros found.
  destruct (launch browser); cbn [bind]; [|intros [=]].
  destruct (close browser); cbn [bind]; [|intros [=]].
  destruct (new_page_goto browser); cbn [bind]; [|intros [= <-]; exact Hnil].
  destruct found as [ls|]; cbn [bind]; [|intros [= <-]; exact Hnil].
  destruct ls as [|l ls]; [intros [= <-]; exact Hnil|].
  intros [= <-]. exists (slice_to max_results (l :: ls)).
  split; [reflexivity | apply slice_to_length].
Qed.

(** X12. Every listing [scrape_autotrader] returns has an integer price
    above zero and an integer mileage not below zero, the retailer
    "AutoTrader", an address that is empty or starts with "http" and a
    location that starts with "AutoTrader"; and with a [max_results] that
    is not negative it never returns more than [max_results] listings. *)
Theorem autotrader_results_shape (query : text) (max_results : Z)
    (browser : Browser) (results : list Listing) :
  AutoTrader.scrape_autotrader query max_results browser = Ok results ->
  ((0 <= max_results)%Z -> (Z.of_nat (length results) <= max_results)%Z)
  /\ Forall autotrader_listing_shape results.
Proof.
  intros H. apply autotrader_scrape_inv in H. destruct H as (ls & -> & Hlen).
  split.
  - intros Hm. specialize (Hlen Hm).
    pose proof (@append_loop_length _ AutoTrader.extract_listing
                  AutoTrader.extract_loop
                  ltac:(reflexivity) ltac:(reflexivity) ls []) as Hl.
    cbn [length] in Hl. lia.
  - apply (@append_loop_Forall _ _ AutoTrader.extract_listing
             AutoTrader.extract_loop);
      [reflexivity | reflexivity | | constructor].
    intros l d Hd. eapply autotrader_extract_listing_shape. exact Hd.
Qed.

Lemma autotrader_results_shape_witness :
  exists results,
    AutoTrader.scrape_autotrader (str "GMC Sierra") 5 autotrader_browser
    = Ok results
    /\ ((0 <= 5)%Z -> (Z.of_nat (length results) <= 5)%Z)
    /\ Forall autotrader_listing_shape results.
Proof.
  eexists. split; [vm_compute; reflexivity|].
  apply (@autotrader_results_shape (str "GMC Sierra") 5 autotrader_browser).
  vm_compute. reflexivity.
Defined.

(** ** scrape-autotrader-cdp.py: the range of the price heuristic *)

Lemma last_filter_qualifying (l : list Z) :
  last (filter qualifying l) 0%Z = 0%Z
  \/ qualifying (last (filter qualifying l) 0%Z) = true.
Proof.
  destruct (filter qualifying l) as [|x l'] eqn:E; [left; reflexivity|].
  right.
  assert (Hin : In (last (x :: l') 0%Z) (filter qualifying l)).
  { rewrite E.
    destruct (@exists_last _ (x :: l') ltac:(discriminate)) as (l0 & a & ->).
    rewrite last_last. apply in_or_app. right. left. reflexivity. }
  apply filter_In in Hin. apply Hin.
Qed.

(** X19. When no "$" amount is found, the price scrape-autotrader-cdp.py
    reads is 0 or a number from 5,000 to 500,000 outside 1900..2100:
    the heuristic never yields another value. *)
Theorem price_heuristic_range (all_text : text) :
  price_heuristic all_text = 0%Z
  \/ ((5000 <= price_heuristic all_text <= 500000)%Z
      /\ ~ (1900 <= price_heuristic all_text <= 2100)%Z).
Proof.
  rewrite price_heuristic_two_tier. unfold two_tier_price.
  assert (H : forall l,
            last (filter qualifying l) 0%Z = 0%Z
            \/ ((5000 <= last (filter qualifying l) 0 <= 500000)%Z
                /\ ~ (1900 <= last (filter qualifying l) 0 <= 2100)%Z)).
  { intros l. destruct (last_filter_qualifying l) as [H|H];
      [left; exact H|]. right.
    remember (last (filter qualifying l) 0%Z) as v eqn:Ev. clear Ev.
    unfold qualifying in H. apply andb_true_iff in H. destruct H as [H1 H2].
    apply andb_true_iff in H2. destruct H2 as [H2 H3].
    apply Z.leb_le in H2. apply Z.leb_le in H3.
    split; [lia|]. intros [Ha Hb].
    apply negb_true_iff in H1. apply andb_false_iff in H1.
    destruct H1 as [H1|H1]; apply Z.leb_gt in H1; lia. }
  destruct (filter qualifying (token_values grouped_pattern all_text))
    as [|x l] eqn:E.
  - apply H.
  - rewrite <- E. apply H.
Qed.

(** ** scrape-truecar.py: the address of the rendered channel *)

Lemma bind_elim {A B} (c : result A) (k : A -> result B) (r : B) (G : Prop) :
  (forall a, c = Ok a -> k a = Ok r -> G) -> bind c k = Ok r -> G.
Proof.
  intros H. destruct c as [a|e]; cbn [bind]; intros E;
    [exact (H a eq_refl E) | discriminate E].
Qed.

Ltac bind_step a E :=
  lazymatch goal with
  | |- bind ?c ?k = Ok ?r -> ?G =>
      apply (@bind_elim _ _ c k r G); intros a E; cbv beta
  end.

Section FixedParams.
Variables a b c : text.

Lemma fixed_params_if (cond : bool) (p q : list text) :
  (exists pre post, p = pre ++ [a; b; c] ++ post) ->
  (exists pre post, q = pre ++ [a; b; c] ++ post) ->
  exists pre post, (if cond then p else q) = pre ++ [a; b; c] ++ post.
Proof. destruct cond; auto. Qed.

Lemma fixed_params_app (p l : list text) :
  (exists pre post, p = pre ++ [a; b; c] ++ post) ->
  exists pre post, p ++ l = pre ++ [a; b; c] ++ post.
Proof.
  intros (pre & post & ->). exists pre, (post ++ l).
  rewrite <- !app_assoc. reflexivity.
Qed.

Lemma join_cons (sep x : text) (l : list text) :
  exists y, join sep (x :: l) = x ++ y.
Proof.
  destruct l as [|z l]; cbn [join].
  - exists []. symmetry. apply app_nil_r.
  - eexists. reflexivity.
Qed.

(** Three consecutive parts stay together, with the separator between
    them, in the joined text. *)
Lemma join_fixed_params (sep : text) (pre post : list text) :
  contains (a ++ sep ++ b ++ sep ++ c)
           (join sep (pre ++ [a; b; c] ++ post)) = true.
Proof.
  apply contains_spec. induction pre as [|x pre IH].
  - cbn [app join]. destruct (join_cons sep c post) as [y Ey].
    change (match post with
            | [] => c
            | _ :: _ => c ++ sep ++ join sep post
            end) with (join sep (c :: post)).
    rewrite Ey. exists [], y. cbn [app].
    rewrite <- !app_assoc. reflexivity.
  - destruct IH as (u & v & E).
    change ((x :: pre) ++ [a; b; c] ++ post)
      with (x :: (pre ++ [a; b; c] ++ post)).
    destruct (pre ++ [a; b; c] ++ post) as [|z l] eqn:El.
    + destruct pre; discriminate El.
    + change (join sep (x :: z :: l)) with (x ++ sep ++ join sep (z :: l)).
      rewrite E. exists (x ++ sep ++ u), v.
      rewrite <- !app_assoc. reflexivity.
Qed.
End FixedParams.

(** The address built is the inventory search; its parameters hold the
    three fixed ones, and [search_query] is not bound. *)
Lemma build_search_url_params (container_repr : value -> text)
    (search_filters : value) (search_url : text)
    (search_query : option text) :
  build_search_url container_repr search_filters
  = Ok (search_url, search_query) ->
  search_query = None
  /\ exists pre post,
       search_url
       = str "https://www.truecar.com/used-cars-for-sale/listings/inventory/?"
         ++ join (str "&")
              (pre ++ [str "searchRadius=5000"; str "state=ca";
                       str "city=south-san-francisco"] ++ post).
Proof.
  unfold build_search_url. cbv zeta.
  bind_step make Emake. bind_step model0 Emodel.
  bind_step series Eseries.
  bind_step tr Etrims.
  bind_step mmt Emmt.
  bind_step yr Eyear.
  bind_step bud Ebudget.
  bind_step bs Ebs. bind_step body_style Ebody.
  bind_step dt Edt. bind_step drive Edrive.
  bind_step ft Eft. bind_step fuel_type Efuel.
  match goal with
  | |- context [((?p0 ++ [str "searchRadius=5000"]) ++ [str "state=ca"])
                ++ [str "city=south-san-francisco"]] =>
      set (base := ((p0 ++ [str "searchRadius=5000"]) ++ [str "state=ca"])
                   ++ [str "city=south-san-francisco"]);
      assert (Hbase : exists pre post,
                 base = pre ++ [str "searchRadius=5000"; str "state=ca";
                                str "city=south-san-francisco"] ++ post)
        by (exists p0, []; subst base; rewrite <- !app_assoc; reflexivity)
  end.
  clearbody base.
  match goal with
  | |- match ?P with [] => _ | _ :: _ => _ end = _ -> _ =>
      set (params := P);
      assert (Hinv : exists pre post,
                 params = pre ++ [str "searchRadius=5000"; str "state=ca";
                                  str "city=south-san-francisco"] ++ post)
        by (subst params;
            repeat first [ exact Hbase
                         | apply fixed_params_if
                         | apply fixed_params_app ])
  end.
  clearbody params. destruct Hinv as (pre & post & ->).
  destruct (pre ++ [str "searchRadius=5000"; str "state=ca";
                    str "city=south-san-francisco"] ++ post)
    as [|p ps] eqn:Ep; [destruct pre; discriminate Ep|].
  rewrite <- Ep. intros H. apply Ok_inj in H.
  apply (f_equal fst) in H as Hu. apply (f_equal snd) in H as Hq.
  cbn [fst snd] in Hu, Hq. subst search_url search_query.
  split; [reflexivity|]. exists pre, post. reflexivity.
Qed.

(** X13. Whatever the filters, the address [scrape_truecar_camoufox]
    loads is the inventory search with its parameters: the part
    "searchRadius=5000&state=ca&city=south-san-francisco" is always in it.
    The two fallback forms of the address are never used, and
    [search_query], which only the last of them assigns, is never
    bound. *)
Theorem truecar_search_url_is_inventory (container_repr : value -> text)
    (search_filters : value) (search_url : text)
    (search_query : option text) :
  build_search_url container_repr search_filters
  = Ok (search_url, search_query) ->
  search_query = None
  /\ startswith
       "https://www.truecar.com/used-cars-for-sale/listings/inventory/?"
       search_url = true
  /\ contains (str "searchRadius=5000&state=ca&city=south-san-francisco")
       search_url = true.
Proof.
  intros H. apply build_search_url_params in H.
  destruct H as (Hq & pre & post & ->).
  split; [exact Hq|]. split.
  - apply starts_with_app.
  - pose proof (@join_fixed_params (str "searchRadius=5000") (str "state=ca")
                  (str "city=south-san-francisco") (str "&") pre post) as Hj.
    apply contains_spec in Hj. destruct Hj as (u & v & Hj).
    apply contains_spec.
    change (str "searchRadius=5000&state=ca&city=south-san-francisco")
      with (str "searchRadius=5000" ++ str "&" ++ str "state=ca" ++ str "&"
            ++ str "city=south-san-francisco").
    rewrite Hj.
    exists (str "https://www.truecar.com/used-cars-for-sale/listings/inventory/?"
            ++ u), v.
    apply app_assoc.
Qed.

Lemma truecar_search_url_is_inventory_witness :
  exists search_url search_query,
    build_search_url no_container_repr sample_filters
    = Ok (search_url, search_query)
    /\ search_query = None
    /\ startswith
         "https://www.truecar.com/used-cars-for-sale/listings/inventory/?"
         search_url = true
    /\ contains (str "searchRadius=5000&state=ca&city=south-san-francisco")
         search_url = true.
Proof.
  eexists. eexists. split; [vm_compute; reflexivity|].
  apply (@truecar_search_url_is_inventory no_container_repr sample_filters).
  vm_compute. reflexivity.
Defined.

(** ** scrape-truecar.py: the rendered channel *)

(** X14. In the rendered channel a card that has no [h3]/[h2] heading and
    whose text holds no year (19xx or 20xx) is never emitted, whatever its
    price: its title would be [search_query], which is not bound, so the
    body of the loop raises [NameError] and the loop goes on with the next
    card. *)
Theorem truecar_untitled_card_is_dropped (container_repr : value -> text)
    (search_filters : value) (search_url : text)
    (search_query : option text) (listing : Element) (all_text : text)
    (rest : list Element) (results : list Listing) :
  build_search_url container_repr search_filters
  = Ok (search_url, search_query) ->
  inner_text listing = Ok all_text ->
  query_selector listing "h3, h2" = Ok None ->
  search false TrueCar.year_pattern all_text = None ->
  TrueCar.extract_listing search_query listing = Raise NameError
  /\ TrueCar.extract_loop search_query (listing :: rest) results
     = TrueCar.extract_loop search_query rest results.
Proof.
  intros Hu Ht Hh Hy.
  apply build_search_url_params in Hu. destruct Hu as [-> _].
  assert (E : TrueCar.extract_listing None listing = Raise NameError).
  { unfold TrueCar.extract_listing. rewrite Ht. cbn [bind].
    rewrite Hh. cbn [bind]. rewrite Hy. reflexivity. }
  split; [exact E|]. cbn [TrueCar.extract_loop]. rewrite E. reflexivity.
Qed.

Lemma truecar_untitled_card_is_dropped_witness :
  TrueCar.extract_listing None (text_element "GMC Sierra Denali $45,000")
  = Raise NameError
  /\ TrueCar.extract_loop None [text_element "GMC Sierra Denali $45,000"] []
     = TrueCar.extract_loop None [] [].
Proof.
  apply (@truecar_untitled_card_is_dropped no_container_repr sample_filters
           (str "https://www.truecar.com/used-cars-for-sale/listings/inventory/?mmt[]=gmc_sierra&searchRadius=5000&state=ca&city=south-san-francisco")
           None (text_element "GMC Sierra Denali $45,000")
           (str "GMC Sierra Denali $45,000") [] []);
    vm_compute; reflexivity.
Defined.

(** What one card becomes in the rendered channel of scrape-truecar.py. *)
Lemma truecar_extract_listing_shape (search_query : option text)
    (listing : Element) (d : Listing) :
  TrueCar.extract_listing search_query listing = Ok (Some d) ->
  truecar_rendered_listing_shape d.
Proof.
  intros H. split; [eapply truecar_extract_listing_priced; exact H|].
  revert H. unfold TrueCar.extract_listing.
  destruct (inner_text listing) as [all_text|]; cbn [bind]; [|intros [=]].
  destruct (query_selector listing "h3, h2") as [te|]; cbn [bind];
    [|intros [=]].
  destruct (match te with Some _ => _ | None => _ end) as [title|];
    cbn [bind]; [|intros [=]].
  destruct (query_selector listing _) as [pe|]; cbn [bind]; [|intros [=]].
  destruct (match pe with Some _ => _ | None => _ end) as [p|];
    cbn [bind]; [|intros [=]].
  destruct (query_selector listing "img") as [ie|]; cbn [bind];
    [|intros [=]].
  destruct (match ie with Some _ => _ | None => _ end) as [image|];
    cbn [bind]; [|intros [=]].
  destruct (query_selector listing _) as [le|]; cbn [bind]; [|intros [=]].
  destruct (match le with Some _ => _ | None => _ end) as [u|] eqn:Eu;
    cbn [bind]; [|intros [=]].
  destruct (0 <? p)%Z; [|intros [=]].
  intros [= <-]. cbn [retailer url].
  split; [reflexivity|]. split; [reflexivity|].
  destruct le as [e|]; [|left; injection Eu as <-; reflexivity].
  destruct (get_attribute e "href") as [href|]; cbn [bind] in Eu;
    [|discriminate Eu].
  injection Eu as <-. right.
  destruct (startswith "http" (or_empty href)) eqn:E;
    [exact E | reflexivity].
Qed.

Lemma truecar_camoufox_inv (container_repr : value -> text)
    (search_filters : value) (max_results : Z) (w : World)
    (results : list Listing) :
  scrape_truecar_camoufox container_repr search_filters max_results w
  = Ok results ->
  exists ls,
    results = TrueCar.extract_loop None ls []
    /\ ((0 <= max_results)%Z -> (Z.of_nat (length ls) <= max_results)%Z).
Proof.
  assert (Hnil : exists ls : list Element,
             @nil Listing = TrueCar.extract_loop None ls []
             /\ ((0 <= max_results)%Z ->
                 (Z.of_nat (length ls) <= max_results)%Z)).
  { exists []. split; [reflexivity|]. cbn [length]. lia. }
  unfold scrape_truecar_camoufox, with_browser.
  destruct (negb (camoufox_installed w)); [intros [= <-]; exact Hnil|].
  destruct (build_search_url container_repr search_filters)
    as [[search_url search_query]|] eqn:Eu; cbn [bind]; [|intros [=]].
  apply build_search_url_params in Eu. destruct Eu as [-> _].
  destruct (launch (browser w)); cbn [bind]; [|intros [=]].
  destruct (close (browser w)); cbn [bind]; [|intros [=]].
  destruct (new_page_goto (browser w)); cbn [bind];
    [|intros [= <-]; exact Hnil].
  destruct (query_selector_all (browser w) _) as [ls|]; cbn [bind];
    [|intros [= <-]; exact Hnil].
  intros [= <-]. exists (slice_to max_results ls).
  split; [reflexivity | apply slice_to_length].
Qed.

(** X15. Every listing [scrape_truecar_camoufox] returns has an integer
    price above zero and an integer mileage not below zero, the retailer
    and the location "TrueCar" and an address that is empty or starts
    with "http"; and with a [max_results] that is not negative it never
    returns more than [max_results] listings. *)
Theorem truecar_rendered_results_shape (container_repr : value -> text)
    (search_filters : value) (max_results : Z) (w : World)
    (results : list Listing) :
  scrape_truecar_camoufox container_repr search_filters max_results w
  = Ok results ->
  ((0 <= max_results)%Z -> (Z.of_nat (length results) <= max_results)%Z)
  /\ Forall truecar_rendered_listing_shape results.
Proof.
  intros H. apply truecar_camoufox_inv in H. destruct H as (ls & -> & Hlen).
  split.
  - intros Hm. specialize (Hlen Hm).
    pose proof (@append_loop_length _ (TrueCar.extract_listing None)
                  (TrueCar.extract_loop None)
                  ltac:(reflexivity) ltac:(reflexivity) ls []) as Hl.
    cbn [length] in Hl. lia.
  - apply (@append_loop_Forall _ _ (TrueCar.extract_listing None)
             (TrueCar.extract_loop None));
      [reflexivity | reflexivity | | constructor].
    intros l d Hd. eapply truecar_extract_listing_shape. exact Hd.
Qed.

Lemma truecar_rendered_results_shape_witness :
  exists results,
    scrape_truecar_camoufox no_container_repr sample_filters 10
      world_with_errors = Ok results
    /\ ((0 <= 10)%Z -> (Z.of_nat (length results) <= 10)%Z)
    /\ Forall truecar_rendered_listing_shape results.
Proof.
  eexists. split; [vm_compute; reflexivity|].
  apply (@truecar_rendered_results_shape no_container_repr sample_filters 10
           world_with_errors).
  vm_compute. reflexivity.
Defined.

(** ** scrape-truecar.py: the GraphQL channel *)

Lemma py_or_zero (v : value) :
  truthy (py_or v (VInt 0)) = true \/ py_or v (VInt 0) = VInt 0.
Proof. unfold py_or. destruct (truthy v) eqn:E; [left; exact E | right; reflexivity]. Qed.

Lemma listing_of_edge_shape (container_repr : value -> text) (edge : value)
    (d : Listing) :
  listing_of_edge container_repr edge = Ok d ->
  truecar_graphql_listing_shape d.
Proof.
  unfold listing_of_edge.
  repeat (let a := fresh "a" in let E := fresh "E" in bind_step a E).
  intros H. apply Ok_inj in H. subst d.
  unfold truecar_graphql_listing_shape. cbn [retailer url image price mileage].
  repeat split; apply py_or_zero.
Qed.

Lemma edges_loop_shape (container_repr : value -> text) (P : Listing -> Prop) :
  (forall edge d, listing_of_edge container_repr edge = Ok d -> P d) ->
  forall edges acc results,
    edges_loop container_repr edges acc = Ok results ->
    Forall P acc ->
    Forall P results /\ length results = length acc + length edges.
Proof.
  intros HP. induction edges as [|edge rest IH]; intros acc results;
    cbn [edges_loop].
  - intros H Hacc. apply Ok_inj in H. subst results.
    split; [exact Hacc | cbn [length]; lia].
  - bind_step d Ed. intros H Hacc. apply IH in H.
    + destruct H as [HF Hl]. split; [exact HF|].
      rewrite Hl, length_app. cbn [length]. lia.
    + apply Forall_app. split; [exact Hacc|].
      constructor; [eapply HP; exact Ed | constructor].
Qed.

(** X16. When the GraphQL channel returns listings, there is at least
    one, and each has the retailer and the location "TrueCar", the
    address of the site's front page, an empty image, and a price and a
    mileage that are never [None]: a missing or null value is 0. *)
Theorem truecar_graphql_results_shape (container_repr : value -> text)
    (search_filters : value) (max_results : Z) (w : World)
    (results : list Listing) :
  scrape_truecar_graphql container_repr search_filters max_results w
  = Ok (Some results) ->
  1 <= length results
  /\ Forall truecar_graphql_listing_shape results.
Proof.
  unfold scrape_truecar_graphql.
  destruct (negb (aiohttp_installed w)); [intros [=]|].
  bind_step sq Esq.
  destruct sq as [[|c sq]|]; [intros [=] | | intros [=]].
  cbv zeta.
  match goal with
  | |- match ?attempt with Ok r => Ok r | Raise _ => Ok None end = _ -> _ =>
      destruct attempt as [r|] eqn:Ea; [|intros [=]]
  end.
  intros H. apply Ok_inj in H. subst r. revert Ea.
  bind_step resp Eresp. destruct resp as [status body].
  destruct (negb (status =? 200)%Z); [intros [=]|].
  bind_step response Ebody. bind_step has_errors Eerr.
  destruct has_errors; [intros [=]|].
  bind_step data Edata. bind_step vs Evs. bind_step edges Eedges.
  destruct (negb (truthy edges)); [intros [=]|].
  bind_step es Ees. bind_step rs Ers.
  destruct rs as [|d ds]; [intros [=]|].
  intros H. apply Ok_inj in H.
  assert (Hr : results = d :: ds).
  { apply (f_equal (fun o => match o with Some l => l | None => [] end)) in H.
    symmetry. exact H. }
  subst results. clear H.
  destruct (@edges_loop_shape container_repr _
              (@listing_of_edge_shape container_repr) es [] (d :: ds) Ers
              ltac:(constructor)) as [HF _].
  split; [cbn [length]; lia | exact HF].
Qed.

Lemma truecar_graphql_results_shape_witness :
  exists results,
    scrape_truecar_graphql no_container_repr sample_filters 10
      world_with_null_price = Ok (Some results)
    /\ 1 <= length results
    /\ Forall truecar_graphql_listing_shape results.
Proof.
  eexists. split; [vm_compute; reflexivity|].
  apply (@truecar_graphql_results_shape no_container_repr sample_filters 10
           world_with_null_price).
  vm_compute. reflexivity.
Defined.

(** ** Slices of a text *)


Lemma lstrip_suffix (s : text) : exists pre, s = pre ++ lstrip s.
Proof.
  induction s as [|c s IH]; cbn [lstrip]; [exists []; reflexivity|].
  destruct (is_space c); [|exists []; reflexivity].
  destruct IH as [pre E]. exists (c :: pre). cbn [app]. rewrite <- E.
  reflexivity.
Qed.

(** [s.strip()] is a slice of [s]. *)
Lemma strip_slice (s : text) : exists pre post, s = pre ++ strip s ++ post.
Proof.
  unfold strip. destruct (lstrip_suffix s) as [pre E].
  destruct (lstrip_suffix (rev (lstrip s))) as [pre' E'].
  exists pre, (rev pre'). rewrite E at 1. f_equal.
  rewrite <- (rev_involutive (lstrip s)) at 1. rewrite E' at 1.
  apply rev_app_distr.
Qed.

Lemma split_on_slice (sep : ascii) (s : text) :
  forall cur piece,
    In piece (split_on sep cur s) ->
    exists pre post, rev cur ++ s = pre ++ piece ++ post.
Proof.
  induction s as [|c s IH]; intros cur piece; cbn [split_on].
  - intros [<-|[]]. exists [], []. rewrite app_nil_r. reflexivity.
  - destruct (ascii_dec c sep) as [->|Hc].
    + intros [<-|H].
      * exists [], (sep :: s). reflexivity.
      * apply IH in H. destruct H as (pre & post & E). cbn [rev app] in E.
        exists (rev cur ++ sep :: pre), post. rewrite E.
        rewrite <- app_assoc. reflexivity.
    + intros H. apply IH in H. destruct H as (pre & post & E).
      cbn [rev] in E. rewrite <- app_assoc in E. exists pre, post. exact E.
Qed.

(** The pieces of [s.split(sep)] are slices of [s]. *)
Lemma split_slice (sep : ascii) (s piece : text) :
  In piece (split sep s) -> exists pre post, s = pre ++ piece ++ post.
Proof. intros H. apply split_on_slice in H. exact H. Qed.

Lemma split_ws_aux_slice (s : text) :
  forall cur w,
    In w (split_ws_aux cur s) ->
    exists pre post, rev cur ++ s = pre ++ w ++ post.
Proof.
  induction s as [|c s IH]; intros cur w; cbn [split_ws_aux].
  - destruct cur as [|x cur]; [intros []|].
    intros [<-|[]]. exists [], []. rewrite app_nil_r. reflexivity.
  - destruct (is_space c).
    + destruct cur as [|x cur].
      * intros H. apply IH in H. destruct H as (pre & post & E).
        cbn [rev app] in *. exists (c :: pre), post. rewrite E. reflexivity.
      * intros [<-|H].
        -- exists [], (c :: s). reflexivity.
        -- apply IH in H. destruct H as (pre & post & E). cbn [rev app] in E.
           exists (rev (x :: cur) ++ c :: pre), post. rewrite E.
           rewrite <- app_assoc. reflexivity.
    + intros H. apply IH in H. destruct H as (pre & post & E).
      cbn [rev] in E. rewrite <- app_assoc in E. exists pre, post. exact E.
Qed.

(** The words of [s.split()] are slices of [s]. *)
Lemma split_ws_slice (s w : text) :
  In w (split_ws s) -> exists pre post, s = pre ++ w ++ post.
Proof. intros H. apply split_ws_aux_slice in H. exact H. Qed.

Lemma slice_trans (a b c : text) :
  (exists pre post, b = pre ++ a ++ post) ->
  (exists pre post, c = pre ++ b ++ post) ->
  exists pre post, c = pre ++ a ++ post.
Proof.
  intros (p1 & q1 & ->) (p2 & q2 & ->).
  exists (p2 ++ p1), (q1 ++ q2). rewrite <- !app_assoc. reflexivity.
Qed.


(** ** scrape-kbb.py: price and mileage *)

(** The lines of a card are slices of its text. *)
Lemma kbb_line_slice (all_text line : text) :
  In line (map strip (filter (fun line => negb (length (strip line) =? 0))
                             (split newline all_text))) ->
  exists pre post, all_text = pre ++ line ++ post.
Proof.
  intros H. apply in_map_iff in H. destruct H as (piece & <- & H).
  apply filter_In in H. destruct H as [H _].
  eapply slice_trans; [apply strip_slice | eapply split_slice; exact H].
Qed.





(** The card of [kbb_used_tacoma] is priced 45000 and driven 12,500
    miles: it is emitted with the price 12500. *)
Example kbb_price_from_mileage_line :
  option_map price
    (match Kbb.extract_listing default_max_str_digits (str "Toyota Tacoma")
             kbb_used_tacoma with
     | Ok o => o
     | Raise _ => None
     end)
  = Some (VInt 12500).
Proof. vm_compute. reflexivity. Qed.

Lemma kbb_title_loop_condition (max_str_digits : nat) (lines : list text) :
  forall c0 y0 t0 c y t,
    Kbb.title_loop max_str_digits lines (c0, y0, t0) = Ok (c, y, t) ->
    c = c0
    \/ exists line ws, In line lines /\ split_ws line = c :: ws.
Proof.
  induction lines as [|line rest IH]; intros c0 y0 t0 c y t;
    cbn [Kbb.title_loop].
  - intros H. apply Ok_inj in H. left. congruence.
  - assert (Hrest : Kbb.title_loop max_str_digits rest (c0, y0, t0)
                    = Ok (c, y, t) ->
                    c = c0
                    \/ exists l ws, In l (line :: rest)
                                    /\ split_ws l = c :: ws).
    { intros H. apply IH in H. destruct H as [H|(l & ws & Hl & Hw)];
        [left; exact H|].
      right. exists l, ws. split; [right; exact Hl | exact Hw]. }
    destruct (Kbb.found (search false Kbb.condition_pattern line)).
    + bind_step y1 Ey. bind_step c1 Ec. intros H. right.
      destruct (split_ws line) as [|w ws] eqn:Ew; [discriminate Ec|].
      apply Ok_inj in Ec. subst c1.
      apply IH in H. destruct H as [->|(l & ws' & Hl & Hw)].
      * exists line, ws. split; [left; reflexivity | exact Ew].
      * exists l, ws'. split; [right; exact Hl | exact Hw].
    + destruct (_ && _); [|exact Hrest].
      destruct (_ && _); [|exact Hrest].
      intros H. apply Ok_inj in H. left. congruence.
Qed.

(** X18. scrape-kbb.py reads a mileage only when the first word of a
    condition line is "used" in some letter case. So a card whose text
    does not hold "used" in any case (a new or a certified vehicle, say)
    gets the mileage 0, whatever mileage its text shows. *)
Theorem kbb_mileage_needs_used (max_str_digits : nat) (query : text)
    (listing : Element) (all_text : text) (d : Listing) :
  inner_text listing = Ok all_text ->
  contains (str "used") (lower all_text) = false ->
  Kbb.extract_listing max_str_digits query listing = Ok (Some d) ->
  mileage d = VInt 0.
Proof.
  intros Ht Hu. unfold Kbb.extract_listing. rewrite Ht. cbn [bind].
  destruct (get_attribute listing "href") as [href|]; cbn [bind];
    [|intros [=]].
  destruct (Kbb.title_loop max_str_digits _ _) as [[[condition yr] title]|]
    eqn:Etl; cbn [bind]; [|intros [=]].
  destruct (query_selector listing "img") as [img|]; cbn [bind];
    [|intros [=]].
  destruct (match img with Some _ => _ | None => _ end) as [image|];
    cbn [bind]; [|intros [=]].
  destruct (0 <? Kbb.price_loop _)%Z; [|intros [=]].
  intros H. apply Ok_inj in H.
  apply (f_equal (fun o => match o with
                           | Some x => mileage x
                           | None => VInt 0
                           end)) in H.
  cbn [mileage] in H. rewrite <- H. clear H. f_equal.
  unfold Kbb.extract_mileage.
  destruct (text_eqb (lower condition) (str "used")) eqn:Eq; [|reflexivity].
  exfalso. apply text_eqb_eq in Eq.
  apply kbb_title_loop_condition in Etl.
  destruct Etl as [->|(line & ws & Hl & Hw)]; [discriminate Eq|].
  assert (Hs : exists pre post, all_text = pre ++ condition ++ post).
  { eapply slice_trans; [|apply kbb_line_slice; exact Hl].
    apply split_ws_slice. rewrite Hw. left. reflexivity. }
  assert (Hc : contains (str "used") (lower all_text) = true).
  { destruct Hs as (pre & post & ->). unfold lower in *.
    rewrite !map_app. apply contains_spec.
    exists (map lower_char pre), (map lower_char post).
    rewrite Eq. reflexivity. }
  rewrite Hc in Hu. discriminate Hu.
Qed.

Lemma kbb_mileage_needs_used_witness :
  exists d,
    Kbb.extract_listing default_max_str_digits (str "GMC Sierra")
      kbb_certified_sierra = Ok (Some d)
    /\ mileage d = VInt 0.
Proof.
  eexists. split; [vm_compute; reflexivity|].
  eapply (@kbb_mileage_needs_used default_max_str_digits (str "GMC Sierra")
            kbb_certified_sierra);
    [reflexivity | vm_compute; reflexivity | vm_compute; reflexivity].
Defined.

(** ** scrape-autotrader-cdp.py: the address searched *)

Lemma lower_char_not_space (c : ascii) :
  lower_char c = " "%char -> c = " "%char.
Proof.
  destruct c as [b0 b1 b2 b3 b4 b5 b6 b7].
  destruct b0, b1, b2, b3, b4, b5, b6, b7; vm_compute; intros H;
    first [reflexivity | discriminate H].
Qed.

Lemma lower_char_not_capital (c : ascii) :
  in_range 65 90 (lower_char c) = false.
Proof.
  destruct c as [b0 b1 b2 b3 b4 b5 b6 b7].
  destruct b0, b1, b2, b3, b4, b5, b6, b7; vm_compute; reflexivity.
Qed.

Lemma replace_char_removes (a : ascii) (b s : text) :
  ~ In a b -> ~ In a (replace_char a b s).
Proof.
  intros Hb. unfold replace_char. induction s as [|c s IH]; cbn [flat_map].
  - intros [].
  - intros H. apply in_app_or in H. destruct H as [H|H]; [|exact (IH H)].
    destruct (ascii_dec c a) as [->|Hc]; [exact (Hb H)|].
    destruct H as [H|[]]. congruence.
Qed.

(** X20. Whatever the query, the part of the address searched that
    stands for the search words holds no space and no capital letter A-Z:
    spaces become hyphens and the words are lowered. *)
Theorem cdp_search_url_slug (title : text -> text) (query : text) :
  exists slug,
    CdpNavigation.search_url title query
    = str "https://www.autotrader.com/cars-for-sale/" ++ slug
      ++ str "/san-mateo-ca?searchRadius=500"
    /\ ~ In " "%char slug
    /\ Forall (fun c => in_range 65 90 c = false) slug.
Proof.
  unfold CdpNavigation.search_url. cbv zeta.
  eexists. split; [reflexivity|]. split.
  - unfold lower. intros H. apply in_map_iff in H.
    destruct H as (c & Hc & Hin). apply lower_char_not_space in Hc. subst c.
    revert Hin. apply replace_char_removes. intros [H|[]]. discriminate H.
  - unfold lower. apply Forall_forall. intros x H. apply in_map_iff in H.
    destruct H as (c & <- & _). apply lower_char_not_capital.
Qed.

(** X21. A query that is an address ("http...") in which no path segment
    is "cars-for-sale", or in which fewer than two segments follow the
    first "cars-for-sale", is searched as "GMC Sierra", whatever vehicle
    the address names. *)
Theorem cdp_search_defaults_to_gmc_sierra (title : text -> text)
    (query : text) :
  startswith "http" query = true ->
  CdpNavigation.index (str "cars-for-sale") (split "/"%char query) = None
  \/ (exists idx,
        CdpNavigation.index (str "cars-for-sale") (split "/"%char query)
        = Some idx
        /\ length (split "/"%char query) <= idx + 2) ->
  CdpNavigation.search_url title query
  = str "https://www.autotrader.com/cars-for-sale/gmc-sierra/san-mateo-ca?searchRadius=500".
Proof.
  intros Hh Hi. unfold CdpNavigation.search_url, CdpNavigation.search_terms.
  rewrite Hh. cbv zeta.
  destruct Hi as [->|(idx & -> & Hl)]; [reflexivity|].
  replace (idx + 2 <? length (split "/"%char query)) with false
    by (symmetry; apply Nat.ltb_ge; exact Hl).
  reflexivity.
Qed.

Lemma cdp_search_defaults_to_gmc_sierra_witness :
  CdpNavigation.search_url (fun t => t)
    (str "https://www.autotrader.com/toyota/rav4/cars-for-sale")
  = str "https://www.autotrader.com/cars-for-sale/gmc-sierra/san-mateo-ca?searchRadius=500".
Proof.
  apply (@cdp_search_defaults_to_gmc_sierra (fun t => t)
           (str "https://www.autotrader.com/toyota/rav4/cars-for-sale")).
  - vm_compute. reflexivity.
  - right. exists 5. split; vm_compute; [reflexivity | lia].
Defined.

(** ** scrape-autotrader-cdp.py: the scrolling *)

Lemma scroll_loop_heights (max_results : Z) (page : CdpNavigation.ScrollPage) :
  forall remaining scroll_attempts last_listing_count scrolled heights,
    CdpNavigation.scroll_loop remaining max_results page scroll_attempts
      last_listing_count scrolled = Ok heights ->
    exists n,
      n <= remaining
      /\ heights
         = scrolled
           ++ map (fun i => (Z.of_nat i * 800 + 1000)%Z) (seq scroll_attempts n).
Proof.
  induction remaining as [|remaining IH];
    intros scroll_attempts last_listing_count scrolled heights;
    cbn [CdpNavigation.scroll_loop].
  - intros H. apply Ok_inj in H. subst heights. exists 0.
    split; [lia|]. cbn [seq map]. symmetry. apply app_nil_r.
  - bind_step current_count Ec.
    destruct (_ || _).
    + intros H. apply Ok_inj in H. subst heights. exists 0.
      split; [lia|]. cbn [seq map]. symmetry. apply app_nil_r.
    + cbv zeta. bind_step u Eu. intros H. apply IH in H.
      destruct H as (n & Hn & ->). exists (S n). split; [lia|].
      rewrite <- app_assoc. reflexivity.
Qed.

(** X22. The scrolling that loads more listings scrolls at most 15
    times, by 1000, 1800, 2600, ... pixels (800 more each time); and it
    does not scroll at all when the first count of listing links is 0 or
    is [max_results] or more. *)
Theorem cdp_scroll_is_bounded (max_results : Z)
    (page : CdpNavigation.ScrollPage) (heights : list Z) :
  CdpNavigation.scroll_to_load max_results page = Ok heights ->
  length heights <= 15
  /\ heights
     = map (fun i => (Z.of_nat i * 800 + 1000)%Z) (seq 0 (length heights))
  /\ (forall n,
        CdpNavigation.count_listing_links page 0 = Ok n ->
        n = 0 \/ (max_results <= Z.of_nat n)%Z ->
        heights = []).
Proof.
  intros H. pose proof H as H0.
  apply scroll_loop_heights in H. destruct H as (n & Hn & ->).
  cbn [app]. rewrite length_map, length_seq.
  split; [exact Hn|]. split; [reflexivity|].
  intros c Hc Hstop. revert H0.
  unfold CdpNavigation.scroll_to_load, CdpNavigation.max_scroll_attempts.
  cbn [CdpNavigation.scroll_loop]. rewrite Hc. cbn [bind].
  replace ((max_results <=? Z.of_nat c)%Z || (c =? 0)) with true.
  - intros E. apply Ok_inj in E. symmetry. exact E.
  - symmetry. apply orb_true_iff. destruct Hstop as [->|Hm].
    + right. reflexivity.
    + left. apply Z.leb_le. exact Hm.
Qed.

Lemma cdp_scroll_is_bounded_witness :
  exists heights,
    CdpNavigation.scroll_to_load 10 sample_scroll_page = Ok heights
    /\ length heights <= 15
    /\ heights
       = map (fun i => (Z.of_nat i * 800 + 1000)%Z) (seq 0 (length heights))
    /\ (forall n,
          CdpNavigation.count_listing_links sample_scroll_page 0 = Ok n ->
          n = 0 \/ (10 <= Z.of_nat n)%Z ->
          heights = []).
Proof.
  eexists. split; [vm_compute; reflexivity|].
  apply (@cdp_scroll_is_bounded 10 sample_scroll_page).
  vm_compute. reflexivity.
Defined.

(** ** The command lines and the test script *)

(** X23. When Chrome answers and the page shows a bot-defense phrase,
    [main] of scrape-autotrader-cdp.py prints the error "No AutoTrader
    listings found for '<query>'" and ends with status 0: a blocked page
    is reported exactly as a search without results. *)
Theorem cdp_main_reports_blocked_as_no_listings (max_str_digits : nat)
    (script query : text) (rest : list text) (max_results : Z)
    (page : AutoTraderCdp.Page) (page_text indicator : text) :
  max_results_arg max_str_digits rest = Ok max_results ->
  connect_over_cdp page = true ->
  inner_text_body page = Ok page_text ->
  In indicator bot_detection_indicators ->
  contains (lower indicator) (lower page_text) = true ->
  AutoTraderCdpMain.main max_str_digits (script :: query :: rest) page
  = {| stdout := [PrintError (str "No AutoTrader listings found for '"
                              ++ query ++ str "'")];
       returncode := 0 |}.
Proof.
  intros Hm Hc Ht Hi Hb. unfold AutoTraderCdpMain.main. rewrite Hm.
  rewrite (@blocked_page_never_lists max_str_digits query max_results page Hc).
  - reflexivity.
  - intros t E. rewrite Ht in E. apply Ok_inj in E. subst t.
    eapply classify_blocked; eassumption.
Qed.

Lemma cdp_main_reports_blocked_as_no_listings_witness :
  AutoTraderCdpMain.main default_max_str_digits
    [str "scrape-autotrader-cdp.py"; str "GMC Sierra"; str "5"] denied_page
  = {| stdout := [PrintError (str "No AutoTrader listings found for '"
                              ++ str "GMC Sierra" ++ str "'")];
       returncode := 0 |}.
Proof.
  apply (@cdp_main_reports_blocked_as_no_listings default_max_str_digits
           (str "scrape-autotrader-cdp.py") (str "GMC Sierra") [str "5"] 5%Z
           denied_page
           (str "No results found. Access to this page has been denied.")
           (str "Access to this page has been denied")).
  - vm_compute. reflexivity.
  - reflexivity.
  - reflexivity.
  - vm_compute. tauto.
  - vm_compute. reflexivity.
Defined.

(** What the test script makes of a run that printed one object. *)
Lemma test_scraper_of_error (message : text) (status : Z) :
  TestScrapers.test_scraper true
    (TestScrapers.process_of
       {| stdout := [PrintError message]; returncode := status |})
  = Some (if (status =? 0)%Z then TestScrapers.ERROR (VStr message)
          else TestScrapers.FAIL).
Proof.
  unfold TestScrapers.test_scraper, TestScrapers.process_of.
  cbn [negb returncode stdout TestScrapers.stdout_json
       TestScrapers.printed_json].
  destruct (status =? 0)%Z; [|reflexivity].
  cbn [assoc]. unfold text_eqb.
  destruct (list_eq_dec ascii_dec (str "error") (str "error"));
    [reflexivity | congruence].
Qed.

Lemma test_scraper_of_listings (d : Listing) (ds : list Listing) :
  TestScrapers.test_scraper true
    (TestScrapers.process_of
       {| stdout := [PrintListings (d :: ds)]; returncode := 0 |})
  = Some (TestScrapers.PASS (S (length ds)) (TestScrapers.listing_json d)).
Proof.
  unfold TestScrapers.test_scraper, TestScrapers.process_of.
  cbn [negb returncode stdout TestScrapers.stdout_json
       TestScrapers.printed_json Z.eqb map length].
  rewrite length_map. reflexivity.
Qed.

Lemma test_scraper_of_failure (printed_lines : list printed) (status : Z) :
  status <> 0%Z ->
  TestScrapers.test_scraper true
    (TestScrapers.process_of
       {| stdout := printed_lines; returncode := status |})
  = Some TestScrapers.FAIL.
Proof.
  intros H. unfold TestScrapers.test_scraper, TestScrapers.process_of.
  cbn [negb returncode].
  replace (status =? 0)%Z with false; [reflexivity|].
  symmetry. apply Z.eqb_neq. exact H.
Qed.

(** A run whose output holds the line "Installing ..." before the object
    printed is never read as JSON. *)
Lemma test_scraper_of_installing (package pip_output : text) (r : run) :
  TestScrapers.test_scraper true
    (TestScrapers.process_of
       {| stdout := PrintInstalling package pip_output :: stdout r;
          returncode := returncode r |})
  = Some (if (returncode r =? 0)%Z then TestScrapers.INVALID
          else TestScrapers.FAIL).
Proof.
  unfold TestScrapers.test_scraper, TestScrapers.process_of.
  cbn [negb returncode stdout TestScrapers.stdout_json].
  destruct (returncode r =? 0)%Z; [|reflexivity].
  destruct (stdout r); reflexivity.
Qed.

Ltac harness_cases :=
  first
    [ rewrite test_scraper_of_listings; left; eexists _, _; reflexivity
    | rewrite test_scraper_of_error; right; left; eexists; reflexivity
    | rewrite test_scraper_of_error; right; right; reflexivity
    | rewrite test_scraper_of_failure by discriminate; right; right;
      reflexivity ].

(** X24. Whatever its arguments and whatever the browser does, a run of
    scrape-kbb.py or scrape-truecar.py that ends within the time allowed
    is reported by [test_scraper] as PASS with one result or more, as
    ERROR or as FAIL: these scripts never print an empty list, so the
    statuses EMPTY and INVALID never come up for them and [test_scraper]
    never falls off its end. *)
Theorem finished_runs_as_reported
    (exception_text : exn -> text) (json_loads : text -> option value)
    (container_repr : value -> text) (max_str_digits : nat)
    (argv : list text) (browser : Browser) (w : World)
    (top_level_ok : bool) :
  let report_of (r : run) :=
    TestScrapers.test_scraper true
      (TestScrapers.subprocess_run (TestScrapers.Ends r)) in
  let pass_error_or_fail (r : run) :=
    (exists n sample,
       report_of r = Some (TestScrapers.PASS (S n) sample))
    \/ (exists e, report_of r = Some (TestScrapers.ERROR e))
    \/ report_of r = Some TestScrapers.FAIL in
  pass_error_or_fail
    (KbbMain.script exception_text top_level_ok max_str_digits argv browser)
  /\ pass_error_or_fail
       (TrueCarMain.main exception_text json_loads container_repr
          max_str_digits argv w).
Proof.
  cbv zeta. cbn [TestScrapers.subprocess_run]. split.
  - unfold KbbMain.script. destruct top_level_ok; [|harness_cases].
    unfold KbbMain.main.
    destruct argv as [|script [|query rest]]; try harness_cases.
    destruct (max_results_arg max_str_digits rest) as [max_results|];
      [|harness_cases].
    destruct (Kbb.scrape_kbb max_str_digits query max_results browser)
      as [[|d ds]|]; harness_cases.
  - unfold TrueCarMain.main.
    destruct argv as [|script [|arg rest]]; try harness_cases.
    destruct (max_results_arg max_str_digits rest) as [max_results|];
      [|harness_cases].
    destruct (json_loads arg) as [search_filters|]; [|harness_cases].
    destruct (snd (scrape_truecar container_repr search_filters max_results w))
      as [[|d ds]|]; harness_cases.
Qed.

(** X26. A run of scrape-autotrader.py that ends within the time allowed
    is reported as PASS with one result or more, as ERROR or as FAIL when
    camoufox is imported at once. When it has to be installed first, the
    line "Installing camoufox..." stands on the standard output beside
    what [main] prints: the run is reported INVALID when [main] ends with
    status 0 and FAIL otherwise, never PASS nor ERROR, whatever the
    scraper finds. When the installation fails or the import raises, the
    run is reported FAIL. *)
Theorem autotrader_run_with_camoufox_missing
    (exception_text : exn -> text) (max_str_digits : nat)
    (argv : list text) (browser : Browser) (pip_output : text) :
  let report_of (camoufox : library_import) :=
    TestScrapers.test_scraper true
      (TestScrapers.subprocess_run
         (TestScrapers.Ends
            (AutoTraderMain.script exception_text camoufox max_str_digits
               argv browser))) in
  ((exists n sample,
      report_of Imported = Some (TestScrapers.PASS (S n) sample))
   \/ (exists e, report_of Imported = Some (TestScrapers.ERROR e))
   \/ report_of Imported = Some TestScrapers.FAIL)
  /\ report_of (Installed pip_output)
     = Some (if (returncode
                   (AutoTraderMain.main exception_text max_str_digits argv
                      browser) =? 0)%Z
             then TestScrapers.INVALID else TestScrapers.FAIL)
  /\ report_of (InstallFailed pip_output) = Some TestScrapers.FAIL
  /\ report_of ImportRaised = Some TestScrapers.FAIL.
Proof.
  cbv zeta. cbn [TestScrapers.subprocess_run AutoTraderMain.script].
  split; [|split; [|split]].
  - unfold AutoTraderMain.main.
    destruct argv as [|script [|query rest]]; try harness_cases.
    destruct (max_results_arg max_str_digits rest) as [max_results|];
      [|harness_cases].
    destruct (AutoTrader.scrape_autotrader query max_results browser)
      as [[|d ds]|]; harness_cases.
  - cbv zeta. apply test_scraper_of_installing.
  - apply test_scraper_of_failure. discriminate.
  - apply test_scraper_of_failure. discriminate.
Qed.

Lemma max_results_arg_decimal_3 (max_str_digits : nat) :
  max_results_arg max_str_digits [TrueCar.decimal 3] = Ok 3%Z.
Proof. destruct max_str_digits as [|[|m]]; reflexivity. Qed.

(** X25. The test case of test-scrapers.py for scrape-truecar.py hands
    the script an address where the script reads JSON filters. When that
    address is not JSON, the script prints "Invalid JSON filters", ends
    with status 1, and the test is reported FAIL, whatever the site
    answers. *)
Theorem truecar_test_case_fails (exception_text : exn -> text)
    (json_loads : text -> option value) (container_repr : value -> text)
    (max_str_digits : nat) (script_path : text) (w : World)
    (name query : text) (max_results : Z) :
  In (name, str "scrape-truecar.py", query, max_results)
     TestScrapers.TEST_CASES ->
  json_loads query = None ->
  TrueCarMain.main exception_text json_loads container_repr max_str_digits
    (TestScrapers.argv script_path query max_results) w
  = {| stdout := [PrintError (str "Invalid JSON filters")];
       returncode := 1 |}
  /\ TestScrapers.test_scraper true
       (TestScrapers.process_of
          (TrueCarMain.main exception_text json_loads container_repr
             max_str_digits
             (TestScrapers.argv script_path query max_results) w))
     = Some TestScrapers.FAIL.
Proof.
  intros Hin Hj.
  assert (Hm : max_results = 3%Z).
  { unfold TestScrapers.TEST_CASES in Hin.
    repeat (destruct Hin as [Hin|Hin];
            [first [ discriminate Hin
                   | apply (f_equal snd) in Hin; symmetry; exact Hin ]|]).
    destruct Hin. }
  subst max_results.
  assert (E : TrueCarMain.main exception_text json_loads container_repr
                max_str_digits (TestScrapers.argv script_path query 3) w
              = {| stdout := [PrintError (str "Invalid JSON filters")];
                   returncode := 1 |}).
  { unfold TrueCarMain.main, TestScrapers.argv.
    rewrite max_results_arg_decimal_3, Hj. reflexivity. }
  split; [exact E|]. rewrite E.
  apply test_scraper_of_failure. discriminate.
Qed.

Lemma truecar_test_case_fails_witness :
  TrueCarMain.main (fun _ => str "error") (fun _ => None) no_container_repr
    default_max_str_digits
    (TestScrapers.argv (str "scripts/scrape-truecar.py")
       (str "https://www.truecar.com/used-cars-for-sale/listings/inventory/?city=south-san-francisco&mmt[]=gmc_sierra&searchRadius=5000&state=ca")
       3) world_with_errors
  = {| stdout := [PrintError (str "Invalid JSON filters")];
       returncode := 1 |}
  /\ TestScrapers.test_scraper true
       (TestScrapers.process_of
          (TrueCarMain.main (fun _ => str "error") (fun _ => None)
             no_container_repr default_max_str_digits
             (TestScrapers.argv (str "scripts/scrape-truecar.py")
                (str "https://www.truecar.com/used-cars-for-sale/listings/inventory/?city=south-san-francisco&mmt[]=gmc_sierra&searchRadius=5000&state=ca")
                3) world_with_errors))
     = Some TestScrapers.FAIL.
Proof.
  apply (@truecar_test_case_fails (fun _ => str "error") (fun _ => None)
           no_container_repr default_max_str_digits
           (str "scripts/scrape-truecar.py") world_with_errors
           (str "TrueCar - GMC Sierra")).
  - right. right. right. left. reflexivity.
  - reflexivity.
Defined.
